(** * volume-viewer: the host component and the engine facade it drives

    The repository is a React component ([VolumeViewer.tsx]) that drives a
    WebAssembly rendering engine through the [VolumeViewerWasm] interface.
    The first part of this file embeds the component: its state, its event
    handlers and the effects they have on the engine and on the canvas.
    The second part ([Module Engine]) models the engine behind the
    interface.  [Module ConvertScript] embeds the conversion script that
    prepares TIFF files for the viewer. *)

From Stdlib Require Import PrimFloat Floats ZArith NArith Arith List String Ascii Bool Lia.
From Stdlib Require Import QArith Qminmax Qround Lqa.
Import ListNotations.

Set Implicit Arguments.
Set Warnings "-inexact-float,-register-all".
Close Scope Q_scope.

(** ** JavaScript values the component handles *)

(** A JavaScript [number] is an IEEE 754 binary64 value. *)
Definition number := float.

Definition byte := Byte.byte.

Inductive JsValue : Type :=
| JNumber (n : number)
| JArray (items : list JsValue)
| JUint8Array (bytes : list byte).

(** What a [throw] or a rejected promise carries: an [Error] instance with
    its [message], or some other value (wasm-bindgen rejects with whatever
    [JsValue] the Rust side produced). *)
Inductive Thrown : Type :=
| ErrorObject (message : string)
| OtherValue.

(** [error instanceof Error ? error.message : fallback] *)
Definition message_or (fallback : string) (t : Thrown) : string :=
  match t with
  | ErrorObject m => m
  | OtherValue => fallback
  end.

Inductive Completion (A : Type) : Type :=
| Return (a : A)
| Throws (t : Thrown).
Arguments Return {A} a.
Arguments Throws {A} t.

(** ** [String.prototype.toLowerCase] and [String.prototype.endsWith]

    Strings are byte strings.  Only ASCII letters are folded: no other
    character lower-cases to a text that ends in [".tif"] or [".tiff"]. *)

Definition lower_ascii (c : ascii) : ascii :=
  let n := N_of_ascii c in
  if ((65 <=? n) && (n <=? 90))%N then ascii_of_N (n + 32) else c.

Fixpoint toLowerCase (s : string) : string :=
  match s with
  | EmptyString => EmptyString
  | String c s' => String (lower_ascii c) (toLowerCase s')
  end.

Fixpoint endsWith (s suffix : string) : bool :=
  String.eqb s suffix ||
  match s with
  | EmptyString => false
  | String _ s' => endsWith s' suffix
  end.

(** [name] ends, whatever the case of its letters, in [ext]. *)
Definition has_extension (name ext : string) : Prop :=
  exists stem tail, name = (stem ++ tail)%string /\ toLowerCase tail = ext.

(** ** The interface declaration (VolumeViewer.tsx, lines 13-20) *)

Inductive Method : Type :=
| m_load_volume | m_render | m_orbit | m_zoom | m_pan | m_resize.

Inductive TsType : Type :=
| TNumber
| TVoid
| TUint8Array
| TArrayOf (t : TsType)
| TTuple (ts : list TsType)
| TPromise (t : TsType).

Record MethodSig : Type := {
  params : list (string * TsType);
  returns : TsType
}.

(** [interface VolumeViewerWasm { ... }] *)
Definition VolumeViewerWasm_decl (m : Method) : MethodSig :=
  match m with
  | m_load_volume =>
      {| params := [("data", TUint8Array)]; returns := TPromise (TArrayOf TNumber) |}
  | m_render =>
      {| params := []; returns := TUint8Array |}
  | m_orbit =>
      {| params := [("deltaTheta", TNumber); ("deltaPhi", TNumber)]; returns := TVoid |}
  | m_zoom =>
      {| params := [("delta", TNumber)]; returns := TVoid |}
  | m_pan =>
      {| params := [("delta", TTuple [TNumber; TNumber])]; returns := TVoid |}
  | m_resize =>
      {| params := [("width", TNumber); ("height", TNumber)]; returns := TVoid |}
  end%string.

(** Run-time shape of a value of a declared type. *)
Fixpoint has_type (v : JsValue) (t : TsType) {struct v} : bool :=
  match v, t with
  | JNumber _, TNumber => true
  | JUint8Array _, TUint8Array => true
  | JArray items, TArrayOf t' => forallb (fun i => has_type i t') items
  | JArray items, TTuple ts =>
      (fix zip (items : list JsValue) (ts : list TsType) {struct items} : bool :=
         match items, ts with
         | [], [] => true
         | i :: items', t' :: ts' => has_type i t' && zip items' ts'
         | _, _ => false
         end) items ts
  | _, _ => false
  end.

Fixpoint args_match (args : list JsValue) (ps : list (string * TsType)) : bool :=
  match args, ps with
  | [], [] => true
  | a :: args', (_, t) :: ps' => has_type a t && args_match args' ps'
  | _, _ => false
  end.

(** The engine object as the component sees it: every method takes the
    engine's state and yields the new state and a completion.  [E] is the
    state behind the WebAssembly boundary. *)
Record VolumeViewerWasm (E : Type) : Type := {
  load_volume : list byte -> E -> E * Completion (option (list number));
  render : E -> E * Completion (list byte);
  orbit : number -> number -> E -> E * Completion unit;
  zoom : number -> E -> E * Completion unit;
  pan : number * number -> E -> E * Completion unit;
  resize : number -> number -> E -> E * Completion unit
}.

(** ** Component state *)

Record Pos : Type := { x : number; y : number }.

Record ViewerState : Type := {
  isLoading : bool;
  error : option string;
  isDragging : bool;
  lastMousePos : Pos;
  mouseButton : option number;
  dimensions : option (number * number * number)
}.

(** ** The DOM the component touches *)

Record DOMRect : Type := { rect_width : number; rect_height : number }.

Record Canvas : Type := {
  canvas_width : N;
  canvas_height : N;
  context2d : bool;                 (* getContext("2d") is not null *)
  parentElement : option DOMRect    (* the parent's getBoundingClientRect() *)
}.

Record ImageData : Type := {
  image_data : list byte;
  image_width : N;
  image_height : N
}.

(** WebIDL conversion of a number to [unsigned long], as the setters of
    [canvas.width] and [canvas.height] apply it: NaN and infinities give 0,
    other values are truncated and reduced modulo 2^32. *)
Definition to_unsigned_long (v : number) : N :=
  match Prim2SF v with
  | S754_finite s m e =>
      let t := Z.shiftl (Z.pos m) e in
      Z.to_N ((if s then - t else t) mod 2 ^ 32)
  | _ => 0%N
  end.

(** [new ImageData(data, sw, sh)]: throws unless [data] holds exactly
    [4 * sw * sh] bytes and both sides are positive.  The DOMException it
    throws is an [Error]; its name stands for its message. *)
Definition new_ImageData (data : list byte) (sw sh : N) : Completion ImageData :=
  if (sw =? 0)%N || (sh =? 0)%N then Throws (ErrorObject "IndexSizeError")
  else if (N.of_nat (List.length data) =? 4 * sw * sh)%N
       then Return {| image_data := data; image_width := sw; image_height := sh |}
       else Throws (ErrorObject "InvalidStateError").

(** A selected file: name, size in bytes and what [file.arrayBuffer()]
    settles to. *)
Record File : Type := {
  file_name : string;
  file_size : N;
  arrayBuffer : Completion (list byte)
}.

(** ** Observable effects, in program order *)

Inductive Effect : Type :=
| Call (m : Method) (args : list JsValue)     (* a method call on the engine *)
| PutImageData (img : ImageData)              (* ctx.putImageData(img, 0, 0) *)
| CancelAnimationFrame (id : number)
| ConsoleError (label : string)
| ClearFileInput.                             (* event.target.value = "" *)

(** ** The component: state, refs and the effects performed so far *)

Record MouseEvent : Type := { clientX : number; clientY : number; button : number }.

Record WheelEvent : Type := { deltaY : number }.

Record World (E : Type) : Type := {
  viewer : option E;                    (* useState<VolumeViewerWasm | null> *)
  state : ViewerState;                  (* useState<ViewerState> *)
  canvasRef : option Canvas;            (* canvasRef.current *)
  animationFrameRef : option number;    (* animationFrameRef.current *)
  log : list Effect
}.

Section Component.

Context {E : Type} (wasm : VolumeViewerWasm E).

(** A handler body: it transforms the world and either returns or throws.
    What was done before a [throw] stays done.  A handler runs from start
    to end: state updates passed to [setState] are applied in the order
    they are queued, and an [await] continues with the value the promise
    settles to. *)
Definition Host (A : Type) : Type := World E -> World E * Completion A.

Definition ret {A} (a : A) : Host A := fun w => (w, Return a).

Definition throw {A} (t : Thrown) : Host A := fun w => (w, Throws t).

Definition bind {A B} (m : Host A) (k : A -> Host B) : Host B :=
  fun w =>
    match m w with
    | (w', Return a) => k a w'
    | (w', Throws t) => (w', Throws t)
    end.

(** [try { body } catch (error) { handler(error) }] *)
Definition try_catch {A} (body : Host A) (handler : Thrown -> Host A) : Host A :=
  fun w =>
    match body w with
    | (w', Return a) => (w', Return a)
    | (w', Throws t) => handler t w'
    end.

(** [try { body } finally { cleanup }] *)
Definition try_finally {A} (body : Host A) (cleanup : Host unit) : Host A :=
  fun w =>
    match body w with
    | (w', r) =>
        match cleanup w' with
        | (w'', Return _) => (w'', r)
        | (w'', Throws t) => (w'', Throws t)
        end
    end.

Declare Scope host_scope.
Delimit Scope host_scope with host.
Notation "v <- m ;; k" := (bind m (fun v => k))
  (at level 100, m at next level, right associativity) : host_scope.
Notation "m ;; k" := (bind m (fun _ => k))
  (at level 100, right associativity) : host_scope.
Local Open Scope host_scope.

Definition setState (f : ViewerState -> ViewerState) : Host unit :=
  fun w =>
    ({| viewer := viewer w; state := f (state w); canvasRef := canvasRef w;
        animationFrameRef := animationFrameRef w; log := log w |}, Return tt).

Definition emit (e : Effect) : Host unit :=
  fun w =>
    ({| viewer := viewer w; state := state w; canvasRef := canvasRef w;
        animationFrameRef := animationFrameRef w; log := log w ++ [e] |}, Return tt).

Definition set_canvas (c : Canvas) : Host unit :=
  fun w =>
    ({| viewer := viewer w; state := state w; canvasRef := Some c;
        animationFrameRef := animationFrameRef w; log := log w |}, Return tt).

(** A method call on [viewer]: the call is logged, the engine moves to its
    new state, and the method's completion is the call's.  Calling a method
    of [null] is a [TypeError]. *)
Definition call {A} (m : Method) (args : list JsValue)
    (method : E -> E * Completion A) : Host A :=
  fun w =>
    match viewer w with
    | None => (w, Throws (ErrorObject "TypeError"))
    | Some eng =>
        let '(eng', r) := method eng in
        ({| viewer := Some eng'; state := state w; canvasRef := canvasRef w;
            animationFrameRef := animationFrameRef w;
            log := log w ++ [Call m args] |}, r)
    end.

Definition lift {A} (c : Completion A) : Host A := fun w => (w, c).

(** [useState<ViewerState>({...})] *)
Definition initial_state : ViewerState :=
  {| isLoading := true; error := None; isDragging := false;
     lastMousePos := {| x := 0%float; y := 0%float |}; mouseButton := None;
     dimensions := None |}.

(** [renderFrame] (lines 35-59) *)
Definition renderFrame : Host unit :=
  fun w =>
    match viewer w, canvasRef w with
    | Some _, Some canvas =>
        try_catch
          ((if context2d canvas then ret tt
            else throw (ErrorObject "Failed to get 2D context")) ;;
           frameBuffer <- call m_render [] (render wasm) ;;
           imageData <- lift (new_ImageData frameBuffer
                                (canvas_width canvas) (canvas_height canvas)) ;;
           emit (PutImageData imageData))
          (fun error_ =>
             emit (ConsoleError "Render error:") ;;
             setState (fun prev =>
               {| isLoading := isLoading prev;
                  error := Some (message_or "Render failed" error_);
                  isDragging := isDragging prev;
                  lastMousePos := lastMousePos prev;
                  mouseButton := mouseButton prev;
                  dimensions := dimensions prev |}))
          w
    | _, _ => (w, Return tt)
    end.

(** [canvas.width = width; canvas.height = height;] *)
Definition size_canvas (canvas : Canvas) (width height : number) : Canvas :=
  {| canvas_width := to_unsigned_long width;
     canvas_height := to_unsigned_long height;
     context2d := context2d canvas;
     parentElement := parentElement canvas |}.

(** [handleResize] (lines 101-121) *)
Definition handleResize : Host unit :=
  fun w =>
    match viewer w, canvasRef w with
    | Some _, Some canvas =>
        match parentElement canvas with
        | None => (w, Return tt)
        | Some container =>
            try_catch
              (let width := rect_width container in
               let height := rect_height container in
               set_canvas (size_canvas canvas width height) ;;
               call m_resize [JNumber width; JNumber height]
                    (resize wasm width height) ;;
               renderFrame)
              (fun error_ =>
                 emit (ConsoleError "Resize error:") ;;
                 setState (fun prev =>
                   {| isLoading := isLoading prev;
                      error := Some (message_or "Resize failed" error_);
                      isDragging := isDragging prev;
                      lastMousePos := lastMousePos prev;
                      mouseButton := mouseButton prev;
                      dimensions := dimensions prev |}))
              w
        end
    | _, _ => (w, Return tt)
    end.

(** [handleMouseDown] (lines 131-140) *)
Definition handleMouseDown (e : MouseEvent) : Host unit :=
  setState (fun prev =>
    {| isLoading := isLoading prev;
       error := None;
       isDragging := true;
       lastMousePos := {| x := clientX e; y := clientY e |};
       mouseButton := Some (button e);
       dimensions := dimensions prev |}).

(** [state.mouseButton === n] *)
Definition button_is (b : option number) (n : number) : bool :=
  match b with
  | Some v => PrimFloat.eqb v n
  | None => false
  end.

(** [handleMouseMove] (lines 142-173) *)
Definition handleMouseMove (e : MouseEvent) : Host unit :=
  fun w =>
    if negb (isDragging (state w)) then (w, Return tt)
    else match viewer w with
    | None => (w, Return tt)
    | Some _ =>
        try_catch
          (let deltaX := (clientX e - x (lastMousePos (state w)))%float in
           let deltaY := (clientY e - y (lastMousePos (state w)))%float in
           (if button_is (mouseButton (state w)) 0%float then
              call m_orbit [JNumber (deltaX * 0.005); JNumber (deltaY * 0.005)]
                   (orbit wasm (deltaX * 0.005) (deltaY * 0.005))
            else if button_is (mouseButton (state w)) 2%float then
              call m_pan [JArray [JNumber (deltaX * 0.1); JNumber (deltaY * 0.1)]]
                   (pan wasm (deltaX * 0.1, deltaY * 0.1))
            else ret tt)%float ;;
           setState (fun prev =>
             {| isLoading := isLoading prev;
                error := None;
                isDragging := isDragging prev;
                lastMousePos := {| x := clientX e; y := clientY e |};
                mouseButton := mouseButton prev;
                dimensions := dimensions prev |}) ;;
           renderFrame)
          (fun error_ =>
             emit (ConsoleError "Mouse move error:") ;;
             setState (fun prev =>
               {| isLoading := isLoading prev;
                  error := Some (message_or "Mouse interaction failed" error_);
                  isDragging := false;
                  lastMousePos := lastMousePos prev;
                  mouseButton := mouseButton prev;
                  dimensions := dimensions prev |}))
          w
    end.

(** [handleMouseUp] (lines 175-181) *)
Definition handleMouseUp : Host unit :=
  setState (fun prev =>
    {| isLoading := isLoading prev;
       error := error prev;
       isDragging := false;
       lastMousePos := lastMousePos prev;
       mouseButton := None;
       dimensions := dimensions prev |}).

(** [e.deltaY > 0 ? 0.1 : -0.1] *)
Definition wheel_step (e : WheelEvent) : number :=
  if PrimFloat.ltb 0 (deltaY e) then 0.1%float else (-0.1)%float.

(** [handleWheel] (lines 183-198) *)
Definition handleWheel (e : WheelEvent) : Host unit :=
  fun w =>
    match viewer w with
    | None => (w, Return tt)
    | Some _ =>
        try_catch
          (let delta := wheel_step e in
           call m_zoom [JNumber delta] (zoom wasm delta) ;;
           renderFrame)
          (fun error_ =>
             emit (ConsoleError "Wheel error:") ;;
             setState (fun prev =>
               {| isLoading := isLoading prev;
                  error := Some (message_or "Zoom failed" error_);
                  isDragging := isDragging prev;
                  lastMousePos := lastMousePos prev;
                  mouseButton := mouseButton prev;
                  dimensions := dimensions prev |}))
          w
    end.

(** [const MAX_FILE_SIZE = 256 * 1024 * 1024;] *)
Definition MAX_FILE_SIZE : N := 256 * 1024 * 1024.

(** Truthiness of a number: [0], [-0] and [NaN] are falsy. *)
Definition truthy (n : number) : bool :=
  negb (PrimFloat.eqb n 0%float) && PrimFloat.eqb n n.

(** [dimensions as [number, number, number]], once the length is known
    to be 3. *)
Definition as_triple (l : list number) : option (number * number * number) :=
  match l with
  | [a; b; c] => Some (a, b, c)
  | _ => None
  end.

(** [!dimensions || dimensions.length !== 3] *)
Definition invalid_dimensions (d : option (list number)) : bool :=
  match d with
  | None => true
  | Some l => negb (List.length l =? 3)%nat
  end.

(** [!name.toLowerCase().endsWith(".tif") &&
     !name.toLowerCase().endsWith(".tiff")] *)
Definition not_tiff_name (name : string) : bool :=
  negb (endsWith (toLowerCase name) ".tif") &&
  negb (endsWith (toLowerCase name) ".tiff").

(** The [try] block of [handleFileUpload] (lines 210-266). *)
Definition upload_body (file : File) : Host unit :=
  setState (fun prev =>
    {| isLoading := true;
       error := None;
       isDragging := isDragging prev;
       lastMousePos := lastMousePos prev;
       mouseButton := mouseButton prev;
       dimensions := None |}) ;;
  (if not_tiff_name (file_name file)
   then throw (ErrorObject "Please select a TIFF file") else ret tt) ;;
  (if (MAX_FILE_SIZE <? file_size file)%N
   then throw (ErrorObject "File size too large (max 256MB)") else ret tt) ;;
  (fun w =>
     match animationFrameRef w with
     | Some id => if truthy id then emit (CancelAnimationFrame id) w
                  else (w, Return tt)
     | None => (w, Return tt)
     end) ;;
  uint8Array <- lift (arrayBuffer file) ;;
  dims <- call m_load_volume [JUint8Array uint8Array]
               (load_volume wasm uint8Array) ;;
  (if invalid_dimensions dims
   then throw (ErrorObject "Invalid volume dimensions received") else ret tt) ;;
  setState (fun prev =>
    {| isLoading := false;
       error := None;
       isDragging := isDragging prev;
       lastMousePos := lastMousePos prev;
       mouseButton := mouseButton prev;
       dimensions := match dims with Some l => as_triple l | None => None end |}) ;;
  (fun w =>
     match canvasRef w with
     | Some canvas =>
         match parentElement canvas with
         | Some container =>
             (let width := rect_width container in
              let height := rect_height container in
              set_canvas (size_canvas canvas width height) ;;
              call m_resize [JNumber width; JNumber height]
                   (resize wasm width height)) w
         | None => (w, Return tt)
         end
     | None => (w, Return tt)
     end) ;;
  renderFrame.

(** [handleFileUpload] (lines 204-279); [selected] is
    [event.target.files?.[0]]. *)
Definition handleFileUpload (selected : option File) : Host unit :=
  fun w =>
    match selected, viewer w with
    | Some file, Some _ =>
        try_finally
          (try_catch
             (upload_body file)
             (fun error_ =>
                emit (ConsoleError "Error loading file:") ;;
                setState (fun prev =>
                  {| isLoading := false;
                     error := Some (message_or "Failed to load image" error_);
                     isDragging := isDragging prev;
                     lastMousePos := lastMousePos prev;
                     mouseButton := mouseButton prev;
                     dimensions := None |})))
          (emit ClearFileInput)
          w
    | _, _ => (w, Return tt)
    end.

(** What a handler added to the log. *)
Definition new_effects (before after : World E) : list Effect :=
  skipn (List.length (log before)) (log after).

End Component.

(** The effect of the "start fresh render loop" step (lines 232-235). *)
Definition cancel_effects {E} (w : World E) : list Effect :=
  match animationFrameRef w with
  | Some id => if truthy id then [CancelAnimationFrame id] else []
  | None => []
  end.

(** ** Reading the log *)

Definition Method_eqb (a b : Method) : bool :=
  match a, b with
  | m_load_volume, m_load_volume | m_render, m_render | m_orbit, m_orbit
  | m_zoom, m_zoom | m_pan, m_pan | m_resize, m_resize => true
  | _, _ => false
  end.

(** The argument lists of the calls to method [m], in program order. *)
Fixpoint calls_of (m : Method) (evs : list Effect) : list (list JsValue) :=
  match evs with
  | [] => []
  | Call m' args :: rest =>
      if Method_eqb m m' then args :: calls_of m rest else calls_of m rest
  | _ :: rest => calls_of m rest
  end.

(** An effect is well typed when, if it is a call, its arguments have the
    shapes the interface declares for the method. *)
Definition well_typed (ev : Effect) : bool :=
  match ev with
  | Call m args => args_match args (params (VolumeViewerWasm_decl m))
  | _ => true
  end.

(** The frames put on the drawing surface, in program order. *)
Fixpoint frames_of (evs : list Effect) : list ImageData :=
  match evs with
  | [] => []
  | PutImageData img :: rest => img :: frames_of rest
  | _ :: rest => frames_of rest
  end.

(** A handler body that only appends well-typed effects to the log. *)
Definition typed {E A} (m : World E -> World E * Completion A) : Prop :=
  forall w, exists evs,
      log (fst (m w)) = log w ++ evs /\ forallb well_typed evs = true.

(** ** Start-up and tear-down (lines 61-98) *)

(** The glue module once imported: [wasmModule.default(url)], which
    instantiates the WebAssembly code, and the engine's constructor
    [new wasmModule.VolumeViewer(width, height)]. *)
Record WasmModule (E : Type) : Type := {
  module_default : Completion unit;
  module_VolumeViewer : N -> N -> Completion E
}.

(** [setViewer(viewerInstance)] *)
Definition setViewer {E} (viewerInstance : E) : Host (E := E) unit :=
  fun w =>
    ({| viewer := Some viewerInstance; state := state w; canvasRef := canvasRef w;
        animationFrameRef := animationFrameRef w; log := log w |}, Return tt).

(** [initViewer] (lines 62-89); [imported] is what the dynamic [import]
    of the glue module settles to. *)
Definition initViewer {E} (imported : Completion (WasmModule E)) : Host (E := E) unit :=
  try_catch
    (bind (lift imported) (fun wasmModule =>
     bind (lift (module_default wasmModule)) (fun _ =>
     bind (fun w =>
             match canvasRef w with
             | Some canvas => (w, Return canvas)
             | None => (w, Throws (ErrorObject "Canvas not found"))
             end) (fun canvas =>
     bind (lift (module_VolumeViewer wasmModule
                   (canvas_width canvas) (canvas_height canvas)))
          (fun viewerInstance =>
     bind (setViewer viewerInstance) (fun _ =>
     setState (fun prev =>
       {| isLoading := false;
          error := error prev;
          isDragging := isDragging prev;
          lastMousePos := lastMousePos prev;
          mouseButton := mouseButton prev;
          dimensions := dimensions prev |})))))))
    (fun error_ =>
       bind (emit (ConsoleError "Initialization error:")) (fun _ =>
       setState (fun prev =>
         {| isLoading := false;
            error := Some (message_or "Failed to initialize viewer" error_);
            isDragging := isDragging prev;
            lastMousePos := lastMousePos prev;
            mouseButton := mouseButton prev;
            dimensions := dimensions prev |}))).

(** The clean-up of the first effect (lines 93-97). *)
Definition unmount {E} : Host (E := E) unit :=
  fun w =>
    match animationFrameRef w with
    | Some id => if truthy id then emit (CancelAnimationFrame id) w
                 else (w, Return tt)
    | None => (w, Return tt)
    end.

(** The component as React first renders it: no engine, the initial
    state, [useRef<number>()] still undefined, and the canvas (if it is
    in the document) with the size its attributes give it. *)
Definition mounted {E} (canvas : option Canvas) : World E :=
  {| viewer := None; state := initial_state; canvasRef := canvas;
     animationFrameRef := None; log := [] |}.

(** [<canvas width={800} height={600} ... />] inside a container. *)
Definition jsx_canvas (has_context : bool) (container : option DOMRect) : Canvas :=
  {| canvas_width := 800; canvas_height := 600;
     context2d := has_context; parentElement := container |}.

(** ** What is on screen (lines 281-333) *)

Record View : Type := {
  input_disabled : bool;                                   (* disabled={state.isLoading} *)
  dimensions_shown : option (number * number * number);    (* state.dimensions && ... *)
  loading_overlay : bool;                                  (* state.isLoading && ... *)
  error_banner : option string                             (* state.error && ... *)
}.

(** A string is truthy unless it is empty. *)
Definition truthy_string (s : string) : bool :=
  match s with
  | EmptyString => false
  | String _ _ => true
  end.

Definition view (s : ViewerState) : View :=
  {| input_disabled := isLoading s;
     dimensions_shown := dimensions s;
     loading_overlay := isLoading s;
     error_banner :=
       match error s with
       | Some msg => if truthy_string msg then Some msg else None
       | None => None
       end |}.

(** ** Events (lines 287-293 and 319-330, and the window listener of
    line 123) *)

Inductive UIEvent : Type :=
| MouseDown (e : MouseEvent)
| MouseMove (e : MouseEvent)
| MouseUp
| MouseLeave
| Wheel (e : WheelEvent)
| ContextMenu
| WindowResize
| FileChange (selected : option File).

(** [handleContextMenu] (lines 200-202) only prevents the default menu. *)
Definition handleContextMenu {E} : Host (E := E) unit := ret tt.

(** The handler the markup attaches to each event.  The file input is
    disabled while [state.isLoading] holds, so the browser sends no
    [FileChange] then; nothing below relies on it. *)
Definition dispatch {E} (wasm : VolumeViewerWasm E) (ev : UIEvent) : Host (E := E) unit :=
  match ev with
  | MouseDown e => handleMouseDown e
  | MouseMove e => handleMouseMove wasm e
  | MouseUp => handleMouseUp
  | MouseLeave => handleMouseUp
  | Wheel e => handleWheel wasm e
  | ContextMenu => handleContextMenu
  | WindowResize => handleResize wasm
  | FileChange selected => handleFileUpload wasm selected
  end.

(** The events handled one after the other, each handler running to its
    end before the next event is taken up (an upload is not interleaved
    with other events while it waits for the file or for the engine). *)
Definition run_events {E} (wasm : VolumeViewerWasm E) (evs : list UIEvent)
    (w : World E) : World E :=
  fold_left (fun w ev => fst (dispatch wasm ev w)) evs w.

(** ** What each handler may add to the log *)

Definition render_effect (ev : Effect) : Prop :=
  ev = Call m_render [] \/
  (exists img, ev = PutImageData img) \/
  ev = ConsoleError "Render error:".

Definition resize_effect (ev : Effect) : Prop :=
  (exists width height, ev = Call m_resize [JNumber width; JNumber height]) \/
  ev = ConsoleError "Resize error:" \/
  render_effect ev.

Definition move_effect (ev : Effect) : Prop :=
  (exists a b, ev = Call m_orbit [JNumber a; JNumber b]) \/
  (exists a b, ev = Call m_pan [JArray [JNumber a; JNumber b]]) \/
  ev = ConsoleError "Mouse move error:" \/
  render_effect ev.

Definition wheel_effect (ev : Effect) : Prop :=
  ev = Call m_zoom [JNumber 0.1%float] \/
  ev = Call m_zoom [JNumber (-0.1)%float] \/
  ev = ConsoleError "Wheel error:" \/
  render_effect ev.

Definition upload_effect (ev : Effect) : Prop :=
  (exists data, ev = Call m_load_volume [JUint8Array data]) \/
  (exists width height, ev = Call m_resize [JNumber width; JNumber height]) \/
  ev = ConsoleError "Error loading file:" \/
  ev = ClearFileInput \/
  render_effect ev.

Definition event_effect (ev : UIEvent) : Effect -> Prop :=
  match ev with
  | MouseDown _ | MouseUp | MouseLeave | ContextMenu => fun _ => False
  | MouseMove _ => move_effect
  | Wheel _ => wheel_effect
  | WindowResize => resize_effect
  | FileChange None => fun _ => False
  | FileChange (Some _) => upload_effect
  end.

(** A handler body [m] keeps the relation [R] between the world before
    and the world after. *)
Definition respects {E A} (R : World E -> World E -> Prop)
    (m : World E -> World E * Completion A) : Prop :=
  forall w, R w (fst (m w)).

(** The world [b] is the world [a] with effects added to its log, each of
    them in [P]. *)
Definition appends {E} (P : Effect -> Prop) (a b : World E) : Prop :=
  exists effs, log b = log a ++ effs /\ Forall P effs.


(** * The conversion script (verify_image.sh, from line 100 on)

    The second script of the file converts an image to a TIFF file the
    viewer can load.  A run of a script is followed through its standard
    output, the exit status of the last command ([$?]) and whether the
    script has exited.  The programs the script calls are parameters. *)

Module ConvertScript.

Record Run : Type := {
  stdout : list string;     (* the lines written so far *)
  status : N;               (* [$?] *)
  exited : bool
}.

Definition start : Run := {| stdout := []; status := 0; exited := false |}.

(** A command runs unless the script has exited. *)
Definition Sh : Type := Run -> Run.

Definition running (c : Sh) : Sh := fun r => if exited r then r else c r.

(** [echo line]: writes the line; its exit status is 0. *)
Definition echo (line : string) : Sh :=
  running (fun r => {| stdout := stdout r ++ [line]; status := 0; exited := false |}).

(** [exit n] *)
Definition exit (n : N) : Sh :=
  running (fun r => {| stdout := stdout r; status := n; exited := true |}).

(** A command that writes [lines] and ends with the exit status [st]. *)
Definition command (lines : list string) (st : N) : Sh :=
  running (fun r => {| stdout := stdout r ++ lines; status := st; exited := false |}).

(** [[ condition ]]: exit status 0 when the condition holds, 1 otherwise. *)
Definition test (condition : bool) : Sh := command [] (if condition then 0 else 1)%N.

(** [[ $? -eq 0 ]] *)
Definition test_last_status : Sh := fun r => test (status r =? 0)%N r.

(** [a; b] *)
Definition seq (a b : Sh) : Sh := fun r => b (a r).

(** [if condition; then body; fi] and [if condition; then body; else
    other; fi]: the exit status is that of the last command executed in
    the branch taken, or zero if no condition tested true. *)
Definition if_then (condition body : Sh) (other : option Sh) : Sh :=
  running (fun r =>
    let r1 := condition r in
    if exited r1 then r1
    else if (status r1 =? 0)%N then body r1
    else match other with
         | Some other => other r1
         | None => {| stdout := stdout r1; status := 0; exited := false |}
         end).

Declare Scope sh_scope.
Delimit Scope sh_scope with sh.
Notation "a ;; b" := (seq a b) (at level 100, right associativity) : sh_scope.

(** The programs and files the script depends on. *)
Record Tools : Type := {
  magick_installed : bool;                 (* command -v magick *)
  regular_file : string -> bool;           (* [ -f path ] *)
  basename : string -> string;             (* basename -- path *)
  convert : string -> string -> N;         (* exit status of the conversion *)
  channels_of : string -> string * N;      (* magick identify -format "%[channels]":
                                              its output and exit status *)
  report_of : string -> list string        (* the lines of magick identify -verbose
                                              that grep selects *)
}.

Fixpoint has_dot (s : string) : bool :=
  match s with
  | EmptyString => false
  | String c rest => Ascii.eqb c "." || has_dot rest
  end.

(** [${s%.*}]: [s] without its shortest suffix that begins with a dot;
    [s] itself when there is no dot in it. *)
Fixpoint remove_extension (s : string) : string :=
  match s with
  | EmptyString => EmptyString
  | String c rest =>
      if Ascii.eqb c "." && negb (has_dot rest) then EmptyString
      else String c (remove_extension rest)
  end.

(** Lines 111-116. *)
Definition usage (script_name : string) : Sh :=
  (echo ("Usage: " ++ script_name ++ " input_file [output_file]")%string ;;
   echo "Converts any image to a volume-viewer compatible TIFF format" ;;
   echo "If output_file is not specified, it will use input_file_converted.tiff" ;;
   exit 1)%sh.

(** Lines 133-135. *)
Definition default_output (t : Tools) (input_file : string) : string :=
  let filename := basename t input_file in
  let name := remove_extension filename in
  (name ++ "_converted.tiff")%string.

(** Lines 130-136. *)
Definition output_name (t : Tools) (args : list string) : string :=
  if (2 <=? List.length args)%nat then nth 1 args EmptyString
  else default_output t (nth 0 args EmptyString).

(** The script (lines 100-169), run as [script_name] with the arguments
    [args]. *)
Definition script (t : Tools) (script_name : string) (args : list string) : Sh :=
  let input_file := nth 0 args EmptyString in
  let output_file := output_name t args in
  let channels := fst (channels_of t output_file) in
  (if_then (test (negb (magick_installed t)))
     (echo "Error: ImageMagick is not installed" ;;
      echo "Please install it using:" ;;
      echo "  macOS:     brew install imagemagick" ;;
      echo "  Ubuntu:    sudo apt-get install imagemagick" ;;
      exit 1) None ;;
   if_then (test (List.length args =? 0)%nat) (usage script_name) None ;;
   if_then (test (negb (regular_file t input_file)))
     (echo ("Error: Input file '" ++ input_file ++ "' does not exist")%string ;;
      exit 1) None ;;
   echo ("Converting " ++ input_file ++ " to " ++ output_file ++ "...")%string ;;
   command [] (convert t input_file output_file) ;;
   command [] (snd (channels_of t output_file)) ;;
   if_then (test (negb (String.eqb channels "1") && negb (String.eqb channels "gray")))
     (echo "Warning: Conversion may not have produced a proper single-channel image" ;;
      echo ("Channels: " ++ channels)%string) None ;;
   if_then test_last_status
     (echo "Conversion successful!" ;;
      echo ("Output saved as: " ++ output_file)%string ;;
      command [EmptyString; "File information:"%string] 0 ;;
      command (report_of t output_file)
              (match report_of t output_file with [] => 1 | _ => 0 end))
     (Some (echo "Error: Conversion failed" ;; exit 1)))%sh.

End ConvertScript.

(** * The engine behind the interface

    The engine itself (the Rust crate: [lib.rs], [camera.rs],
    [renderer.rs], [tiff_loader.rs]) is not among the available source
    files; only the interface above and its callers are.  This module models it from the
    specification.  What the specification leaves to a library or to
    floating-point geometry is a field of [Config]. *)

Module Engine.

(** Modelled from the spec: the error kinds of the Slice Decoder
    (section 7); the decoder's code is missing. *)
Inductive DecodeError : Type :=
| UnsupportedFormat
| InconsistentDimensions
| EmptyVolume
| CorruptInput.

(** Modelled from the spec: the Volume of section 3 (the Volume Store's
    code is missing): positive dimensions and one normalized intensity
    per voxel, slice after slice. *)
Record Volume : Type := {
  width : positive;
  height : positive;
  depth : positive;
  voxels : list Q
}.

(** Modelled from the spec: the Volume invariant of section 3, "buffer
    length == width x height x depth". *)
Definition complete (v : Volume) : Prop :=
  List.length (voxels v) = Pos.to_nat (width v * height v * depth v).

(** Modelled from the spec: the per-page orientation metadata of
    section 4.1, "row/column flip or transpose". *)
Inductive Orientation : Type := RowFlip | ColumnFlip | Transpose.

(** Modelled from the spec: what the decoder parses of one page
    (section 4.1): width, height, bit depth, channel count, orientation
    metadata if present, and the raw samples in row-major order. *)
Record Page : Type := {
  page_width : positive;
  page_height : positive;
  bits_per_sample : N;
  samples_per_pixel : N;
  orientation : option Orientation;
  samples : list N
}.

(** Modelled from the spec: the Camera of section 3. *)
Record Camera : Type := {
  theta : Q;
  phi : Q;
  distance : Q;
  pan_x : Q;
  pan_y : Q;
  viewport_width : nat;
  viewport_height : nat
}.

(** Modelled from the spec: one Frame Buffer pixel, "4 channels
    (R,G,B,A) per pixel, values in [0,255]" (section 3). *)
Record Pixel : Type := { red : byte; green : byte; blue : byte; alpha : byte }.

(** Modelled from the spec: the two zoom laws section 4.3 allows,
    [distance *= (1 + delta)] or [distance += delta]. *)
Inductive ZoomLaw : Type := Scale | Shift.

(** Modelled from the spec: what the specification names without fixing
    a value or an algorithm: the container parser ("parses page count,
    per-page width/height, and per-sample bit depth"), the ray caster of
    section 4.4 for one pixel of a loaded volume, the background pixel,
    and the Camera's clamping bounds and zoom law. *)
Record Config : Type := {
  read_container : list byte -> option (list Page);
  cast_ray : Volume -> Camera -> nat -> nat -> Pixel;
  background : Pixel;
  min_distance : Q;
  max_distance : Q;
  max_phi : Q;
  full_turn : Q;
  zoom_law : ZoomLaw
}.

(** ** Slice Decoder *)

(** Modelled from the spec: "normalizes each sample to [0.0, 1.0] by
    dividing by the maximum representable value for the detected bit
    depth (255 or 65535)"; any other depth is unsupported. *)
Definition max_sample (bits : N) : option Q :=
  if (bits =? 8)%N then Some (255 # 1)%Q
  else if (bits =? 16)%N then Some (65535 # 1)%Q
  else None.

(** Modelled from the spec: one sample divided by the maximum of its bit
    depth (section 4.1); the decoder's code is missing. *)
Definition normalize (top : Q) (sample : N) : Q :=
  (inject_Z (Z.of_N sample) / top)%Q.

(** Modelled from the spec: the orientation correction of section 4.1.
    The corrected slice is read off the source slice index by index;
    a transposed page swaps its width and height. *)
Definition reorient (o : option Orientation) (w h : positive) (slice : list Q)
  : positive * positive * list Q :=
  let wn := Pos.to_nat w in
  let hn := Pos.to_nat h in
  let pick (source : nat -> nat) :=
    map (fun i => nth (source i) slice 0%Q) (seq 0 (wn * hn)) in
  match o with
  | None => (w, h, slice)
  | Some RowFlip =>
      (w, h, pick (fun i => (hn - 1 - i / wn) * wn + i mod wn)%nat)
  | Some ColumnFlip =>
      (w, h, pick (fun i => (i / wn) * wn + (wn - 1 - i mod wn))%nat)
  | Some Transpose =>
      (h, w, pick (fun i => (i mod hn) * wn + i / hn)%nat)
  end.

(** Modelled from the spec: decoding one page (section 4.1): only
    single-channel 8- or 16-bit pages are supported; a page whose sample
    count is not width x height does not parse; the samples are
    normalized and the orientation corrected. *)
Definition decode_page (p : Page) : DecodeError + (positive * positive * list Q) :=
  if negb (samples_per_pixel p =? 1)%N then inl UnsupportedFormat
  else match max_sample (bits_per_sample p) with
       | None => inl UnsupportedFormat
       | Some top =>
           if negb (List.length (samples p)
                    =? Pos.to_nat (page_width p * page_height p))%nat
           then inl CorruptInput
           else inr (reorient (orientation p) (page_width p) (page_height p)
                              (map (normalize top) (samples p)))
       end.

(** Modelled from the spec: two pages agree on their orientation
    metadata (section 9, open question); the decoder's code is missing. *)
Definition same_orientation (a b : option Orientation) : bool :=
  match a, b with
  | None, None => true
  | Some RowFlip, Some RowFlip => true
  | Some ColumnFlip, Some ColumnFlip => true
  | Some Transpose, Some Transpose => true
  | _, _ => false
  end.

(** Modelled from the spec: "streams page-by-page": each further page is
    decoded, compared with the first page and appended to the slices
    gathered so far; the Volume exists only once every page is in.  A
    page of another size, or (section 9, open question) of another
    orientation than the first, is an [InconsistentDimensions] failure. *)
Fixpoint stack_pages (o : option Orientation) (w h d : positive)
    (gathered : list Q) (pages : list Page) : DecodeError + Volume :=
  match pages with
  | [] => inr {| width := w; height := h; depth := d; voxels := gathered |}
  | p :: rest =>
      match decode_page p with
      | inl e => inl e
      | inr (pw, ph, slice) =>
          if ((pw =? w) && (ph =? h))%positive && same_orientation (orientation p) o
          then stack_pages o w h (Pos.succ d) (gathered ++ slice) rest
          else inl InconsistentDimensions
      end
  end.

(** Modelled from the spec: the Slice Decoder's contract (section 4.1). *)
Definition decode (cfg : Config) (bytes : list byte) : DecodeError + Volume :=
  match read_container cfg bytes with
  | None => inl CorruptInput
  | Some [] => inl EmptyVolume
  | Some (p :: rest) =>
      match decode_page p with
      | inl e => inl e
      | inr (w, h, slice) => stack_pages (orientation p) w h 1 slice rest
      end
  end.

(** ** Camera *)

(** Modelled from the spec: clamping to a lower and an upper bound
    (section 4.3); the Camera's code is missing. *)
Definition clamp (lo hi v : Q) : Q := Qmax lo (Qmin hi v).

(** Modelled from the spec: "wrapped modulo full turn" (section 4.3);
    the Camera's code is missing. *)
Definition wrap (turn v : Q) : Q := (v - turn * inject_Z (Qfloor (v / turn)))%Q.

(** Modelled from the spec: [orbit] of section 4.3: theta wraps modulo a
    full turn, phi is clamped inside the poles. *)
Definition camera_orbit (cfg : Config) (deltaTheta deltaPhi : Q) (c : Camera) : Camera :=
  {| theta := wrap (full_turn cfg) (theta c + deltaTheta);
     phi := clamp (- max_phi cfg) (max_phi cfg) (phi c + deltaPhi);
     distance := distance c;
     pan_x := pan_x c; pan_y := pan_y c;
     viewport_width := viewport_width c; viewport_height := viewport_height c |}.

(** Modelled from the spec: [zoom] of section 4.3: either law, then
    "clamped to a minimum positive distance and a maximum bound". *)
Definition camera_zoom (cfg : Config) (delta : Q) (c : Camera) : Camera :=
  {| theta := theta c;
     phi := phi c;
     distance :=
       clamp (min_distance cfg) (max_distance cfg)
             (match zoom_law cfg with
              | Scale => distance c * (1 + delta)
              | Shift => distance c + delta
              end)%Q;
     pan_x := pan_x c; pan_y := pan_y c;
     viewport_width := viewport_width c; viewport_height := viewport_height c |}.

(** Modelled from the spec: [pan] of section 4.3: the offset accumulates
    along the camera's right and up axes, "scaled by current distance". *)
Definition camera_pan (deltaX deltaY : Q) (c : Camera) : Camera :=
  {| theta := theta c;
     phi := phi c;
     distance := distance c;
     pan_x := (pan_x c + deltaX * distance c)%Q;
     pan_y := (pan_y c + deltaY * distance c)%Q;
     viewport_width := viewport_width c; viewport_height := viewport_height c |}.

(** Modelled from the spec: [resize] of section 4.3: "updates viewport
    dimensions; does not alter orbit/zoom/pan state". *)
Definition camera_resize (w h : nat) (c : Camera) : Camera :=
  {| theta := theta c;
     phi := phi c;
     distance := distance c;
     pan_x := pan_x c; pan_y := pan_y c;
     viewport_width := w; viewport_height := h |}.

(** ** Engine Facade *)

(** Modelled from the spec: the Engine Facade's state (section 2): one
    Volume Store, one Camera and the Renderer's Frame Buffer. *)
Record State : Type := {
  volume : option Volume;
  camera : Camera;
  frame_buffer : list byte
}.

(** Modelled from the spec: [load_volume] of section 4.5: "runs the
    Slice Decoder, replaces the Volume Store on success, propagates
    decode failures unchanged; does not itself render". *)
Definition load_volume (cfg : Config) (bytes : list byte) (s : State)
  : State * (DecodeError + list positive) :=
  match decode cfg bytes with
  | inl e => (s, inl e)
  | inr v =>
      ({| volume := Some v; camera := camera s; frame_buffer := frame_buffer s |},
       inr [width v; height v; depth v])
  end.

(** Modelled from the spec: [orbit] of section 4.5: "forward to Camera;
    no return value"; the facade's code is missing. *)
Definition orbit (cfg : Config) (deltaTheta deltaPhi : Q) (s : State) : State :=
  {| volume := volume s;
     camera := camera_orbit cfg deltaTheta deltaPhi (camera s);
     frame_buffer := frame_buffer s |}.

(** Modelled from the spec: [zoom] of section 4.5, forwarding to the
    Camera; the facade's code is missing. *)
Definition zoom (cfg : Config) (delta : Q) (s : State) : State :=
  {| volume := volume s;
     camera := camera_zoom cfg delta (camera s);
     frame_buffer := frame_buffer s |}.

(** Modelled from the spec: [pan] of section 4.5, forwarding to the
    Camera; the facade's code is missing.  The argument is the pair the
    interface declares. *)
Definition pan (delta : Q * Q) (s : State) : State :=
  {| volume := volume s;
     camera := camera_pan (fst delta) (snd delta) (camera s);
     frame_buffer := frame_buffer s |}.

(** Modelled from the spec: [resize] of section 4.5: "forwards to
    Camera/Renderer; invalidates and reallocates the Frame Buffer". *)
Definition resize (w h : nat) (s : State) : State :=
  {| volume := volume s;
     camera := camera_resize w h (camera s);
     frame_buffer := repeat Byte.x00 (4 * w * h) |}.

(** Modelled from the spec: writing [bytes] into the Frame Buffer at
    offset [at_], in place (section 3); the renderer's code is missing.
    The buffer keeps its length: a write past its end is cut off. *)
Fixpoint store (buffer : list byte) (at_ : nat) (bytes : list byte) : list byte :=
  match buffer with
  | [] => []
  | b :: buffer' =>
      match at_ with
      | S at' => b :: store buffer' at' bytes
      | O =>
          match bytes with
          | [] => buffer
          | v :: bytes' => v :: store buffer' O bytes'
          end
      end
  end.

(** Modelled from the spec: the channel order R,G,B,A of section 6; the
    renderer's code is missing. *)
Definition pixel_bytes (p : Pixel) : list byte := [red p; green p; blue p; alpha p].

(** Modelled from the spec: the colour of the pixel in column [px] of
    row [py] (section 4.4): without a Volume it is background. *)
Definition shade (cfg : Config) (s : State) (px py : nat) : Pixel :=
  match volume s with
  | None => background cfg
  | Some v => cast_ray cfg v (camera s) px py
  end.

(** Modelled from the spec: populating the Frame Buffer (section 4.4):
    pixel [i] takes the four bytes at offset [4 * i]; the renderer's code
    is missing. *)
Definition paint (colour : nat -> list byte) (pixels : list nat) (buffer : list byte)
  : list byte :=
  fold_left (fun buffer i => store buffer (4 * i) (colour i)) pixels buffer.

(** Modelled from the spec: [render] of section 4.5 and the Frame Buffer
    of section 3: every pixel of the viewport is written in place, row
    after row from the top-left one, and the buffer is returned. *)
Definition render (cfg : Config) (s : State) : State * list byte :=
  let w := viewport_width (camera s) in
  let h := viewport_height (camera s) in
  let filled :=
    paint (fun i => pixel_bytes (shade cfg s (i mod w) (i / w)))
          (seq 0 (w * h)) (frame_buffer s) in
  ({| volume := volume s; camera := camera s; frame_buffer := filled |}, filled).

(** Modelled from the spec: the Frame Buffer is "a pixel grid sized to
    the current viewport", four bytes per pixel (section 3). *)
Definition sized (s : State) : Prop :=
  List.length (frame_buffer s)
  = (4 * viewport_width (camera s) * viewport_height (camera s))%nat.

(** Modelled from the spec: the Camera invariant of section 3, with the
    minimum distance of [zoom] as its bound. *)
Definition far_enough (cfg : Config) (s : State) : Prop :=
  (min_distance cfg <= distance (camera s))%Q.

(** Modelled from the spec: the operations the facade exposes (section
    4.5), and a run of them one after the other (section 5); the
    facade's code is missing. *)
Inductive Op : Type :=
| OpLoad (bytes : list byte)
| OpRender
| OpOrbit (deltaTheta deltaPhi : Q)
| OpZoom (delta : Q)
| OpPan (deltaX deltaY : Q)
| OpResize (w h : nat).

Definition step (cfg : Config) (s : State) (op : Op) : State :=
  match op with
  | OpLoad bytes => fst (load_volume cfg bytes s)
  | OpRender => fst (render cfg s)
  | OpOrbit a b => orbit cfg a b s
  | OpZoom d => zoom cfg d s
  | OpPan dx dy => pan (dx, dy) s
  | OpResize w h => resize w h s
  end.

Definition run (cfg : Config) (ops : list Op) (s : State) : State :=
  fold_left (step cfg) ops s.

Definition is_resize (op : Op) : bool :=
  match op with
  | OpResize _ _ => true
  | _ => false
  end.

End Engine.

(** * Worked examples

    Small engines, worlds and files on which the handlers can be run. *)

(** An engine whose methods all return at once: it keeps no state, loads
    every input as a 1 x 1 x 1 volume and renders a 2 x 2 black frame. *)
Definition still_engine : VolumeViewerWasm unit :=
  {| load_volume := fun _ e => (e, Return (Some [1; 1; 1]%float));
     render := fun e => (e, Return (repeat Byte.x00 16));
     orbit := fun _ _ e => (e, Return tt);
     zoom := fun _ e => (e, Return tt);
     pan := fun _ e => (e, Return tt);
     resize := fun _ _ e => (e, Return tt) |}.

Definition small_canvas : Canvas :=
  {| canvas_width := 2; canvas_height := 2; context2d := true;
     parentElement := Some {| rect_width := 2%float; rect_height := 2%float |} |}.

(** The component once [initViewer] has finished. *)
Definition ready_world : World unit :=
  {| viewer := Some tt;
     state := {| isLoading := false; error := None; isDragging := false;
                 lastMousePos := {| x := 0%float; y := 0%float |};
                 mouseButton := None; dimensions := None |};
     canvasRef := Some small_canvas;
     animationFrameRef := None;
     log := [] |}.


(** An engine that answers by table, for worked examples of the upload
    handler: it rejects the empty input, returns a malformed dimension
    list for the one-byte input [02], and loads anything else as a
    2 x 2 x 2 volume.  Its state is the last input it loaded. *)
Definition table_engine : VolumeViewerWasm (list byte) :=
  {| load_volume := fun data e =>
       match data with
       | [] => (e, Throws OtherValue)
       | [Byte.x02] => (e, Return (Some [2; 2]%float))
       | _ => (data, Return (Some [2; 2; 2]%float))
       end;
     render := fun e => (e, Return (repeat Byte.x00 16));
     orbit := fun _ _ e => (e, Return tt);
     zoom := fun _ e => (e, Return tt);
     pan := fun _ e => (e, Return tt);
     resize := fun _ _ e => (e, Return tt) |}.

(** The component showing a volume loaded earlier from the input [01]. *)
Definition loaded_world : World (list byte) :=
  {| viewer := Some [Byte.x01];
     state := {| isLoading := false; error := None; isDragging := false;
                 lastMousePos := {| x := 0%float; y := 0%float |};
                 mouseButton := None;
                 dimensions := Some (2, 2, 2)%float |};
     canvasRef := Some small_canvas;
     animationFrameRef := None;
     log := [] |}.

Definition tiff_file (name : string) (size : N) (content : list byte) : File :=
  {| file_name := name; file_size := size; arrayBuffer := Return content |}.

(** A primary-button drag in progress: the button went down at (10, 20). *)
Definition primary_drag : World unit :=
  fst (handleMouseDown
         {| clientX := 10%float; clientY := 20%float; button := 0%float |} ready_world).

(** A secondary-button drag in progress: the button went down at (0, 0). *)
Definition secondary_drag : World unit :=
  fst (handleMouseDown
         {| clientX := 0%float; clientY := 0%float; button := 2%float |} ready_world).

Definition black_frame : ImageData :=
  {| image_data := repeat Byte.x00 16; image_width := 2; image_height := 2 |}.

(** A middle-button drag in progress. *)
Definition middle_drag : World unit :=
  fst (handleMouseDown
         {| clientX := 0%float; clientY := 0%float; button := 1%float |} ready_world).

(** ** Worked examples of the engine model *)

Module EngineExamples.
Import Engine.

Definition grey_page (w h : positive) (bits channels : N) (values : list N) : Page :=
  {| page_width := w; page_height := h; bits_per_sample := bits;
     samples_per_pixel := channels; orientation := None; samples := values |}.

(** A table standing for a container parser: four well-formed files and
    nothing else. *)
Definition example_reader (bytes : list byte) : option (list Page) :=
  match bytes with
  | [Byte.x01] =>      (* two 2 x 2 8-bit pages: all 0, then all 255 *)
      Some [grey_page 2 2 8 1 [0; 0; 0; 0]%N; grey_page 2 2 8 1 [255; 255; 255; 255]%N]
  | [Byte.x02] =>      (* one 3-channel page *)
      Some [grey_page 1 1 8 3 [7; 7; 7]%N]
  | [Byte.x03] =>      (* pages of different widths *)
      Some [grey_page 2 1 8 1 [1; 2]%N; grey_page 3 1 8 1 [1; 2; 3]%N]
  | [Byte.x04] =>      (* a container without pages *)
      Some []
  | [Byte.x05] =>      (* one 32-bit page *)
      Some [grey_page 1 1 32 1 [7]%N]
  | _ => None
  end.

Definition white : Pixel :=
  {| red := Byte.xff; green := Byte.xff; blue := Byte.xff; alpha := Byte.xff |}.

Definition clear : Pixel :=
  {| red := Byte.x00; green := Byte.x00; blue := Byte.x00; alpha := Byte.x00 |}.

(** The pixel in column [px] is tinted by its column, so that the layout
    of a rendered frame can be read off its bytes. *)
Definition example_caster (v : Volume) (c : Camera) (px py : nat) : Pixel :=
  {| red := Byte.xff;
     green := if Nat.even px then Byte.x00 else Byte.xff;
     blue := if Nat.even py then Byte.x00 else Byte.xff;
     alpha := Byte.xff |}.

Definition example_config : Config :=
  {| read_container := example_reader;
     cast_ray := example_caster;
     background := clear;
     min_distance := (1 # 10)%Q;
     max_distance := (100 # 1)%Q;
     max_phi := (3 # 2)%Q;
     full_turn := (710 # 113)%Q;
     zoom_law := Scale |}.

Definition example_camera : Camera :=
  {| theta := 0%Q; phi := 0%Q; distance := (2 # 1)%Q; pan_x := 0%Q; pan_y := 0%Q;
     viewport_width := 0; viewport_height := 0 |}.

(** A freshly built engine: no Volume and an empty viewport. *)
Definition example_state : State :=
  {| volume := None; camera := example_camera; frame_buffer := [] |}.

(** The example engine after loading the two-page file [01]. *)
Definition loaded_state : State :=
  fst (load_volume example_config [Byte.x01] example_state).

(** The frame it renders on a 2 x 2 viewport after a load and a zoom. *)
Definition example_frame : list byte :=
  snd (render example_config
         (run example_config [OpLoad [Byte.x01]; OpZoom (1 # 10); OpRender]
            (resize 2 2 example_state))).

End EngineExamples.

(** ** Worked examples of failures and of start-up *)

(** An engine that throws what [fails] says, method by method, and
    otherwise returns at once: it loads every input as a 3 x 4 x 5 volume
    and renders a 2 x 2 black frame. *)
Definition failing_at (fails : Method -> option Thrown) : VolumeViewerWasm unit :=
  let answer {A} (m : Method) (a : A) (e : unit) : unit * Completion A :=
    match fails m with
    | Some t => (e, Throws t)
    | None => (e, Return a)
    end in
  {| load_volume := fun _ => answer m_load_volume (Some [3; 4; 5]%float);
     render := answer m_render (repeat Byte.x00 16);
     orbit := fun _ _ => answer m_orbit tt;
     zoom := fun _ => answer m_zoom tt;
     pan := fun _ => answer m_pan tt;
     resize := fun _ _ => answer m_resize tt |}.

(** An engine on which every call but [load_volume] throws. *)
Definition broken_engine : VolumeViewerWasm unit :=
  failing_at (fun m => match m with
                       | m_load_volume => None
                       | _ => Some (ErrorObject "unreachable")
                       end).

(** An engine that cannot render; what it throws is no [Error]. *)
Definition blind_engine : VolumeViewerWasm unit :=
  failing_at (fun m => match m with
                       | m_render => Some OtherValue
                       | _ => None
                       end).

(** An engine that rejects every file with an [Error] without message. *)
Definition mute_engine : VolumeViewerWasm unit :=
  failing_at (fun m => match m with
                       | m_load_volume => Some (ErrorObject "")
                       | _ => None
                       end).

(** A file the browser cannot read. *)
Definition unreadable_file : File :=
  {| file_name := "scan.tiff"; file_size := 10;
     arrayBuffer := Throws (ErrorObject "NotReadableError") |}.

(** A glue module that instantiates and constructs without fault. *)
Definition glue_module : WasmModule unit :=
  {| module_default := Return tt;
     module_VolumeViewer := fun _ _ => Return tt |}.

(** The pointer at a position, no button mentioned. *)
Definition pointer_at (px py : number) : MouseEvent :=
  {| clientX := px; clientY := py; button := 0%float |}.

Arguments pointer_at (px py)%_float.

(** A machine where ImageMagick is installed but every conversion fails
    with exit status 1, leaving a file that [identify] reports as having
    three channels. *)
Definition failing_magick : ConvertScript.Tools :=
  {| ConvertScript.magick_installed := true;
     ConvertScript.regular_file := fun path => String.eqb path "photos/cells.v2.png";
     ConvertScript.basename := fun _ => "cells.v2.png"%string;
     ConvertScript.convert := fun _ _ => 1%N;
     ConvertScript.channels_of := fun _ => ("srgb"%string, 0%N);
     ConvertScript.report_of := fun _ => ["  Format: TIFF"%string] |}.


(** * Properties of the component *)

Unset Implicit Arguments.

Lemma skipn_length_app {A} (l l' : list A) : skipn (List.length l) (l ++ l') = l'.
Proof. induction l; simpl; auto. Qed.

Lemma new_effects_app {E} (w w' : World E) evs :
  log w' = log w ++ evs -> new_effects w w' = evs.
Proof. unfold new_effects. intros ->. apply skipn_length_app. Qed.

Lemma calls_of_app m l1 l2 : calls_of m (l1 ++ l2) = calls_of m l1 ++ calls_of m l2.
Proof.
  induction l1 as [|e l1 IH]; simpl; auto.
  destruct e; auto. destruct (Method_eqb m m0); simpl; rewrite IH; auto.
Qed.

Ltac run_host :=
  unfold handleWheel, handleMouseMove, handleMouseDown, handleMouseUp,
    handleResize, handleFileUpload, upload_body, renderFrame,
    try_finally, try_catch, bind, call, lift, emit, setState, set_canvas,
    throw, ret in *;
  cbn [viewer state canvasRef animationFrameRef log fst snd] in *.

Ltac close_log :=
  rewrite <- ?app_assoc; cbn [app];
  first [ eexists; split; [reflexivity | cbn; repeat split; reflexivity]
        | exists []; rewrite ?app_nil_r; cbn; repeat split; reflexivity ].

(** [renderFrame] only appends to the log, and calls no engine method
    other than [render]. *)
Lemma renderFrame_log {E} (wasm : VolumeViewerWasm E) (w : World E) :
  exists evs, log (fst (renderFrame wasm w)) = log w ++ evs /\
              calls_of m_zoom evs = [] /\ calls_of m_pan evs = [] /\
              calls_of m_orbit evs = [] /\ calls_of m_load_volume evs = [].
Proof.
  run_host.
  destruct (viewer w) as [eng|] eqn:Hv; [|close_log].
  destruct (canvasRef w) as [canvas|]; [|close_log].
  destruct (context2d canvas); cbn; [|close_log].
  rewrite Hv. destruct (render wasm eng) as [eng' [buf|t]]; cbn; [|close_log].
  destruct (new_ImageData buf _ _); cbn; close_log.
Qed.

Lemma renderFrame_returns {E} (wasm : VolumeViewerWasm E) (w : World E) :
  snd (renderFrame wasm w) = Return tt.
Proof.
  run_host.
  destruct (viewer w) as [eng|] eqn:Hv; [|reflexivity].
  destruct (canvasRef w) as [canvas|]; [|reflexivity].
  destruct (context2d canvas); cbn; [|reflexivity].
  rewrite Hv. destruct (render wasm eng) as [eng' [buf|t]]; cbn; [|reflexivity].
  destruct (new_ImageData buf _ _); reflexivity.
Qed.

Lemma renderFrame_state {E} (wasm : VolumeViewerWasm E) (w : World E) :
  dimensions (state (fst (renderFrame wasm w))) = dimensions (state w) /\
  isDragging (state (fst (renderFrame wasm w))) = isDragging (state w) /\
  isLoading (state (fst (renderFrame wasm w))) = isLoading (state w).
Proof.
  run_host.
  destruct (viewer w) as [eng|] eqn:Hv; [|auto].
  destruct (canvasRef w) as [canvas|]; [|auto].
  destruct (context2d canvas); cbn; [|auto].
  rewrite Hv. destruct (render wasm eng) as [eng' [buf|t]]; cbn; [|auto].
  destruct (new_ImageData buf _ _); auto.
Qed.

Ltac use_renderFrame :=
  match goal with
  | |- context [renderFrame ?wasm ?w1] =>
      let evs := fresh "evs" in
      destruct (renderFrame_log wasm w1) as (evs & Hlog & Hz & Hp' & Ho & Hl);
      pose proof (renderFrame_returns wasm w1) as Hr;
      destruct (renderFrame_state wasm w1) as (Hd & Hdr & Hl');
      destruct (renderFrame wasm w1) as [w2 r];
      cbn [fst snd] in Hlog, Hr, Hd, Hdr, Hl'; subst r
  end.


(** *** File names *)

Lemma string_eqb_refl_true (s : string) : String.eqb s s = true.
Proof. apply String.eqb_eq. reflexivity. Qed.

Lemma endsWith_spec (s suffix : string) :
  endsWith s suffix = true <-> exists stem, s = (stem ++ suffix)%string.
Proof.
  split.
  - induction s as [|c s IH]; cbn [endsWith]; intros H.
    + rewrite orb_false_r in H. apply String.eqb_eq in H. subst.
      exists ""%string. reflexivity.
    + apply orb_true_iff in H. destruct H as [H|H].
      * apply String.eqb_eq in H. exists ""%string. auto.
      * destruct (IH H) as [stem ->]. exists (String c stem). reflexivity.
  - intros [stem ->]. induction stem as [|c stem IH]; cbn [append endsWith].
    + destruct suffix; cbn [endsWith]; rewrite string_eqb_refl_true; reflexivity.
    + rewrite IH. apply orb_true_r.
Qed.

Lemma toLowerCase_app (a b : string) :
  toLowerCase (a ++ b) = (toLowerCase a ++ toLowerCase b)%string.
Proof. induction a; simpl; congruence. Qed.

Lemma toLowerCase_split (s a b : string) :
  toLowerCase s = (a ++ b)%string ->
  exists s1 s2, s = (s1 ++ s2)%string /\ toLowerCase s1 = a /\ toLowerCase s2 = b.
Proof.
  revert s. induction a as [|c a IH]; intros s H.
  - exists ""%string, s. auto.
  - destruct s as [|d s]; simpl in H; [discriminate|].
    injection H as Hc Hs. destruct (IH s Hs) as (s1 & s2 & -> & H1 & H2).
    exists (String d s1), s2. simpl. subst. auto.
Qed.

Lemma endsWith_toLowerCase (name ext : string) :
  endsWith (toLowerCase name) ext = true <-> has_extension name ext.
Proof.
  rewrite endsWith_spec. split.
  - intros [stem H]. apply toLowerCase_split in H.
    destruct H as (s1 & s2 & -> & _ & H2). exists s1, s2. auto.
  - intros (stem & tail & -> & <-). exists (toLowerCase stem). apply toLowerCase_app.
Qed.

Lemma not_tiff_name_spec (name : string) :
  not_tiff_name name = true <->
  ~ has_extension name ".tif" /\ ~ has_extension name ".tiff".
Proof.
  unfold not_tiff_name. rewrite andb_true_iff, !negb_true_iff.
  rewrite <- !endsWith_toLowerCase.
  destruct (endsWith (toLowerCase name) ".tif"), (endsWith (toLowerCase name) ".tiff");
    intuition congruence.
Qed.

(** *** The upload handler *)

(** What [handleFileUpload] leaves when its [try] block throws. *)
Lemma handleFileUpload_caught {E} (wasm : VolumeViewerWasm E) (w w1 : World E)
    (file : File) (t : Thrown) :
  viewer w <> None ->
  upload_body wasm file w = (w1, Throws t) ->
  let w' := fst (handleFileUpload wasm (Some file) w) in
  error (state w') = Some (message_or "Failed to load image" t) /\
  dimensions (state w') = None /\
  isLoading (state w') = false /\
  log w' = log w1 ++ [ConsoleError "Error loading file:"; ClearFileInput] /\
  viewer w' = viewer w1.
Proof.
  intros Hv Hb. unfold handleFileUpload.
  destruct (viewer w); [|congruence].
  unfold try_finally, try_catch. rewrite Hb.
  cbn. rewrite <- app_assoc. auto.
Qed.

Lemma upload_body_bad_name {E} (wasm : VolumeViewerWasm E) (w : World E) (file : File) :
  not_tiff_name (file_name file) = true ->
  exists w1, upload_body wasm file w
             = (w1, Throws (ErrorObject "Please select a TIFF file")) /\
             log w1 = log w /\ viewer w1 = viewer w.
Proof.
  intros H. unfold upload_body. rewrite H. run_host. eexists; split; [reflexivity|auto].
Qed.

Lemma upload_body_oversize {E} (wasm : VolumeViewerWasm E) (w : World E) (file : File) :
  not_tiff_name (file_name file) = false ->
  (MAX_FILE_SIZE <? file_size file)%N = true ->
  exists w1, upload_body wasm file w
             = (w1, Throws (ErrorObject "File size too large (max 256MB)")) /\
             log w1 = log w /\ viewer w1 = viewer w.
Proof.
  intros H1 H2. unfold upload_body. rewrite H1, H2. run_host.
  eexists; split; [reflexivity|auto].
Qed.


Section UploadPaths.

Context {E : Type} (wasm : VolumeViewerWasm E).
Variables (w : World E) (file : File) (eng : E) (bytes : list byte).
Hypothesis Hviewer : viewer w = Some eng.
Hypothesis Hname : not_tiff_name (file_name file) = false.
Hypothesis Hsize : (MAX_FILE_SIZE <? file_size file)%N = false.
Hypothesis Hbytes : arrayBuffer file = Return bytes.

Lemma upload_body_load_rejected (eng' : E) (t : Thrown) :
  load_volume wasm bytes eng = (eng', Throws t) ->
  exists w1, upload_body wasm file w = (w1, Throws t) /\
             log w1 = log w ++ cancel_effects w
                        ++ [Call m_load_volume [JUint8Array bytes]] /\
             viewer w1 = Some eng'.
Proof.
  intros Hload. unfold upload_body, cancel_effects.
  rewrite Hname, Hsize, Hbytes. run_host.
  destruct (animationFrameRef w) as [id|]; [destruct (truthy id)|];
    cbn; rewrite Hviewer, Hload; cbn;
    (eexists; split; [reflexivity|]); cbn; rewrite <- ?app_assoc; auto.
Qed.

Lemma upload_body_invalid_dimensions (eng' : E) (d : option (list number)) :
  load_volume wasm bytes eng = (eng', Return d) ->
  invalid_dimensions d = true ->
  exists w1, upload_body wasm file w
             = (w1, Throws (ErrorObject "Invalid volume dimensions received")) /\
             log w1 = log w ++ cancel_effects w
                        ++ [Call m_load_volume [JUint8Array bytes]] /\
             viewer w1 = Some eng'.
Proof.
  intros Hload Hd. unfold upload_body, cancel_effects.
  rewrite Hname, Hsize, Hbytes. run_host.
  destruct (animationFrameRef w) as [id|]; [destruct (truthy id)|];
    cbn; rewrite Hviewer, Hload; cbn; rewrite Hd; cbn;
    (eexists; split; [reflexivity|]); cbn; rewrite <- ?app_assoc; auto.
Qed.

(** A 3-element result is stored as the dimensions, provided the
    [resize] call that follows (when a canvas with a parent is mounted)
    returns. *)
Lemma upload_accepts (eng' : E) (a b c : number) :
  load_volume wasm bytes eng = (eng', Return (Some [a; b; c])) ->
  (forall canvas container,
      canvasRef w = Some canvas -> parentElement canvas = Some container ->
      snd (resize wasm (rect_width container) (rect_height container) eng')
        = Return tt) ->
  let w' := fst (handleFileUpload wasm (Some file) w) in
  dimensions (state w') = Some (a, b, c) /\
  isLoading (state w') = false /\
  calls_of m_load_volume (new_effects w w') = [[JUint8Array bytes]].
Proof.
  intros Hload Hresize. unfold handleFileUpload. rewrite Hviewer.
  unfold upload_body, try_finally, try_catch, bind, call, lift, emit,
    setState, set_canvas, throw, ret.
  rewrite Hname, Hsize, Hbytes.
  cbn [viewer state canvasRef animationFrameRef log fst snd].
  assert (Hcancel : forall evs,
      calls_of m_load_volume (cancel_effects w ++ evs) = calls_of m_load_volume evs).
  { intros evs. unfold cancel_effects.
    destruct (animationFrameRef w) as [id|]; [destruct (truthy id)|]; reflexivity. }
  unfold cancel_effects in Hcancel.
  destruct (animationFrameRef w) as [id|]; [destruct (truthy id)|];
    cbn [viewer state canvasRef animationFrameRef log fst snd];
    rewrite Hviewer, Hload; cbn [invalid_dimensions List.length Nat.eqb negb as_triple
      viewer state canvasRef animationFrameRef log fst snd];
    (destruct (canvasRef w) as [canvas|] eqn:Hc;
     [destruct (parentElement canvas) as [container|] eqn:Hp|]);
    cbn [viewer state canvasRef animationFrameRef log fst snd];
    try (specialize (Hresize _ _ eq_refl Hp);
         destruct (resize wasm (rect_width container) (rect_height container) eng')
           as [eng2 r2]; cbn [snd] in Hresize; subst r2);
    cbn [viewer state canvasRef animationFrameRef log fst snd];
    use_renderFrame; cbn [viewer state canvasRef animationFrameRef log fst snd dimensions isLoading] in *;
    (split; [rewrite Hd; reflexivity|]);
    (split; [rewrite Hl'; reflexivity|]);
    (erewrite new_effects_app
       by (cbn [log]; rewrite Hlog; cbn [log]; rewrite <- ?app_assoc; reflexivity));
    rewrite ?(Hcancel _); cbn; rewrite ?calls_of_app, Hl; reflexivity.
Qed.

End UploadPaths.

Lemma handleFileUpload_no_viewer {E} (wasm : VolumeViewerWasm E) (w : World E)
    (selected : option File) :
  viewer w = None -> handleFileUpload wasm selected w = (w, Return tt).
Proof. intros H. unfold handleFileUpload. rewrite H. destruct selected; reflexivity. Qed.

Lemma new_effects_none {E} (w : World E) : new_effects w w = [].
Proof. apply new_effects_app. symmetry. apply app_nil_r. Qed.



(** *** Wheel events *)

Lemma float_zero_is_not_positive (v : float) :
  PrimFloat.eqb v 0%float = true -> PrimFloat.ltb 0%float v = false.
Proof.
  rewrite FloatAxioms.eqb_spec, FloatAxioms.ltb_spec.
  change (Prim2SF 0%float) with (S754_zero false).
  destruct (Prim2SF v) as [[|]|[|]| |[|] m e]; cbn; congruence.
Qed.

(** Claim C10.  For every wheel event handled while the engine exists,
    the component calls [zoom] exactly once, with exactly [+0.1] when the
    wheel delta is positive and exactly [-0.1] otherwise, a delta of zero
    included; before the engine exists the event does nothing.  The step
    has magnitude 0.1 whatever the event, and only the sign of the wheel
    delta is used: the step is positive exactly when the wheel delta is,
    so a positive wheel delta asks for a positive zoom delta, the one that
    moves the camera away. *)
Theorem handleWheel_zoom_step :
  forall (E : Type) (wasm : VolumeViewerWasm E) (w : World E) (e : WheelEvent),
    (viewer w <> None ->
     calls_of m_zoom (new_effects w (fst (handleWheel wasm e w)))
     = [[JNumber (wheel_step e)]]) /\
    (viewer w = None -> new_effects w (fst (handleWheel wasm e w)) = []) /\
    (forall args,
        In args (calls_of m_zoom (new_effects w (fst (handleWheel wasm e w)))) ->
        args = [JNumber (wheel_step e)]) /\
    (PrimFloat.ltb 0%float (deltaY e) = true -> wheel_step e = 0.1%float) /\
    (PrimFloat.ltb 0%float (deltaY e) = false -> wheel_step e = (-0.1)%float) /\
    (PrimFloat.eqb (deltaY e) 0%float = true -> wheel_step e = (-0.1)%float) /\
    PrimFloat.abs (wheel_step e) = 0.1%float /\
    PrimFloat.ltb 0%float (wheel_step e) = PrimFloat.ltb 0%float (deltaY e).
Proof.
  intros E wasm w e.
  assert (Hstep : PrimFloat.ltb 0%float (deltaY e) = false ->
                  wheel_step e = (-0.1)%float)
    by (unfold wheel_step; intros ->; reflexivity).
  assert (Hcalls : viewer w <> None ->
                   calls_of m_zoom (new_effects w (fst (handleWheel wasm e w)))
                   = [[JNumber (wheel_step e)]]).
  { intros Hv. destruct (viewer w) as [eng|] eqn:Hw; [clear Hv|congruence].
    unfold handleWheel, try_catch, bind. rewrite Hw.
    unfold call at 1. rewrite Hw.
    destruct (zoom wasm (wheel_step e) eng) as [eng1 [[]|t]].
    - use_renderFrame. cbn [fst log] in *.
      erewrite new_effects_app by (rewrite Hlog, <- app_assoc; reflexivity).
      cbn. rewrite Hz. reflexivity.
    - run_host. erewrite new_effects_app by (rewrite <- app_assoc; reflexivity).
      reflexivity. }
  assert (Hnone : viewer w = None -> new_effects w (fst (handleWheel wasm e w)) = []).
  { intros Hv. unfold handleWheel. rewrite Hv. apply new_effects_none. }
  split; [exact Hcalls|]. split; [exact Hnone|].
  split; [|split; [|split; [|split; [|split]]]].
  - intros args Hin. destruct (viewer w) as [eng|] eqn:Hw.
    + rewrite Hcalls in Hin by discriminate.
      destruct Hin as [<-|[]]. reflexivity.
    + rewrite (Hnone eq_refl) in Hin. destruct Hin.
  - unfold wheel_step. intros ->. reflexivity.
  - exact Hstep.
  - intros Hz. apply Hstep, float_zero_is_not_positive, Hz.
  - unfold wheel_step. destruct (PrimFloat.ltb 0%float (deltaY e)); reflexivity.
  - unfold wheel_step. destruct (PrimFloat.ltb 0%float (deltaY e)); reflexivity.
Qed.

(** *** Camera calls are followed by a render *)

(** With a canvas and its 2D context at hand, [renderFrame] calls
    [render]; the frame it returns, if it fits the canvas, is what is
    drawn. *)
Lemma renderFrame_renders {E} (wasm : VolumeViewerWasm E) (w : World E)
    (eng : E) (canvas : Canvas) :
  viewer w = Some eng -> canvasRef w = Some canvas -> context2d canvas = true ->
  exists rest,
    log (fst (renderFrame wasm w)) = log w ++ Call m_render [] :: rest /\
    forall eng' frame img,
      render wasm eng = (eng', Return frame) ->
      new_ImageData frame (canvas_width canvas) (canvas_height canvas) = Return img ->
      rest = [PutImageData img].
Proof.
  intros Hv Hc Hctx. run_host. rewrite Hv, Hc, Hctx. cbn. rewrite Hv.
  destruct (render wasm eng) as [eng1 [buf|t]]; cbn.
  - destruct (new_ImageData buf _ _) as [img1|t] eqn:Himg; cbn;
      rewrite <- app_assoc; eexists; (split; [reflexivity|]);
      intros eng' frame img Hr Hi; injection Hr as <- <-; congruence.
  - rewrite <- app_assoc. eexists. split; [reflexivity|]. discriminate.
Qed.

(** Once the camera call has returned, what remains is [renderFrame] on a
    world whose engine is known. *)
Ltac now_rendered Hc Hctx :=
  match goal with
  | |- context [renderFrame ?wasm ?w1] =>
      let rest := fresh "rest" in
      let Hlog := fresh "Hlog" in
      let Hrest := fresh "Hrest" in
      let Hret := fresh "Hret" in
      let w2 := fresh "w" in
      let r := fresh "r" in
      destruct (renderFrame_renders wasm w1 _ _ eq_refl Hc Hctx)
        as (rest & Hlog & Hrest);
      pose proof (renderFrame_returns wasm w1) as Hret;
      destruct (renderFrame wasm w1) as [w2 r];
      cbn [fst snd log] in Hlog, Hret; subst r;
      cbn [negb fst]; exists rest; split;
      [ apply new_effects_app; rewrite Hlog, <- app_assoc; reflexivity
      | exact Hrest ]
  end.

(** Claim C3.  With the engine created and a canvas with a 2D context
    mounted: during a drag, a pointer move with the primary button
    (button 0) calls [orbit] with the pointer deltas scaled by 0.005, and
    one with the secondary button (button 2) calls [pan] with the deltas
    scaled by 0.1; every wheel event calls [zoom].  After each such call
    returns, the next thing the host does is call [render], and the frame
    it returns, the size of the canvas, is put on the drawing surface. *)
Theorem interaction_is_followed_by_render :
  forall (E : Type) (wasm : VolumeViewerWasm E) (w : World E) (eng : E)
         (canvas : Canvas),
    viewer w = Some eng ->
    canvasRef w = Some canvas ->
    context2d canvas = true ->
    (forall (e : MouseEvent) (eng1 : E),
        isDragging (state w) = true ->
        mouseButton (state w) = Some 0%float ->
        let deltaX := (clientX e - x (lastMousePos (state w)))%float in
        let deltaY := (clientY e - y (lastMousePos (state w)))%float in
        orbit wasm (deltaX * 0.005)%float (deltaY * 0.005)%float eng
          = (eng1, Return tt) ->
        exists rest,
          new_effects w (fst (handleMouseMove wasm e w))
          = Call m_orbit [JNumber (deltaX * 0.005)%float; JNumber (deltaY * 0.005)%float]
            :: Call m_render [] :: rest /\
          forall eng2 frame img,
            render wasm eng1 = (eng2, Return frame) ->
            new_ImageData frame (canvas_width canvas) (canvas_height canvas)
              = Return img ->
            rest = [PutImageData img]) /\
    (forall (e : MouseEvent) (eng1 : E),
        isDragging (state w) = true ->
        mouseButton (state w) = Some 2%float ->
        let deltaX := (clientX e - x (lastMousePos (state w)))%float in
        let deltaY := (clientY e - y (lastMousePos (state w)))%float in
        pan wasm (deltaX * 0.1, deltaY * 0.1)%float eng = (eng1, Return tt) ->
        exists rest,
          new_effects w (fst (handleMouseMove wasm e w))
          = Call m_pan [JArray [JNumber (deltaX * 0.1)%float; JNumber (deltaY * 0.1)%float]]
            :: Call m_render [] :: rest /\
          forall eng2 frame img,
            render wasm eng1 = (eng2, Return frame) ->
            new_ImageData frame (canvas_width canvas) (canvas_height canvas)
              = Return img ->
            rest = [PutImageData img]) /\
    (forall (e : WheelEvent) (eng1 : E),
        zoom wasm (wheel_step e) eng = (eng1, Return tt) ->
        exists rest,
          new_effects w (fst (handleWheel wasm e w))
          = Call m_zoom [JNumber (wheel_step e)] :: Call m_render [] :: rest /\
          forall eng2 frame img,
            render wasm eng1 = (eng2, Return frame) ->
            new_ImageData frame (canvas_width canvas) (canvas_height canvas)
              = Return img ->
            rest = [PutImageData img]).
Proof.
  intros E wasm w eng canvas Hv Hc Hctx.
  split; [|split].
  - intros e eng1 Hdrag Hbutton deltaX deltaY Horbit.
    unfold handleMouseMove, try_catch, bind. rewrite Hdrag, Hv, Hbutton.
    change (button_is (Some 0%float) 0%float) with true. cbn iota.
    unfold call at 1. rewrite Hv. fold deltaX deltaY. rewrite Horbit.
    unfold setState at 1.
    cbn [viewer state canvasRef animationFrameRef log fst snd].
    now_rendered Hc Hctx.
  - intros e eng1 Hdrag Hbutton deltaX deltaY Hpan.
    unfold handleMouseMove, try_catch, bind. rewrite Hdrag, Hv, Hbutton.
    change (button_is (Some 2%float) 0%float) with false.
    change (button_is (Some 2%float) 2%float) with true. cbn iota.
    unfold call at 1. rewrite Hv. fold deltaX deltaY. rewrite Hpan.
    unfold setState at 1.
    cbn [viewer state canvasRef animationFrameRef log fst snd].
    now_rendered Hc Hctx.
  - intros e eng1 Hzoom.
    unfold handleWheel, try_catch, bind. rewrite Hv.
    unfold call at 1. rewrite Hv, Hzoom.
    cbn [viewer state canvasRef animationFrameRef log fst snd].
    now_rendered Hc Hctx.
Qed.

(** *** Rejected uploads *)

(** A file that fails one of the two checks never reaches the engine. *)
Lemma upload_rejected_early {E} (wasm : VolumeViewerWasm E) (w : World E)
    (file : File) (msg : string) :
  (exists w1, upload_body wasm file w = (w1, Throws (ErrorObject msg)) /\
              log w1 = log w /\ viewer w1 = viewer w) ->
  let w' := fst (handleFileUpload wasm (Some file) w) in
  (forall m, calls_of m (new_effects w w') = []) /\
  viewer w' = viewer w /\
  (viewer w <> None ->
   error (state w') = Some msg /\
   dimensions (state w') = None /\
   isLoading (state w') = false /\
   new_effects w w' = [ConsoleError "Error loading file:"; ClearFileInput]).
Proof.
  intros (w1 & Hbody & Hlog & Hview) w'. subst w'.
  destruct (viewer w) as [eng|] eqn:Hv.
  - assert (Hsome : viewer w <> None) by congruence.
    destruct (handleFileUpload_caught wasm w w1 file _ Hsome Hbody)
      as (He & Hd & Hl & Hlog' & Hv').
    rewrite Hlog in Hlog'. apply new_effects_app in Hlog'.
    rewrite Hlog', Hv', Hview. cbn [message_or] in He.
    repeat split; auto.
  - rewrite handleFileUpload_no_viewer by exact Hv. cbn [fst].
    rewrite new_effects_none. repeat split; auto; congruence.
Qed.

(** Claim C8.  For every selected file whose name does not end, whatever
    the case of its letters, in [".tif"] or [".tiff"], the upload handler
    never calls [load_volume] and leaves the engine as it was; when the
    engine exists it fails with the error "Please select a TIFF file",
    no dimensions and the loading flag cleared. *)
Theorem non_tiff_name_is_rejected_before_load :
  forall (E : Type) (wasm : VolumeViewerWasm E) (w : World E) (file : File),
    ~ has_extension (file_name file) ".tif" ->
    ~ has_extension (file_name file) ".tiff" ->
    let w' := fst (handleFileUpload wasm (Some file) w) in
    calls_of m_load_volume (new_effects w w') = [] /\
    viewer w' = viewer w /\
    (viewer w <> None ->
     error (state w') = Some "Please select a TIFF file"%string /\
     dimensions (state w') = None /\
     isLoading (state w') = false /\
     new_effects w w' = [ConsoleError "Error loading file:"; ClearFileInput]).
Proof.
  intros E wasm w file Htif Htiff.
  assert (Hname : not_tiff_name (file_name file) = true)
    by (apply not_tiff_name_spec; split; assumption).
  destruct (upload_rejected_early wasm w file _
              (upload_body_bad_name wasm w file Hname)) as (Hcalls & Hrest).
  split; [apply Hcalls | exact Hrest].
Qed.

(** Claim C5.  For every selected file whose size exceeds 256 MiB
    (256 * 1024 * 1024 bytes), the upload handler never calls
    [load_volume], so the engine is never handed the bytes, and leaves
    the engine as it was; when the engine exists it fails with an error:
    the size error if the name passes the extension check, the extension
    error otherwise. *)
Theorem oversize_file_is_rejected_before_load :
  forall (E : Type) (wasm : VolumeViewerWasm E) (w : World E) (file : File),
    (256 * 1024 * 1024 < file_size file)%N ->
    let w' := fst (handleFileUpload wasm (Some file) w) in
    calls_of m_load_volume (new_effects w w') = [] /\
    viewer w' = viewer w /\
    (viewer w <> None ->
     (error (state w') = Some "Please select a TIFF file"%string \/
      error (state w') = Some "File size too large (max 256MB)"%string) /\
     (not_tiff_name (file_name file) = false ->
      error (state w') = Some "File size too large (max 256MB)"%string) /\
     dimensions (state w') = None /\
     isLoading (state w') = false /\
     new_effects w w' = [ConsoleError "Error loading file:"; ClearFileInput]).
Proof.
  intros E wasm w file Hbig.
  assert (Hsize : (MAX_FILE_SIZE <? file_size file)%N = true)
    by (apply N.ltb_lt; exact Hbig).
  destruct (not_tiff_name (file_name file)) eqn:Hname.
  - destruct (upload_rejected_early wasm w file _
                (upload_body_bad_name wasm w file Hname)) as (Hcalls & Hv & Hrest).
    split; [apply Hcalls|]. split; [exact Hv|]. intros Hsome.
    destruct (Hrest Hsome) as (He & Hd & Hl & Hn).
    repeat split; auto. discriminate.
  - destruct (upload_rejected_early wasm w file _
                (upload_body_oversize wasm w file Hname Hsize)) as (Hcalls & Hv & Hrest).
    split; [apply Hcalls|]. split; [exact Hv|]. intros Hsome.
    destruct (Hrest Hsome) as (He & Hd & Hl & Hn).
    repeat split; auto.
Qed.

Lemma calls_of_cancel_effects {E} (w : World E) (m : Method) :
  calls_of m (cancel_effects w) = [].
Proof.
  unfold cancel_effects.
  destruct (animationFrameRef w) as [id|]; [destruct (truthy id)|]; reflexivity.
Qed.

(** Each failing path of the [try] block throws, having called at most
    [load_volume] on the engine. *)
Lemma upload_body_fails {E} (wasm : VolumeViewerWasm E) (w : World E)
    (file : File) (eng : E) :
  viewer w = Some eng ->
  (~ has_extension (file_name file) ".tif" /\ ~ has_extension (file_name file) ".tiff")
  \/ (MAX_FILE_SIZE < file_size file)%N
  \/ (exists bytes eng' t,
         arrayBuffer file = Return bytes /\
         load_volume wasm bytes eng = (eng', Throws t))
  \/ (exists bytes eng' d,
         arrayBuffer file = Return bytes /\
         load_volume wasm bytes eng = (eng', Return d) /\
         invalid_dimensions d = true) ->
  exists w1 t evs,
    upload_body wasm file w = (w1, Throws t) /\
    log w1 = log w ++ evs /\
    (forall m, m <> m_load_volume -> calls_of m evs = []) /\
    (viewer w1 = Some eng \/
     exists bytes, arrayBuffer file = Return bytes /\
                   viewer w1 = Some (fst (load_volume wasm bytes eng))).
Proof.
  intros Hv Hpath.
  assert (Hearly : forall msg,
    (exists w1, upload_body wasm file w = (w1, Throws (ErrorObject msg)) /\
                log w1 = log w /\ viewer w1 = viewer w) ->
    exists w1 t evs,
      upload_body wasm file w = (w1, Throws t) /\
      log w1 = log w ++ evs /\
      (forall m, m <> m_load_volume -> calls_of m evs = []) /\
      (viewer w1 = Some eng \/
       exists bytes, arrayBuffer file = Return bytes /\
                     viewer w1 = Some (fst (load_volume wasm bytes eng)))).
  { intros msg (w1 & Hb & Hl & Hw). exists w1, (ErrorObject msg), [].
    rewrite app_nil_r, Hw. auto. }
  destruct (not_tiff_name (file_name file)) eqn:Hname;
    [apply (Hearly _ (upload_body_bad_name wasm w file Hname))|].
  destruct (MAX_FILE_SIZE <? file_size file)%N eqn:Hsize;
    [apply (Hearly _ (upload_body_oversize wasm w file Hname Hsize))|].
  assert (Hlate : forall bytes eng' t,
    arrayBuffer file = Return bytes ->
    (exists w1, upload_body wasm file w = (w1, Throws t) /\
                log w1 = log w ++ cancel_effects w
                           ++ [Call m_load_volume [JUint8Array bytes]] /\
                viewer w1 = Some eng') ->
    eng' = fst (load_volume wasm bytes eng) ->
    exists w1 t evs,
      upload_body wasm file w = (w1, Throws t) /\
      log w1 = log w ++ evs /\
      (forall m, m <> m_load_volume -> calls_of m evs = []) /\
      (viewer w1 = Some eng \/
       exists bytes, arrayBuffer file = Return bytes /\
                     viewer w1 = Some (fst (load_volume wasm bytes eng)))).
  { intros bytes eng' t Hb (w1 & Hbody & Hl & Hw) ->. exists w1, t.
    eexists. split; [exact Hbody|]. split; [exact Hl|]. split.
    - intros m Hm. rewrite calls_of_app, calls_of_cancel_effects.
      destruct m; try reflexivity. congruence.
    - right. exists bytes. auto. }
  destruct Hpath as [[Htif Htiff]|[Hbig|[Hrej|Hbad]]].
  - assert (not_tiff_name (file_name file) = true)
      by (apply not_tiff_name_spec; auto). congruence.
  - apply N.ltb_lt in Hbig. congruence.
  - destruct Hrej as (bytes & eng' & t & Hb & Hload).
    apply (Hlate bytes eng' t Hb).
    + apply (upload_body_load_rejected wasm w file eng bytes Hv Hname Hsize Hb eng' t Hload).
    + rewrite Hload. reflexivity.
  - destruct Hbad as (bytes & eng' & d & Hb & Hload & Hd).
    apply (Hlate bytes eng' (ErrorObject "Invalid volume dimensions received") Hb).
    + apply (upload_body_invalid_dimensions wasm w file eng bytes Hv Hname Hsize Hb eng' d Hload Hd).
    + rewrite Hload. reflexivity.
Qed.

(** Claim C9.  On every failing path of the upload handler (a name
    without a TIFF extension, a file over 256 MiB, [load_volume]
    rejecting, or a dimensions result that is null or not of length 3),
    the handler ends with the displayed dimensions set to null, a
    non-null error message and the loading flag cleared, whatever
    dimensions were displayed before.  The host asks nothing else of the
    engine on such a path: the engine is as it was, or as the rejected
    [load_volume] call left it. *)
Theorem failed_upload_forgets_dimensions :
  forall (E : Type) (wasm : VolumeViewerWasm E) (w : World E) (file : File)
         (eng : E),
    viewer w = Some eng ->
    (~ has_extension (file_name file) ".tif" /\ ~ has_extension (file_name file) ".tiff")
    \/ (256 * 1024 * 1024 < file_size file)%N
    \/ (exists bytes eng' t,
           arrayBuffer file = Return bytes /\
           load_volume wasm bytes eng = (eng', Throws t))
    \/ (exists bytes eng' d,
           arrayBuffer file = Return bytes /\
           load_volume wasm bytes eng = (eng', Return d) /\
           invalid_dimensions d = true) ->
    let w' := fst (handleFileUpload wasm (Some file) w) in
    dimensions (state w') = None /\
    (exists msg, error (state w') = Some msg) /\
    isLoading (state w') = false /\
    (forall m, m <> m_load_volume -> calls_of m (new_effects w w') = []) /\
    (viewer w' = Some eng \/
     exists bytes, arrayBuffer file = Return bytes /\
                   viewer w' = Some (fst (load_volume wasm bytes eng))).
Proof.
  intros E wasm w file eng Hv Hpath.
  destruct (upload_body_fails wasm w file eng Hv Hpath)
    as (w1 & t & evs & Hbody & Hlog & Hcalls & Heng).
  assert (Hsome : viewer w <> None) by congruence.
  destruct (handleFileUpload_caught wasm w w1 file t Hsome Hbody)
    as (He & Hd & Hl & Hlog' & Hv').
  cbn zeta. rewrite Hv'. repeat split; auto.
  - eexists. exact He.
  - intros m Hm. rewrite Hlog, <- app_assoc in Hlog'.
    rewrite (new_effects_app _ _ _ Hlog'), calls_of_app, (Hcalls m Hm).
    destruct m; reflexivity.
Qed.

(** *** Every call matches the interface declaration *)

Section Typed.

Context {E : Type} (wasm : VolumeViewerWasm E).

Lemma typed_silent {A} (m : World E -> World E * Completion A) :
  (forall w, log (fst (m w)) = log w) -> typed m.
Proof. intros H w. exists []. rewrite app_nil_r. auto. Qed.

Lemma typed_ret {A} (a : A) : typed (ret (E := E) a).
Proof. apply typed_silent. reflexivity. Qed.

Lemma typed_throw {A} (t : Thrown) : typed (throw (E := E) (A := A) t).
Proof. apply typed_silent. reflexivity. Qed.

Lemma typed_lift {A} (c : Completion A) : typed (lift (E := E) c).
Proof. apply typed_silent. reflexivity. Qed.

Lemma typed_setState f : typed (setState (E := E) f).
Proof. apply typed_silent. reflexivity. Qed.

Lemma typed_set_canvas c : typed (set_canvas (E := E) c).
Proof. apply typed_silent. reflexivity. Qed.

Lemma typed_emit (ev : Effect) : well_typed ev = true -> typed (emit (E := E) ev).
Proof. intros H w. exists [ev]. cbn. rewrite H. auto. Qed.

Lemma typed_call {A} (m : Method) (args : list JsValue) (method : E -> E * Completion A) :
  args_match args (params (VolumeViewerWasm_decl m)) = true ->
  typed (call m args method).
Proof.
  intros H w. unfold call. destruct (viewer w) as [eng|].
  - destruct (method eng) as [eng' r]. exists [Call m args]. cbn. rewrite H. auto.
  - exists []. rewrite app_nil_r. auto.
Qed.

Lemma typed_bind {A B} (m : Host (E := E) A) (k : A -> Host (E := E) B) :
  typed m -> (forall a, typed (k a)) -> typed (bind m k).
Proof.
  intros Hm Hk w. unfold bind. destruct (Hm w) as (e1 & Hl1 & Ht1).
  destruct (m w) as [w1 [a|t]]; cbn [fst] in *.
  - destruct (Hk a w1) as (e2 & Hl2 & Ht2). exists (e1 ++ e2).
    rewrite Hl2, Hl1, <- app_assoc, forallb_app, Ht1, Ht2. auto.
  - exists e1. auto.
Qed.

Lemma typed_try_catch {A} (body : Host (E := E) A) (handler : Thrown -> Host (E := E) A) :
  typed body -> (forall t, typed (handler t)) -> typed (try_catch body handler).
Proof.
  intros Hm Hk w. unfold try_catch. destruct (Hm w) as (e1 & Hl1 & Ht1).
  destruct (body w) as [w1 [a|t]]; cbn [fst] in *.
  - exists e1. auto.
  - destruct (Hk t w1) as (e2 & Hl2 & Ht2). exists (e1 ++ e2).
    rewrite Hl2, Hl1, <- app_assoc, forallb_app, Ht1, Ht2. auto.
Qed.

Lemma typed_try_finally {A} (body : Host (E := E) A) (cleanup : Host (E := E) unit) :
  typed body -> typed cleanup -> typed (try_finally body cleanup).
Proof.
  intros Hm Hk w. unfold try_finally. destruct (Hm w) as (e1 & Hl1 & Ht1).
  destruct (body w) as [w1 r]; cbn [fst] in *.
  destruct (Hk w1) as (e2 & Hl2 & Ht2).
  destruct (cleanup w1) as [w2 [[]|t]]; cbn [fst] in *;
    exists (e1 ++ e2); rewrite Hl2, Hl1, <- app_assoc, forallb_app, Ht1, Ht2; auto.
Qed.

(** A body chosen by looking at the world. *)
Lemma typed_choice {A} (m : World E -> World E * Completion A) :
  (forall w, exists m', typed m' /\ m w = m' w) -> typed m.
Proof. intros H w. destruct (H w) as (m' & Hm' & ->). apply Hm'. Qed.

Create HintDb typed_db.
#[local] Hint Resolve typed_ret typed_throw typed_lift typed_setState typed_set_canvas
  typed_emit typed_call : typed_db.

Ltac typed_step :=
  first [ solve [auto with typed_db]
        | apply typed_bind; [|intros ?]
        | apply typed_try_catch; [|intros ?]
        | apply typed_try_finally
        | match goal with |- typed (if ?c then _ else _) => destruct c end
        | match goal with |- typed (match ?c with _ => _ end) => destruct c end ].

Lemma typed_renderFrame : typed (renderFrame wasm).
Proof.
  apply typed_choice. intros w. unfold renderFrame.
  destruct (viewer w); [destruct (canvasRef w) as [canvas|]|];
    try (exists (ret tt); split; [apply typed_ret | reflexivity]).
  eexists. split; [|reflexivity]. repeat typed_step.
Qed.

#[local] Hint Resolve typed_renderFrame : typed_db.

Lemma typed_handleResize : typed (handleResize wasm).
Proof.
  apply typed_choice. intros w. unfold handleResize.
  destruct (viewer w);
    [destruct (canvasRef w) as [canvas|];
     [destruct (parentElement canvas) as [container|]|]|];
    try (exists (ret tt); split; [apply typed_ret | reflexivity]).
  eexists. split; [|reflexivity].
  repeat typed_step.
Qed.

Lemma typed_handleMouseMove e : typed (handleMouseMove wasm e).
Proof.
  apply typed_choice. intros w. unfold handleMouseMove.
  destruct (negb (isDragging (state w)));
    [|destruct (viewer w)];
    try (exists (ret tt); split; [apply typed_ret | reflexivity]).
  eexists. split; [|reflexivity].
  cbv zeta. repeat typed_step.
Qed.

Lemma typed_handleWheel e : typed (handleWheel wasm e).
Proof.
  apply typed_choice. intros w. unfold handleWheel.
  destruct (viewer w);
    try (exists (ret tt); split; [apply typed_ret | reflexivity]).
  eexists. split; [|reflexivity].
  cbv zeta. repeat typed_step.
Qed.

Lemma typed_upload_body file : typed (upload_body wasm file).
Proof.
  unfold upload_body. repeat typed_step.
  - apply typed_choice. intros w.
    destruct (animationFrameRef w) as [id|]; [destruct (truthy id)|];
      try (exists (ret tt); split; [apply typed_ret | reflexivity]).
    exists (emit (CancelAnimationFrame id)).
    split; [apply typed_emit | ]; reflexivity.
  - apply typed_choice. intros w.
    destruct (canvasRef w) as [canvas|];
      [destruct (parentElement canvas) as [container|]|];
      try (exists (ret tt); split; [apply typed_ret | reflexivity]).
    eexists. split; [|reflexivity]. cbv zeta. repeat typed_step.
Qed.

#[local] Hint Resolve typed_upload_body : typed_db.

Lemma typed_handleFileUpload selected : typed (handleFileUpload wasm selected).
Proof.
  apply typed_choice. intros w. unfold handleFileUpload.
  destruct selected as [file|]; [destruct (viewer w)|];
    try (exists (ret tt); split; [apply typed_ret | reflexivity]).
  eexists. split; [|reflexivity].
  repeat typed_step.
Qed.

End Typed.

(** Whatever the handler and the state of the component, every method
    call on the engine passes arguments of the declared types. *)
Theorem handlers_respect_the_interface :
  forall (E : Type) (wasm : VolumeViewerWasm E) (w : World E)
         (move : MouseEvent) (wheel : WheelEvent) (selected : option File),
    forallb well_typed (new_effects w (fst (renderFrame wasm w))) = true /\
    forallb well_typed (new_effects w (fst (handleResize wasm w))) = true /\
    forallb well_typed (new_effects w (fst (handleMouseMove wasm move w))) = true /\
    forallb well_typed (new_effects w (fst (handleWheel wasm wheel w))) = true /\
    forallb well_typed (new_effects w (fst (handleFileUpload wasm selected w))) = true.
Proof.
  intros E wasm w move wheel selected.
  assert (H : forall (m : World E -> World E * Completion unit),
             typed m -> forallb well_typed (new_effects w (fst (m w))) = true).
  { intros m Hm. destruct (Hm w) as (evs & Hlog & Ht).
    rewrite (new_effects_app w _ evs Hlog). exact Ht. }
  repeat split; apply H.
  - apply typed_renderFrame.
  - apply typed_handleResize.
  - apply typed_handleMouseMove.
  - apply typed_handleWheel.
  - apply typed_handleFileUpload.
Qed.

(** * Further properties of the component *)

(** Resizing: the canvas takes the size of its container (converted to
    [unsigned long]), the engine is told the container's size, and a
    frame is rendered and drawn. *)
Theorem handleResize_forwards_container_size :
  forall (E : Type) (wasm : VolumeViewerWasm E) (w : World E) (eng eng1 eng2 : E)
         (canvas : Canvas) (container : DOMRect) (frame : list byte)
         (img : ImageData),
    viewer w = Some eng ->
    canvasRef w = Some canvas ->
    parentElement canvas = Some container ->
    context2d canvas = true ->
    resize wasm (rect_width container) (rect_height container) eng
      = (eng1, Return tt) ->
    render wasm eng1 = (eng2, Return frame) ->
    new_ImageData frame (to_unsigned_long (rect_width container))
                  (to_unsigned_long (rect_height container)) = Return img ->
    let w' := fst (handleResize wasm w) in
    new_effects w w'
      = [Call m_resize [JNumber (rect_width container); JNumber (rect_height container)];
         Call m_render [];
         PutImageData img] /\
    canvasRef w' = Some (size_canvas canvas (rect_width container) (rect_height container)) /\
    viewer w' = Some eng2.
Proof.
  intros E wasm w eng eng1 eng2 canvas container frame img
         Hv Hc Hp Hctx Hresize Hrender Himg.
  assert (Hrun : handleResize wasm w
                 = ({| viewer := Some eng2; state := state w;
                       canvasRef := Some (size_canvas canvas (rect_width container)
                                                      (rect_height container));
                       animationFrameRef := animationFrameRef w;
                       log := log w ++
                              [Call m_resize [JNumber (rect_width container);
                                              JNumber (rect_height container)];
                               Call m_render [];
                               PutImageData img] |}, Return tt)).
  { unfold handleResize. rewrite Hv, Hc, Hp.
    run_host. rewrite Hv, Hresize.
    cbn [viewer state canvasRef animationFrameRef log fst snd
         size_canvas context2d canvas_width canvas_height].
    rewrite Hctx. cbn [viewer state canvasRef animationFrameRef log fst snd].
    rewrite Hrender. cbn [viewer state canvasRef animationFrameRef log fst snd].
    rewrite Himg.
    cbn [viewer state canvasRef animationFrameRef log fst snd].
    rewrite <- !app_assoc. reflexivity. }
  rewrite Hrun. cbn [fst canvasRef viewer].
  split; [|auto]. apply new_effects_app. reflexivity.
Qed.

(** A drag with a button other than the primary and the secondary one
    moves nothing: the engine is at most asked to render. *)
Theorem other_button_drag_only_renders :
  forall (E : Type) (wasm : VolumeViewerWasm E) (w : World E) (e : MouseEvent),
    isDragging (state w) = true ->
    button_is (mouseButton (state w)) 0%float = false ->
    button_is (mouseButton (state w)) 2%float = false ->
    let evs := new_effects w (fst (handleMouseMove wasm e w)) in
    calls_of m_orbit evs = [] /\ calls_of m_pan evs = [] /\
    calls_of m_zoom evs = [] /\ calls_of m_load_volume evs = [].
Proof.
  intros E wasm w e Hdrag H0 H2 evs.
  assert (Hevs : evs = [] \/
                 exists revs, evs = revs /\ calls_of m_zoom revs = [] /\
                              calls_of m_pan revs = [] /\ calls_of m_orbit revs = [] /\
                              calls_of m_load_volume revs = []).
  { unfold evs, handleMouseMove. rewrite Hdrag. cbn [negb].
    destruct (viewer w) as [eng|] eqn:Hw;
      [|left; cbn [fst]; apply new_effects_none].
    right. unfold try_catch, bind. rewrite H0, H2. unfold ret at 1, setState at 1.
    cbn [viewer state canvasRef animationFrameRef log fst snd].
    use_renderFrame. cbn [fst log] in *.
    exists evs0. split; [apply new_effects_app, Hlog | auto]. }
  destruct Hevs as [-> | (revs & -> & Hz & Hp & Ho & Hl)]; auto.
Qed.

(** Pressing a button starts a drag that records the button and the
    position and clears the error banner; releasing it ends the drag,
    after which moving the pointer does nothing. *)
Theorem drag_begins_and_ends :
  forall (E : Type) (wasm : VolumeViewerWasm E) (w : World E)
         (down move : MouseEvent),
    let pressed := fst (handleMouseDown (E := E) down w) in
    let released := fst (handleMouseUp (E := E) pressed) in
    isDragging (state pressed) = true /\
    mouseButton (state pressed) = Some (button down) /\
    lastMousePos (state pressed) = {| x := clientX down; y := clientY down |} /\
    error (state pressed) = None /\
    isDragging (state released) = false /\
    mouseButton (state released) = None /\
    handleMouseMove wasm move released = (released, Return tt).
Proof.
  intros E wasm w down move pressed released.
  unfold released, pressed, handleMouseDown, handleMouseUp, setState. cbn.
  repeat split.
Qed.

(** Without a selected file, or before the engine exists, the upload
    handler does nothing at all. *)
Theorem upload_without_file_or_engine_is_a_no_op :
  forall (E : Type) (wasm : VolumeViewerWasm E) (w : World E) (selected : option File),
    selected = None \/ viewer w = None ->
    handleFileUpload wasm selected w = (w, Return tt).
Proof.
  intros E wasm w selected [-> | Hv].
  - reflexivity.
  - apply handleFileUpload_no_viewer, Hv.
Qed.

(** * Properties of the engine model *)

Module EngineFacts.
Import Engine.

(** *** Slice Decoder *)

Lemma reorient_complete (o : option Orientation) (w h : positive) (slice : list Q) :
  List.length slice = Pos.to_nat (w * h) ->
  forall w' h' slice', reorient o w h slice = (w', h', slice') ->
  List.length slice' = Pos.to_nat (w' * h').
Proof.
  intros Hlen w' h' slice' H. unfold reorient in H.
  destruct o as [[| |]|]; injection H as <- <- <-;
    rewrite ?length_map, ?length_seq, ?Pos2Nat.inj_mul; lia.
Qed.

Lemma decode_page_complete (p : Page) (w h : positive) (slice : list Q) :
  decode_page p = inr (w, h, slice) ->
  List.length slice = Pos.to_nat (w * h).
Proof.
  unfold decode_page. intros H.
  destruct (negb (samples_per_pixel p =? 1)%N); [discriminate|].
  destruct (max_sample (bits_per_sample p)) as [top|]; [|discriminate].
  destruct (negb _) eqn:Hn in H; [discriminate|].
  apply negb_false_iff, Nat.eqb_eq in Hn.
  injection H as H. eapply reorient_complete; [|exact H].
  rewrite length_map. exact Hn.
Qed.

Lemma stack_pages_complete (o : option Orientation) (pages : list Page) :
  forall (w h d : positive) (gathered : list Q) (v : Volume),
    List.length gathered = Pos.to_nat (w * h * d) ->
    stack_pages o w h d gathered pages = inr v ->
    complete v /\ width v = w /\ height v = h /\
    Pos.to_nat (depth v) = (Pos.to_nat d + List.length pages)%nat.
Proof.
  induction pages as [|p rest IH]; intros w h d gathered v Hlen H; cbn [stack_pages] in H.
  - injection H as <-. unfold complete. cbn. repeat split; auto.
  - destruct (decode_page p) as [e|[[pw ph] slice]] eqn:Hp; [discriminate|].
    destruct (_ && _) eqn:Hsame in H; [|discriminate].
    apply andb_true_iff in Hsame. destruct Hsame as [Hsame _].
    apply andb_true_iff in Hsame. destruct Hsame as [Hw Hh].
    apply Pos.eqb_eq in Hw, Hh. subst pw ph.
    apply decode_page_complete in Hp.
    apply IH in H.
    + destruct H as (Hc & Hw & Hh & Hd). repeat split; auto.
      rewrite Hd, Pos2Nat.inj_succ. cbn [List.length]. lia.
    + rewrite length_app, Hlen, Hp, !Pos2Nat.inj_mul, Pos2Nat.inj_succ. lia.
Qed.

(** A successful decode yields a complete Volume with one slice per page
    of the container. *)
Lemma decode_complete (cfg : Config) (bytes : list byte) (v : Volume) :
  decode cfg bytes = inr v ->
  complete v /\
  exists pages, read_container cfg bytes = Some pages /\
                Pos.to_nat (depth v) = List.length pages.
Proof.
  unfold decode. intros H.
  destruct (read_container cfg bytes) as [[|p rest]|] eqn:Hr; try discriminate.
  destruct (decode_page p) as [e|[[w h] slice]] eqn:Hp; [discriminate|].
  apply decode_page_complete in Hp.
  apply stack_pages_complete in H; [|rewrite Pos.mul_1_r; exact Hp].
  destruct H as (Hc & _ & _ & Hd). split; [exact Hc|].
  exists (p :: rest). split; [reflexivity|]. rewrite Hd. cbn. lia.
Qed.


(** *** Frame Buffer *)

Lemma store_length (buffer : list byte) :
  forall at_ bytes, List.length (store buffer at_ bytes) = List.length buffer.
Proof.
  induction buffer as [|b buffer IH]; intros at_ bytes; cbn [store]; auto.
  destruct at_ as [|at']; [destruct bytes|]; cbn [List.length]; auto.
Qed.

Lemma store_nth_written (d : byte) (buffer : list byte) :
  forall at_ bytes k,
    (at_ + k < List.length buffer)%nat -> (k < List.length bytes)%nat ->
    nth (at_ + k) (store buffer at_ bytes) d = nth k bytes d.
Proof.
  induction buffer as [|b buffer IH]; intros at_ bytes k Hb Hk; cbn [List.length] in Hb.
  - lia.
  - destruct at_ as [|at']; cbn [store].
    + destruct bytes as [|v bytes]; cbn [List.length] in Hk; [lia|].
      destruct k as [|k]; [reflexivity|].
      cbn [Nat.add nth]. apply (IH O bytes k); cbn [Nat.add]; lia.
    + cbn [Nat.add nth]. apply IH; lia.
Qed.

Lemma store_nth_kept (d : byte) (buffer : list byte) :
  forall at_ bytes i,
    (i < at_ \/ at_ + List.length bytes <= i)%nat ->
    nth i (store buffer at_ bytes) d = nth i buffer d.
Proof.
  induction buffer as [|b buffer IH]; intros at_ bytes i Hi; cbn [store]; auto.
  destruct at_ as [|at'].
  - destruct bytes as [|v bytes]; auto.
    cbn [List.length] in Hi. destruct i as [|i]; [lia|].
    cbn [nth]. apply IH. cbn [Nat.add]. lia.
  - destruct i as [|i]; [reflexivity|]. cbn [nth]. apply IH. lia.
Qed.

Lemma paint_cons colour i pixels buffer :
  paint colour (i :: pixels) buffer
  = paint colour pixels (store buffer (4 * i) (colour i)).
Proof. reflexivity. Qed.

Lemma paint_length colour pixels :
  forall buffer, List.length (paint colour pixels buffer) = List.length buffer.
Proof.
  induction pixels as [|i pixels IH]; intros buffer; [reflexivity|].
  rewrite paint_cons, IH. apply store_length.
Qed.

Lemma paint_kept (d : byte) colour pixels :
  (forall i, List.length (colour i) = 4%nat) ->
  forall buffer j c,
    ~ In j pixels -> (c < 4)%nat ->
    nth (4 * j + c) (paint colour pixels buffer) d = nth (4 * j + c) buffer d.
Proof.
  intros H4. induction pixels as [|i pixels IH]; intros buffer j c Hj Hc; [reflexivity|].
  rewrite paint_cons, IH by (auto; intros Hin; apply Hj; right; exact Hin).
  apply store_nth_kept. rewrite H4.
  assert (i <> j) by (intros ->; apply Hj; left; reflexivity). lia.
Qed.

Lemma paint_written (d : byte) colour pixels :
  (forall i, List.length (colour i) = 4%nat) ->
  forall buffer j c,
    In j pixels -> (4 * j + 4 <= List.length buffer)%nat -> (c < 4)%nat ->
    nth (4 * j + c) (paint colour pixels buffer) d = nth c (colour j) d.
Proof.
  intros H4. induction pixels as [|i pixels IH]; intros buffer j c Hj Hb Hc; [destruct Hj|].
  rewrite paint_cons. destruct (in_dec Nat.eq_dec j pixels) as [Hin|Hout].
  - apply IH; auto. rewrite store_length. exact Hb.
  - destruct Hj as [->|]; [|contradiction].
    rewrite paint_kept by auto.
    apply store_nth_written; rewrite ?H4; lia.
Qed.

Lemma render_length (cfg : Config) (s : State) :
  List.length (snd (render cfg s)) = List.length (frame_buffer s).
Proof. unfold render. cbn [snd]. apply paint_length. Qed.

Lemma render_pixel (cfg : Config) (s : State) (px py c : nat) :
  sized s ->
  (px < viewport_width (camera s))%nat -> (py < viewport_height (camera s))%nat ->
  (c < 4)%nat ->
  nth (4 * (py * viewport_width (camera s) + px) + c) (snd (render cfg s)) Byte.x00
  = nth c (pixel_bytes (shade cfg s px py)) Byte.x00.
Proof.
  unfold sized. intros Hs Hx Hy Hc. unfold render. cbn [snd].
  set (w := viewport_width (camera s)) in *.
  set (h := viewport_height (camera s)) in *.
  set (colour := fun i => pixel_bytes (shade cfg s (i mod w) (i / w))).
  change (fold_left _ _ _) with (paint colour (seq 0 (w * h)) (frame_buffer s)).
  assert (Hin : (py * w + px < w * h)%nat) by nia.
  rewrite paint_written; auto.
  - unfold colour.
    replace ((py * w + px) mod w)%nat with px.
    replace ((py * w + px) / w)%nat with py. reflexivity.
    + rewrite Nat.div_add_l by lia. rewrite Nat.div_small by lia. lia.
    + rewrite Nat.add_comm, Nat.Div0.mod_add. symmetry. apply Nat.mod_small. lia.
  - apply in_seq. lia.
  - rewrite Hs. nia.
Qed.

Lemma resize_sized (w h : nat) (s : State) : sized (resize w h s).
Proof. unfold sized, resize. cbn. apply repeat_length. Qed.

Lemma load_volume_frame (cfg : Config) (bytes : list byte) (s : State) :
  frame_buffer (fst (load_volume cfg bytes s)) = frame_buffer s /\
  camera (fst (load_volume cfg bytes s)) = camera s.
Proof. unfold load_volume. destruct (decode cfg bytes); auto. Qed.

(** Only [resize] changes the viewport, and every operation keeps the
    Frame Buffer at the viewport's size. *)
Lemma step_viewport (cfg : Config) (s : State) (op : Op) :
  is_resize op = false ->
  viewport_width (camera (step cfg s op)) = viewport_width (camera s) /\
  viewport_height (camera (step cfg s op)) = viewport_height (camera s) /\
  (sized s -> sized (step cfg s op)).
Proof.
  destruct op; cbn [is_resize]; intros H; try discriminate; cbn [step];
    try (unfold sized; cbn; auto; fail).
  - destruct (load_volume_frame cfg bytes s) as [Hf Hc].
    unfold sized. rewrite Hf, Hc. auto.
  - unfold sized. pose proof (render_length cfg s) as Hl.
    unfold render in *. cbn in *. rewrite Hl. auto.
Qed.

Lemma run_viewport (cfg : Config) (ops : list Op) :
  forall s, forallb (fun op => negb (is_resize op)) ops = true ->
  viewport_width (camera (run cfg ops s)) = viewport_width (camera s) /\
  viewport_height (camera (run cfg ops s)) = viewport_height (camera s) /\
  (sized s -> sized (run cfg ops s)).
Proof.
  induction ops as [|op ops IH]; intros s H; cbn in *; auto.
  apply andb_true_iff in H. destruct H as [Hop Hops].
  apply negb_true_iff in Hop.
  destruct (step_viewport cfg s op Hop) as (Hw & Hh & Hs).
  destruct (IH (step cfg s op) Hops) as (Hw' & Hh' & Hs').
  unfold run in *. rewrite Hw', Hh', Hw, Hh. auto.
Qed.

(** *** Camera *)

Lemma clamp_floor (lo hi v : Q) : (lo <= clamp lo hi v)%Q.
Proof. unfold clamp. apply Q.le_max_l. Qed.

Lemma step_far_enough (cfg : Config) (s : State) (op : Op) :
  far_enough cfg s -> far_enough cfg (step cfg s op).
Proof.
  unfold far_enough. destruct op; cbn [step]; intros H; cbn; auto.
  - destruct (load_volume_frame cfg bytes s) as [_ Hc]. rewrite Hc. exact H.
  - apply clamp_floor.
Qed.

Lemma run_far_enough (cfg : Config) (ops : list Op) :
  forall s, far_enough cfg s -> far_enough cfg (run cfg ops s).
Proof.
  induction ops as [|op ops IH]; intros s H; cbn; auto.
  apply IH, step_far_enough, H.
Qed.

End EngineFacts.

(** * The engine model against the specification's promises *)

Module EngineClaims.
Import Engine EngineFacts.

(** Claim C2.  After [resize w h], whatever the viewport and the Frame
    Buffer were before, and whatever operations other than [resize]
    follow, [render] returns a buffer of exactly [4 * w * h] bytes; the
    four bytes of the pixel in column [px] of row [py] start at offset
    [4 * (py * w + px)] (row-major from the top-left pixel) and are its
    red, green, blue and alpha channels, in this order. *)
Theorem render_after_resize_fills_viewport :
  forall (cfg : Config) (s : State) (w h : nat) (ops : list Op),
    forallb (fun op => negb (is_resize op)) ops = true ->
    let s' := run cfg ops (resize w h s) in
    let frame := snd (render cfg s') in
    List.length frame = (4 * w * h)%nat /\
    forall px py : nat,
      (px < w)%nat -> (py < h)%nat ->
      let first := (4 * (py * w + px))%nat in
      nth first frame Byte.x00 = red (shade cfg s' px py) /\
      nth (first + 1) frame Byte.x00 = green (shade cfg s' px py) /\
      nth (first + 2) frame Byte.x00 = blue (shade cfg s' px py) /\
      nth (first + 3) frame Byte.x00 = alpha (shade cfg s' px py).
Proof.
  intros cfg s w h ops Hops s' frame.
  destruct (run_viewport cfg ops (resize w h s) Hops) as (Hw & Hh & Hs).
  specialize (Hs (resize_sized w h s)).
  fold s' in Hw, Hh, Hs. cbn in Hw, Hh.
  split.
  - unfold frame. rewrite render_length. unfold sized in Hs.
    rewrite Hs, Hw, Hh. reflexivity.
  - intros px py Hx Hy first.
    assert (Hpix : forall c, (c < 4)%nat ->
              nth (first + c) frame Byte.x00
              = nth c (pixel_bytes (shade cfg s' px py)) Byte.x00).
    { intros c Hc. unfold first, frame. rewrite <- Hw.
      apply render_pixel; auto; lia. }
    rewrite <- (Nat.add_0_r first) at 1.
    rewrite !Hpix by lia. cbn. auto.
Qed.

(** Claim C6.  When [load_volume] fails, it is the decoder that failed,
    with one of the four error kinds, and the engine is exactly as
    before: a previously loaded Volume is still the active one.  No
    partial Volume is ever installed: if the Volume active before was
    complete, so is the one active after any further load, failed or
    not. *)
Theorem failed_load_keeps_previous_volume :
  forall (cfg : Config) (bytes : list byte) (s : State) (e : DecodeError),
    snd (load_volume cfg bytes s) = inl e ->
    decode cfg bytes = inl e /\
    (e = UnsupportedFormat \/ e = InconsistentDimensions \/
     e = EmptyVolume \/ e = CorruptInput) /\
    fst (load_volume cfg bytes s) = s /\
    (forall previous, volume s = Some previous ->
                      volume (fst (load_volume cfg bytes s)) = Some previous) /\
    (forall (more : list byte) (v : Volume),
        (forall v0, volume s = Some v0 -> complete v0) ->
        volume (fst (load_volume cfg more (fst (load_volume cfg bytes s)))) = Some v ->
        complete v).
Proof.
  intros cfg bytes s e H. unfold load_volume in *.
  destruct (decode cfg bytes) as [e'|v] eqn:Hd; cbn [fst snd] in *; [|discriminate].
  injection H as ->.
  split; [reflexivity|]. split; [destruct e; auto|]. split; [reflexivity|].
  split; [auto|].
  intros more v Hprev Hv.
  destruct (decode cfg more) as [e2|v2] eqn:Hd2; cbn [fst volume] in Hv.
  - apply Hprev, Hv.
  - injection Hv as <-. apply (decode_complete cfg more v2 Hd2).
Qed.

(** Claim C7.  With a positive minimum distance, a Camera that starts at
    or above it stays there under every sequence of facade operations
    (orbit, zoom, pan, resize, and also load and render): its distance is
    positive, and strictly above an epsilon that is positive and the
    same for all sequences.  In particular [zoom (-1)] applied [n] times
    leaves a positive distance, for every [n]. *)
Theorem distance_stays_above_floor :
  forall (cfg : Config) (s : State),
    (0 < min_distance cfg)%Q ->
    (min_distance cfg <= distance (camera s))%Q ->
    (forall ops : list Op,
        (min_distance cfg <= distance (camera (run cfg ops s)))%Q /\
        (0 < distance (camera (run cfg ops s)))%Q) /\
    (forall n : nat,
        (0 < distance (camera (Nat.iter n (zoom cfg (-1 # 1)) s)))%Q) /\
    (exists epsilon : Q,
        (0 < epsilon)%Q /\
        forall ops : list Op, (epsilon < distance (camera (run cfg ops s)))%Q).
Proof.
  intros cfg s Hpos Hs.
  assert (Hrun : forall ops, (min_distance cfg <= distance (camera (run cfg ops s)))%Q)
    by (intros ops; apply run_far_enough; exact Hs).
  split; [|split].
  - intros ops. split; [apply Hrun|].
    eapply Qlt_le_trans; [exact Hpos | apply Hrun].
  - intros n. eapply Qlt_le_trans; [exact Hpos|].
    destruct n as [|n]; [exact Hs|]. cbn [Nat.iter]. apply clamp_floor.
  - exists (min_distance cfg / (2 # 1))%Q. split.
    + apply Qlt_shift_div_l; [reflexivity|]. rewrite Qmult_0_l. exact Hpos.
    + intros ops. eapply Qlt_le_trans; [|apply Hrun].
      apply Qlt_shift_div_r; [reflexivity|]. lra.
Qed.

End EngineClaims.

(** * The interface between the component and the engine *)

Lemma renderFrame_effects {E} (wasm : VolumeViewerWasm E) (w : World E) :
  exists evs,
    log (fst (renderFrame wasm w)) = log w ++ evs /\
    (evs = [] \/ evs = [ConsoleError "Render error:"] \/
     (exists img, evs = [Call m_render []; PutImageData img]) \/
     evs = [Call m_render []; ConsoleError "Render error:"]) /\
    (canvasRef w = None -> evs = []).
Proof.
  run_host.
  destruct (viewer w) as [eng|] eqn:Hv;
    [|exists []; rewrite app_nil_r; auto].
  destruct (canvasRef w) as [canvas|];
    [|exists []; rewrite app_nil_r; auto].
  destruct (context2d canvas); cbn;
    [|eexists; split; [reflexivity|split; [auto|discriminate]]].
  rewrite Hv. destruct (render wasm eng) as [eng' [buf|t]]; cbn;
    [destruct (new_ImageData buf _ _); cbn|];
    rewrite <- ?app_assoc; cbn [app];
    (eexists; split; [reflexivity|split; [|discriminate]]); eauto 6.
Qed.

Lemma invalid_dimensions_spec (d : option (list number)) :
  invalid_dimensions d = true <-> forall a b c, d <> Some [a; b; c].
Proof.
  unfold invalid_dimensions. split.
  - intros H a b c ->. discriminate.
  - intros H. destruct d as [[|a [|b [|c [|x l]]]]|]; try reflexivity.
    exfalso. apply (H a b c). reflexivity.
Qed.

(** Claim C4.  In the engine model, whenever decoding succeeds
    [load_volume] returns exactly the three dimensions (width, height,
    depth) of the Volume it installs, which is complete and has one slice
    per page.  In the component, a [load_volume] result that is not a
    3-element array (null included) is a failure, with the error
    "Invalid volume dimensions received" and no dimensions; a 3-element
    result is stored as the dimensions when the resize that follows
    returns. *)
Theorem load_volume_returns_dimension_triple :
  (forall (cfg : Engine.Config) (bytes : list byte) (s : Engine.State)
          (v : Engine.Volume),
      Engine.decode cfg bytes = inr v ->
      snd (Engine.load_volume cfg bytes s)
        = inr [Engine.width v; Engine.height v; Engine.depth v] /\
      Engine.volume (fst (Engine.load_volume cfg bytes s)) = Some v /\
      Engine.complete v /\
      exists pages, Engine.read_container cfg bytes = Some pages /\
                    Pos.to_nat (Engine.depth v) = List.length pages) /\
  (forall (E : Type) (wasm : VolumeViewerWasm E) (w : World E) (file : File)
          (eng eng' : E) (bytes : list byte) (d : option (list number)),
      viewer w = Some eng ->
      not_tiff_name (file_name file) = false ->
      (file_size file <= 256 * 1024 * 1024)%N ->
      arrayBuffer file = Return bytes ->
      load_volume wasm bytes eng = (eng', Return d) ->
      let w' := fst (handleFileUpload wasm (Some file) w) in
      ((forall a b c, d <> Some [a; b; c]) ->
       error (state w') = Some "Invalid volume dimensions received"%string /\
       dimensions (state w') = None) /\
      (forall a b c,
          d = Some [a; b; c] ->
          (forall canvas container,
              canvasRef w = Some canvas -> parentElement canvas = Some container ->
              snd (resize wasm (rect_width container) (rect_height container) eng')
              = Return tt) ->
          dimensions (state w') = Some (a, b, c))).
Proof.
  split.
  - intros cfg bytes s v Hd. unfold Engine.load_volume. rewrite Hd. cbn.
    destruct (EngineFacts.decode_complete cfg bytes v Hd) as (Hc & Hp). auto.
  - intros E wasm w file eng eng' bytes d Hv Hname Hsize Hb Hload w'.
    assert (Hsize' : (MAX_FILE_SIZE <? file_size file)%N = false)
      by (apply N.ltb_ge; exact Hsize).
    split.
    + intros Hbad. apply invalid_dimensions_spec in Hbad.
      destruct (upload_body_invalid_dimensions wasm w file eng bytes
                  Hv Hname Hsize' Hb eng' d Hload Hbad) as (w1 & Hbody & _).
      assert (Hsome : viewer w <> None) by congruence.
      destruct (handleFileUpload_caught wasm w w1 file _ Hsome Hbody)
        as (He & Hdim & _).
      split; assumption.
    + intros a b c -> Hresize.
      apply (upload_accepts wasm w file eng bytes Hv Hname Hsize' Hb eng' a b c
               Hload Hresize).
Qed.

(** Claim C1 as stated fails: [pan] does not take two scalar arguments.
    A call with the two numbers 3 and 4 does not match the declared
    parameters, and on a secondary-button drag by (3, 4) the component
    passes one argument, the array [[3 * 0.1, 4 * 0.1]]. *)
Lemma pan_is_not_called_with_two_scalars :
  args_match [JNumber 3%float; JNumber 4%float]
             (params (VolumeViewerWasm_decl m_pan)) = false /\
  calls_of m_pan
    (new_effects secondary_drag
       (fst (handleMouseMove still_engine
               {| clientX := 3%float; clientY := 4%float; button := 2%float |}
               secondary_drag)))
  = [[JArray [JNumber (3 * 0.1)%float; JNumber (4 * 0.1)%float]]] /\
  ~ (exists deltaX deltaY,
        calls_of m_pan
          (new_effects secondary_drag
             (fst (handleMouseMove still_engine
                     {| clientX := 3%float; clientY := 4%float; button := 2%float |}
                     secondary_drag)))
        = [[JNumber deltaX; JNumber deltaY]]).
Proof.
  split; [reflexivity|]. split; [reflexivity|].
  intros (deltaX & deltaY & H). vm_compute in H. discriminate H.
Qed.

(** What a secondary-button drag does: one [pan] call, then at most one
    [render] call, whose frame is the only thing drawn. *)
Lemma pan_drag_effects {E} (wasm : VolumeViewerWasm E) (w : World E) (e : MouseEvent) :
  viewer w <> None ->
  isDragging (state w) = true ->
  mouseButton (state w) = Some 2%float ->
  exists rest,
    new_effects w (fst (handleMouseMove wasm e w))
    = Call m_pan
        [JArray [JNumber ((clientX e - x (lastMousePos (state w))) * 0.1)%float;
                 JNumber ((clientY e - y (lastMousePos (state w))) * 0.1)%float]]
      :: rest /\
    (rest = [] \/ (exists label, rest = [ConsoleError label]) \/
     (exists img, rest = [Call m_render []; PutImageData img]) \/
     (exists label, rest = [Call m_render []; ConsoleError label])) /\
    (canvasRef w = None -> rest = [] \/ exists label, rest = [ConsoleError label]).
Proof.
  intros Hv Hdrag Hbutton.
  destruct (viewer w) as [eng|] eqn:Hw; [clear Hv|congruence].
  unfold handleMouseMove, try_catch, bind.
  rewrite Hdrag, Hw, Hbutton.
  change (button_is (Some 2%float) 0%float) with false.
  change (button_is (Some 2%float) 2%float) with true. cbn iota.
  unfold call at 1. rewrite Hw.
  destruct (pan wasm _ eng) as [eng1 [[]|t]].
  - unfold setState at 1.
    cbn [viewer state canvasRef animationFrameRef log fst snd].
    match goal with |- context [renderFrame wasm ?w1] =>
      destruct (renderFrame_effects wasm w1) as (revs & Hlog & Hshape & Hnone);
      pose proof (renderFrame_returns wasm w1) as Hret;
      destruct (renderFrame wasm w1) as [w2 r] end.
    cbn [viewer state canvasRef animationFrameRef log fst snd negb] in *.
    subst r. exists revs. cbn [fst].
    split; [apply new_effects_app; rewrite Hlog, <- app_assoc; reflexivity|].
    split.
    + destruct Hshape as [-> | [-> | [[img ->] | ->]]]; eauto 6.
    + intros Hc. left. apply Hnone, Hc.
  - run_host. cbn [negb fst]. eexists.
    split; [apply new_effects_app; rewrite <- !app_assoc; reflexivity|].
    split; [right; left; eauto | intros _; right; eauto].
Qed.


(** Claim C1, amended.  The interface declares [pan] with one parameter,
    a pair [[deltaX, deltaY]] of numbers, and no return value; a call
    passing the pair matches the declaration and a call passing two
    numbers does not.  On a secondary-button drag the component calls
    [pan] once, with the scaled deltas as one array.  The call itself
    draws nothing: every frame drawn afterwards comes from a separate
    [render] call, and none is drawn when no canvas is mounted.  In the
    engine model [pan] forwards to the Camera and leaves the distance,
    the Volume and the Frame Buffer untouched. *)
Theorem pan_takes_one_pair_and_draws_nothing :
  VolumeViewerWasm_decl m_pan
  = {| params := [("delta"%string, TTuple [TNumber; TNumber])]; returns := TVoid |} /\
  (forall deltaX deltaY : number,
      args_match [JArray [JNumber deltaX; JNumber deltaY]]
                 (params (VolumeViewerWasm_decl m_pan)) = true /\
      args_match [JNumber deltaX; JNumber deltaY]
                 (params (VolumeViewerWasm_decl m_pan)) = false) /\
  (forall (E : Type) (wasm : VolumeViewerWasm E) (w : World E) (e : MouseEvent),
      viewer w <> None ->
      isDragging (state w) = true ->
      mouseButton (state w) = Some 2%float ->
      let deltaX := (clientX e - x (lastMousePos (state w)))%float in
      let deltaY := (clientY e - y (lastMousePos (state w)))%float in
      let evs := new_effects w (fst (handleMouseMove wasm e w)) in
      calls_of m_pan evs
        = [[JArray [JNumber (deltaX * 0.1)%float; JNumber (deltaY * 0.1)%float]]] /\
      (List.length (frames_of evs) <= List.length (calls_of m_render evs))%nat /\
      (canvasRef w = None -> frames_of evs = [])) /\
  (forall (delta : Q * Q) (s : Engine.State),
      Engine.camera (Engine.pan delta s)
        = Engine.camera_pan (fst delta) (snd delta) (Engine.camera s) /\
      Engine.distance (Engine.camera (Engine.pan delta s))
        = Engine.distance (Engine.camera s) /\
      Engine.volume (Engine.pan delta s) = Engine.volume s /\
      Engine.frame_buffer (Engine.pan delta s) = Engine.frame_buffer s).
Proof.
  split; [reflexivity|]. split; [intros; split; reflexivity|]. split.
  - intros E wasm w e Hv Hdrag Hbutton deltaX deltaY evs.
    destruct (pan_drag_effects wasm w e Hv Hdrag Hbutton) as (rest & Hevs & Hshape & Hnone).
    fold deltaX deltaY evs in Hevs. rewrite Hevs.
    destruct Hshape as [-> | [[label ->] | [[img ->] | [label ->]]]]; cbn;
      repeat split; auto; try lia.
    intros Hc. destruct (Hnone Hc) as [H | [label' H]]; discriminate H.
  - intros delta s. cbn. auto.
Qed.

(** * The properties above at concrete inputs *)

(** C10 on a wheel delta of 120. *)
Lemma handleWheel_zoom_step_at_ready_world :
  calls_of m_zoom
    (new_effects ready_world
       (fst (handleWheel still_engine {| deltaY := 120%float |} ready_world)))
  = [[JNumber 0.1%float]].
Proof.
  apply (proj1 (handleWheel_zoom_step unit still_engine ready_world
                  {| deltaY := 120%float |})).
  discriminate.
Defined.

(** C3 on a primary-button drag from (10, 20) to (14, 26). *)
Lemma interaction_is_followed_by_render_at_primary_drag :
  new_effects primary_drag
    (fst (handleMouseMove still_engine
            {| clientX := 14%float; clientY := 26%float; button := 0%float |}
            primary_drag))
  = [Call m_orbit [JNumber (4 * 0.005)%float; JNumber (6 * 0.005)%float];
     Call m_render [];
     PutImageData black_frame].
Proof.
  destruct (proj1 (interaction_is_followed_by_render unit still_engine primary_drag
                     tt small_canvas eq_refl eq_refl eq_refl)
                  {| clientX := 14%float; clientY := 26%float; button := 0%float |}
                  tt eq_refl eq_refl eq_refl) as (rest & Heffects & Hrest).
  rewrite Heffects.
  rewrite (Hrest tt (repeat Byte.x00 16) black_frame eq_refl eq_refl).
  reflexivity.
Defined.

(** C8 on a file named [scan.png]. *)
Lemma non_tiff_name_is_rejected_at_png :
  calls_of m_load_volume
    (new_effects loaded_world
       (fst (handleFileUpload table_engine
               (Some (tiff_file "scan.png" 1024 [Byte.x01])) loaded_world)))
  = [] /\
  error (state (fst (handleFileUpload table_engine
                       (Some (tiff_file "scan.png" 1024 [Byte.x01])) loaded_world)))
  = Some "Please select a TIFF file"%string.
Proof.
  assert (Hname : not_tiff_name "scan.png" = true) by reflexivity.
  apply not_tiff_name_spec in Hname. destruct Hname as [Htif Htiff].
  destruct (non_tiff_name_is_rejected_before_load (list byte) table_engine
              loaded_world (tiff_file "scan.png" 1024 [Byte.x01]) Htif Htiff)
    as (Hcalls & _ & Hstate).
  split; [exact Hcalls|]. apply Hstate. discriminate.
Defined.

(** C5 on a TIFF file of 300 MiB. *)
Lemma oversize_file_is_rejected_at_300_MiB :
  calls_of m_load_volume
    (new_effects loaded_world
       (fst (handleFileUpload table_engine
               (Some (tiff_file "scan.tif" (300 * 1024 * 1024) [Byte.x01]))
               loaded_world)))
  = [] /\
  error (state (fst (handleFileUpload table_engine
                       (Some (tiff_file "scan.tif" (300 * 1024 * 1024) [Byte.x01]))
                       loaded_world)))
  = Some "File size too large (max 256MB)"%string.
Proof.
  destruct (oversize_file_is_rejected_before_load (list byte) table_engine
              loaded_world (tiff_file "scan.tif" (300 * 1024 * 1024) [Byte.x01]))
    as (Hcalls & _ & Hstate).
  - reflexivity.
  - split; [exact Hcalls|]. apply Hstate; [discriminate | reflexivity].
Defined.

(** C9 on an empty TIFF file, which the engine rejects, while the
    dimensions 2 x 2 x 2 of an earlier volume are displayed. *)
Lemma failed_upload_forgets_dimensions_at_rejected_load :
  dimensions (state loaded_world) = Some (2, 2, 2)%float /\
  dimensions (state (fst (handleFileUpload table_engine
                            (Some (tiff_file "empty.tif" 0 [])) loaded_world)))
  = None /\
  (exists msg,
      error (state (fst (handleFileUpload table_engine
                           (Some (tiff_file "empty.tif" 0 [])) loaded_world)))
      = Some msg).
Proof.
  split; [reflexivity|].
  destruct (failed_upload_forgets_dimensions (list byte) table_engine loaded_world
              (tiff_file "empty.tif" 0 []) [Byte.x01] eq_refl) as (Hd & He & _).
  - right. right. left. exists [], [Byte.x01], OtherValue. split; reflexivity.
  - split; assumption.
Defined.

(** A resize of the ready component. *)
Lemma handleResize_at_ready_world :
  new_effects ready_world (fst (handleResize still_engine ready_world))
  = [Call m_resize [JNumber 2%float; JNumber 2%float];
     Call m_render [];
     PutImageData black_frame].
Proof.
  apply (proj1 (handleResize_forwards_container_size unit still_engine ready_world
                  tt tt tt small_canvas
                  {| rect_width := 2%float; rect_height := 2%float |}
                  (repeat Byte.x00 16) black_frame
                  eq_refl eq_refl eq_refl eq_refl eq_refl eq_refl eq_refl)).
Defined.

(** A middle-button drag. *)
Lemma middle_button_drag_only_renders :
  calls_of m_orbit
    (new_effects middle_drag
       (fst (handleMouseMove still_engine
               {| clientX := 5%float; clientY := 5%float; button := 1%float |}
               middle_drag)))
  = [].
Proof.
  apply (proj1 (other_button_drag_only_renders unit still_engine middle_drag
                  {| clientX := 5%float; clientY := 5%float; button := 1%float |}
                  eq_refl eq_refl eq_refl)).
Defined.

(** An upload event without a file. *)
Lemma upload_without_file_at_ready_world :
  handleFileUpload still_engine None ready_world = (ready_world, Return tt).
Proof.
  apply (upload_without_file_or_engine_is_a_no_op unit still_engine ready_world None).
  left. reflexivity.
Defined.

(** C1 (amended) on a secondary-button drag by (3, 4). *)
Lemma pan_takes_one_pair_at_secondary_drag :
  calls_of m_pan
    (new_effects secondary_drag
       (fst (handleMouseMove still_engine
               {| clientX := 3%float; clientY := 4%float; button := 2%float |}
               secondary_drag)))
  = [[JArray [JNumber (3 * 0.1)%float; JNumber (4 * 0.1)%float]]].
Proof.
  destruct pan_takes_one_pair_and_draws_nothing as (_ & _ & Hhost & _).
  destruct (Hhost unit still_engine secondary_drag
              {| clientX := 3%float; clientY := 4%float; button := 2%float |})
    as (Hcall & _).
  - discriminate.
  - reflexivity.
  - reflexivity.
  - exact Hcall.
Defined.

(** C4 on the two-page example file, and on a result of length 2. *)
Lemma load_volume_returns_dimension_triple_at_two_pages :
  snd (Engine.load_volume EngineExamples.example_config [Byte.x01]
         EngineExamples.example_state)
  = inr [2; 2; 2]%positive /\
  error (state (fst (handleFileUpload table_engine
                       (Some (tiff_file "short.tif" 1 [Byte.x02])) loaded_world)))
  = Some "Invalid volume dimensions received"%string.
Proof.
  destruct load_volume_returns_dimension_triple as (Hengine & Hhost).
  split.
  - destruct (Engine.decode EngineExamples.example_config [Byte.x01])
      as [e|v] eqn:Hd; [vm_compute in Hd; discriminate Hd|].
    destruct (Hengine EngineExamples.example_config [Byte.x01]
                EngineExamples.example_state v Hd) as (Hdims & _).
    rewrite Hdims. vm_compute in Hd. injection Hd as <-. reflexivity.
  - destruct (Hhost (list byte) table_engine loaded_world
                (tiff_file "short.tif" 1 [Byte.x02])
                [Byte.x01] [Byte.x01] [Byte.x02] (Some [2; 2]%float)
                eq_refl eq_refl) as (Hbad & _).
    + vm_compute. discriminate.
    + reflexivity.
    + reflexivity.
    + apply Hbad. intros a b c H. discriminate H.
Defined.

Module EngineInstances.
Import Engine EngineFacts EngineClaims EngineExamples.

(** C2 on a 2 x 2 viewport: 16 bytes, and the pixel in column 1 of row 0
    at offset 4. *)
Lemma render_after_resize_at_2_by_2 :
  List.length example_frame = 16%nat /\
  nth 4 example_frame Byte.x00 = Byte.xff /\
  nth 5 example_frame Byte.x00 = Byte.xff /\
  nth 6 example_frame Byte.x00 = Byte.x00 /\
  nth 7 example_frame Byte.x00 = Byte.xff.
Proof.
  destruct (render_after_resize_fills_viewport example_config example_state 2 2
              [OpLoad [Byte.x01]; OpZoom (1 # 10); OpRender] eq_refl) as (Hlen & Hpix).
  split; [exact Hlen|]. apply (Hpix 1%nat 0%nat); lia.
Defined.

(** C6 on a 3-channel file loaded after the two-page one. *)
Lemma failed_load_keeps_previous_volume_at_rgb :
  snd (load_volume example_config [Byte.x02] loaded_state) = inl UnsupportedFormat /\
  fst (load_volume example_config [Byte.x02] loaded_state) = loaded_state.
Proof.
  assert (H : snd (load_volume example_config [Byte.x02] loaded_state)
              = inl UnsupportedFormat) by reflexivity.
  split; [exact H|].
  apply (failed_load_keeps_previous_volume example_config [Byte.x02] loaded_state
           UnsupportedFormat H).
Defined.

(** C7 on five maximal zoom-ins of the example camera. *)
Lemma distance_stays_above_floor_at_example :
  (0 < distance (camera (Nat.iter 5 (zoom example_config (-1 # 1)) example_state)))%Q.
Proof.
  assert (Hpos : (0 < min_distance example_config)%Q) by reflexivity.
  assert (Hfar : (min_distance example_config <= distance (camera example_state))%Q)
    by (unfold Qle; cbn; lia).
  apply (proj1 (proj2 (distance_stays_above_floor example_config example_state
                         Hpos Hfar))).
Defined.

(** Each error kind is produced by some input, and none of them changes
    the loaded state. *)
Example decode_rejects :
  decode example_config [Byte.x02] = inl UnsupportedFormat /\
  decode example_config [Byte.x05] = inl UnsupportedFormat /\
  decode example_config [Byte.x03] = inl InconsistentDimensions /\
  decode example_config [Byte.x04] = inl EmptyVolume /\
  decode example_config [] = inl CorruptInput.
Proof. repeat split; reflexivity. Qed.

End EngineInstances.

(** * The rest of the component: start-up, failures and runs of events *)

(** ** Relations every handler keeps

    A relation between worlds that is reflexive and transitive, kept by
    every state update and canvas assignment, and kept by the effects a
    handler may add, is kept by the handler.  Cancelling an animation
    frame is the one effect that depends on the world: it only happens
    when [animationFrameRef] holds a truthy id. *)

Section Respects.

Context {E : Type} (wasm : VolumeViewerWasm E).
Variable R : World E -> World E -> Prop.
Variable allowed : Effect -> Prop.

Hypothesis R_refl : forall w, R w w.
Hypothesis R_trans : forall a b c, R a b -> R b c -> R a c.
Hypothesis R_setState : forall f w, R w (fst (setState f w)).
Hypothesis R_set_canvas : forall c w, R w (fst (set_canvas c w)).
Hypothesis R_emit : forall ev w, allowed ev -> R w (fst (emit ev w)).
Hypothesis R_call :
  forall A m args (method : E -> E * Completion A) w,
    allowed (Call m args) -> R w (fst (call m args method w)).
Hypothesis R_cancel :
  forall id w, animationFrameRef w = Some id -> truthy id = true ->
               R w (fst (emit (CancelAnimationFrame id) w)).

Lemma respects_silent {A} (m : World E -> World E * Completion A) :
  (forall w, fst (m w) = w) -> respects R m.
Proof. intros H w. rewrite H. apply R_refl. Qed.

Lemma respects_ret {A} (a : A) : respects R (ret (E := E) a).
Proof. apply respects_silent. reflexivity. Qed.

Lemma respects_throw {A} (t : Thrown) : respects R (throw (E := E) (A := A) t).
Proof. apply respects_silent. reflexivity. Qed.

Lemma respects_lift {A} (c : Completion A) : respects R (lift (E := E) c).
Proof. apply respects_silent. reflexivity. Qed.

Lemma respects_setState f : respects R (setState (E := E) f).
Proof. intros w. apply R_setState. Qed.

Lemma respects_set_canvas c : respects R (set_canvas (E := E) c).
Proof. intros w. apply R_set_canvas. Qed.

Lemma respects_emit ev : allowed ev -> respects R (emit (E := E) ev).
Proof. intros H w. apply R_emit, H. Qed.

Lemma respects_call {A} m args (method : E -> E * Completion A) :
  allowed (Call m args) -> respects R (call m args method).
Proof. intros H w. apply R_call, H. Qed.

Lemma respects_bind {A B} (m : Host (E := E) A) (k : A -> Host (E := E) B) :
  respects R m -> (forall a, respects R (k a)) -> respects R (bind m k).
Proof.
  intros Hm Hk w. unfold bind. specialize (Hm w).
  destruct (m w) as [w1 [a|t]]; cbn [fst] in *; [|exact Hm].
  eapply R_trans; [exact Hm | apply Hk].
Qed.

Lemma respects_try_catch {A} (body : Host (E := E) A)
    (handler : Thrown -> Host (E := E) A) :
  respects R body -> (forall t, respects R (handler t)) ->
  respects R (try_catch body handler).
Proof.
  intros Hm Hk w. unfold try_catch. specialize (Hm w).
  destruct (body w) as [w1 [a|t]]; cbn [fst] in *; [exact Hm|].
  eapply R_trans; [exact Hm | apply Hk].
Qed.

Lemma respects_try_finally {A} (body : Host (E := E) A) (cleanup : Host (E := E) unit) :
  respects R body -> respects R cleanup -> respects R (try_finally body cleanup).
Proof.
  intros Hm Hk w. unfold try_finally. specialize (Hm w).
  destruct (body w) as [w1 r]; cbn [fst] in *. specialize (Hk w1).
  destruct (cleanup w1) as [w2 [[]|t]]; cbn [fst] in *;
    eapply R_trans; eassumption.
Qed.

Lemma respects_choice {A} (m : World E -> World E * Completion A) :
  (forall w, exists m', respects R m' /\ m w = m' w) -> respects R m.
Proof. intros H w. destruct (H w) as (m' & Hm' & ->). apply Hm'. Qed.

Create HintDb respects_db.
#[local] Hint Resolve respects_ret respects_throw respects_lift respects_setState
  respects_set_canvas respects_emit respects_call : respects_db.

Ltac respects_step :=
  first [ solve [auto with respects_db]
        | apply respects_bind; [|intros ?]
        | apply respects_try_catch; [|intros ?]
        | apply respects_try_finally
        | match goal with |- respects _ (if ?c then _ else _) => destruct c end
        | match goal with |- respects _ (match ?c with _ => _ end) => destruct c end ].

Ltac idle := exists (ret tt); split; [apply respects_ret | reflexivity].

Lemma respects_renderFrame :
  (forall ev, render_effect ev -> allowed ev) -> respects R (renderFrame wasm).
Proof.
  intros Hok.
  assert (allowed (Call m_render [])) by (apply Hok; left; reflexivity).
  assert (forall img, allowed (PutImageData img))
    by (intros img; apply Hok; right; left; eauto).
  assert (allowed (ConsoleError "Render error:")) by (apply Hok; right; right; reflexivity).
  apply respects_choice. intros w. unfold renderFrame.
  destruct (viewer w); [destruct (canvasRef w) as [canvas|]|]; try idle.
  eexists. split; [|reflexivity]. repeat respects_step.
Qed.

Lemma respects_handleResize :
  (forall ev, resize_effect ev -> allowed ev) -> respects R (handleResize wasm).
Proof.
  intros Hok.
  assert (Hrender : respects R (renderFrame wasm))
    by (apply respects_renderFrame; intros ev H; apply Hok; right; right; exact H).
  assert (forall a b, allowed (Call m_resize [JNumber a; JNumber b]))
    by (intros a b; apply Hok; left; eauto).
  assert (allowed (ConsoleError "Resize error:")) by (apply Hok; right; left; reflexivity).
  apply respects_choice. intros w. unfold handleResize.
  destruct (viewer w);
    [destruct (canvasRef w) as [canvas|];
     [destruct (parentElement canvas) as [container|]|]|]; try idle.
  eexists. split; [|reflexivity]. cbv zeta. repeat respects_step.
Qed.

Lemma respects_handleMouseMove e :
  (forall ev, move_effect ev -> allowed ev) -> respects R (handleMouseMove wasm e).
Proof.
  intros Hok.
  assert (Hrender : respects R (renderFrame wasm))
    by (apply respects_renderFrame; intros ev H; apply Hok; right; right; right; exact H).
  assert (forall a b, allowed (Call m_orbit [JNumber a; JNumber b]))
    by (intros a b; apply Hok; left; eauto).
  assert (forall a b, allowed (Call m_pan [JArray [JNumber a; JNumber b]]))
    by (intros a b; apply Hok; right; left; eauto).
  assert (allowed (ConsoleError "Mouse move error:"))
    by (apply Hok; right; right; left; reflexivity).
  apply respects_choice. intros w. unfold handleMouseMove.
  destruct (negb (isDragging (state w))); [|destruct (viewer w)]; try idle.
  eexists. split; [|reflexivity]. cbv zeta. repeat respects_step.
Qed.

Lemma respects_handleWheel e :
  (forall ev, wheel_effect ev -> allowed ev) -> respects R (handleWheel wasm e).
Proof.
  intros Hok.
  assert (Hrender : respects R (renderFrame wasm))
    by (apply respects_renderFrame; intros ev H; apply Hok; right; right; right; exact H).
  assert (allowed (Call m_zoom [JNumber (wheel_step e)])).
  { apply Hok. unfold wheel_step.
    destruct (PrimFloat.ltb 0%float (deltaY e)); [left | right; left]; reflexivity. }
  assert (allowed (ConsoleError "Wheel error:"))
    by (apply Hok; right; right; left; reflexivity).
  apply respects_choice. intros w. unfold handleWheel.
  destruct (viewer w); try idle.
  eexists. split; [|reflexivity]. cbv zeta. repeat respects_step.
Qed.

Lemma respects_upload_body file :
  (forall ev, upload_effect ev -> ev <> ClearFileInput -> allowed ev) ->
  respects R (upload_body wasm file).
Proof.
  intros Hok.
  assert (Hrender : respects R (renderFrame wasm)).
  { apply respects_renderFrame. intros ev H. apply Hok.
    - right; right; right; right; exact H.
    - destruct H as [-> | [[img ->] | ->]]; discriminate. }
  assert (forall data, allowed (Call m_load_volume [JUint8Array data]))
    by (intros data; apply Hok; [left; eauto | discriminate]).
  assert (forall a b, allowed (Call m_resize [JNumber a; JNumber b]))
    by (intros a b; apply Hok; [right; left; eauto | discriminate]).
  unfold upload_body. repeat respects_step.
  - intros w. destruct (animationFrameRef w) as [id|] eqn:Hid;
      [destruct (truthy id) eqn:Ht|]; try apply R_refl.
    apply R_cancel; assumption.
  - apply respects_choice. intros w.
    destruct (canvasRef w) as [canvas|];
      [destruct (parentElement canvas) as [container|]|]; try idle.
    eexists. split; [|reflexivity]. cbv zeta. repeat respects_step.
Qed.

Lemma respects_handleFileUpload selected :
  (forall ev, upload_effect ev -> allowed ev) ->
  respects R (handleFileUpload wasm selected).
Proof.
  intros Hok.
  assert (Hbody : forall file, respects R (upload_body wasm file))
    by (intros file; apply respects_upload_body; auto).
  assert (allowed (ConsoleError "Error loading file:"))
    by (apply Hok; right; right; left; reflexivity).
  assert (allowed ClearFileInput)
    by (apply Hok; right; right; right; left; reflexivity).
  apply respects_choice. intros w. unfold handleFileUpload.
  destruct selected as [file|]; [destruct (viewer w)|]; try idle.
  eexists. split; [|reflexivity]. repeat respects_step.
Qed.

Lemma respects_dispatch ev :
  (forall eff, event_effect ev eff -> allowed eff) -> respects R (dispatch wasm ev).
Proof.
  intros Hok. destruct ev; cbn [dispatch event_effect] in *.
  - apply respects_setState.
  - apply respects_handleMouseMove, Hok.
  - apply respects_setState.
  - apply respects_setState.
  - apply respects_handleWheel, Hok.
  - apply respects_ret.
  - apply respects_handleResize, Hok.
  - destruct selected as [file|]; [apply respects_handleFileUpload, Hok|].
    apply respects_silent. reflexivity.
Qed.

Lemma respects_run_events evs :
  (forall ev eff, In ev evs -> event_effect ev eff -> allowed eff) ->
  forall w, R w (run_events wasm evs w).
Proof.
  induction evs as [|ev evs IH]; intros Hok w; cbn.
  - apply R_refl.
  - eapply R_trans.
    + apply (respects_dispatch ev). intros eff. apply Hok. left. reflexivity.
    + apply IH. intros ev' eff Hin. apply Hok. right. exact Hin.
Qed.

End Respects.

(** ** What a handler leaves alone *)

(** [renderFrame] changes nothing of the component's state but the error. *)
Lemma renderFrame_footprint {E} (wasm : VolumeViewerWasm E) (w : World E) :
  isLoading (state (fst (renderFrame wasm w))) = isLoading (state w) /\
  isDragging (state (fst (renderFrame wasm w))) = isDragging (state w) /\
  lastMousePos (state (fst (renderFrame wasm w))) = lastMousePos (state w) /\
  mouseButton (state (fst (renderFrame wasm w))) = mouseButton (state w) /\
  dimensions (state (fst (renderFrame wasm w))) = dimensions (state w) /\
  canvasRef (fst (renderFrame wasm w)) = canvasRef w.
Proof.
  run_host.
  destruct (viewer w) as [eng|] eqn:Hv; [|repeat split].
  destruct (canvasRef w) as [canvas|] eqn:Hc; [|repeat split; exact Hc].
  destruct (context2d canvas); cbn; [|repeat split; auto].
  rewrite Hv. destruct (render wasm eng) as [eng' [buf|t]]; cbn; [|repeat split; auto].
  destruct (new_ImageData buf _ _); cbn; repeat split; auto.
Qed.

Ltac with_renderFrame :=
  match goal with
  | |- context [renderFrame ?wasm ?w1] =>
      let Hret := fresh "Hret" in
      let Hl := fresh "Hloading" in
      let Hd := fresh "Hdragging" in
      let Hp := fresh "Hpos" in
      let Hb := fresh "Hbutton" in
      let Hdim := fresh "Hdims" in
      let Hc := fresh "Hcanvas" in
      let w2 := fresh "w" in
      let r := fresh "r" in
      destruct (renderFrame_footprint wasm w1) as (Hl & Hd & Hp & Hb & Hdim & Hc);
      pose proof (renderFrame_returns wasm w1) as Hret;
      destruct (renderFrame wasm w1) as [w2 r];
      cbn [fst snd viewer state canvasRef animationFrameRef log
           isLoading isDragging lastMousePos mouseButton dimensions error]
        in Hl, Hd, Hp, Hb, Hdim, Hc, Hret;
      subst r
  end.

(** Keeps one copy of the term [t] in the goal while it is unfolded. *)
Ltac focus_on t :=
  pattern t;
  match goal with |- ?P _ => let Q := fresh "Q" in set (Q := P) end.

Ltac unfocus :=
  match goal with Q := _ |- _ => subst Q end;
  cbn beta;
  cbn [fst snd viewer state canvasRef animationFrameRef log
       isLoading isDragging lastMousePos mouseButton dimensions error].

Lemma handleMouseMove_footprint {E} (wasm : VolumeViewerWasm E) (w : World E) e :
  isLoading (state (fst (handleMouseMove wasm e w))) = isLoading (state w) /\
  mouseButton (state (fst (handleMouseMove wasm e w))) = mouseButton (state w) /\
  dimensions (state (fst (handleMouseMove wasm e w))) = dimensions (state w).
Proof.
  focus_on (fst (handleMouseMove wasm e w)).
  unfold handleMouseMove.
  destruct (negb (isDragging (state w))); [unfocus; repeat split|].
  destruct (viewer w) as [eng|] eqn:Hv; [|unfocus; repeat split].
  unfold try_catch, bind.
  destruct (button_is (mouseButton (state w)) 0%float);
    [|destruct (button_is (mouseButton (state w)) 2%float)].
  - unfold call at 1. rewrite Hv.
    destruct (orbit wasm _ _ eng) as [eng1 [[]|t]].
    + unfold setState at 1. cbn [viewer state canvasRef animationFrameRef log fst snd].
      with_renderFrame. unfocus. rewrite Hloading, Hbutton, Hdims. repeat split.
    + unfocus. cbn. repeat split.
  - unfold call at 1. rewrite Hv.
    destruct (pan wasm _ eng) as [eng1 [[]|t]].
    + unfold setState at 1. cbn [viewer state canvasRef animationFrameRef log fst snd].
      with_renderFrame. unfocus. rewrite Hloading, Hbutton, Hdims. repeat split.
    + unfocus. cbn. repeat split.
  - unfold ret at 1, setState at 1.
    cbn [viewer state canvasRef animationFrameRef log fst snd].
    with_renderFrame. unfocus. rewrite Hloading, Hbutton, Hdims. repeat split.
Qed.

Lemma handleWheel_footprint {E} (wasm : VolumeViewerWasm E) (w : World E) e :
  isLoading (state (fst (handleWheel wasm e w))) = isLoading (state w) /\
  isDragging (state (fst (handleWheel wasm e w))) = isDragging (state w) /\
  lastMousePos (state (fst (handleWheel wasm e w))) = lastMousePos (state w) /\
  mouseButton (state (fst (handleWheel wasm e w))) = mouseButton (state w) /\
  dimensions (state (fst (handleWheel wasm e w))) = dimensions (state w).
Proof.
  focus_on (fst (handleWheel wasm e w)).
  unfold handleWheel.
  destruct (viewer w) as [eng|] eqn:Hv; [|unfocus; repeat split].
  unfold try_catch, bind. unfold call at 1. rewrite Hv.
  destruct (zoom wasm _ eng) as [eng1 [[]|t]].
  - cbn [viewer state canvasRef animationFrameRef log fst snd].
    with_renderFrame. unfocus.
    rewrite Hloading, Hdragging, Hpos, Hbutton, Hdims. repeat split.
  - unfocus. cbn. repeat split.
Qed.

Lemma handleResize_footprint {E} (wasm : VolumeViewerWasm E) (w : World E) :
  isLoading (state (fst (handleResize wasm w))) = isLoading (state w) /\
  isDragging (state (fst (handleResize wasm w))) = isDragging (state w) /\
  lastMousePos (state (fst (handleResize wasm w))) = lastMousePos (state w) /\
  mouseButton (state (fst (handleResize wasm w))) = mouseButton (state w) /\
  dimensions (state (fst (handleResize wasm w))) = dimensions (state w).
Proof.
  focus_on (fst (handleResize wasm w)).
  unfold handleResize.
  destruct (viewer w) as [eng|] eqn:Hv; [|unfocus; repeat split].
  destruct (canvasRef w) as [canvas|]; [|unfocus; repeat split].
  destruct (parentElement canvas) as [container|]; [|unfocus; repeat split].
  unfold try_catch, bind, set_canvas. unfold call at 1.
  cbn [viewer state canvasRef animationFrameRef log fst snd]. rewrite Hv.
  destruct (resize wasm _ _ eng) as [eng1 [[]|t]].
  - cbn [viewer state canvasRef animationFrameRef log fst snd].
    with_renderFrame. unfocus.
    rewrite Hloading, Hdragging, Hpos, Hbutton, Hdims. repeat split.
  - unfocus. cbn. repeat split.
Qed.

Lemma valid_dimensions_triple (d : option (list number)) :
  invalid_dimensions d = false -> exists a b c, d = Some [a; b; c].
Proof.
  destruct d as [[|a [|b [|c [|x l]]]]|]; cbn; try discriminate. eauto.
Qed.

(** How the [try] block of the upload handler ends: when it returns, the
    loading flag is off and the dimensions are set; either way the drag
    is left alone. *)
Lemma upload_body_outcome {E} (wasm : VolumeViewerWasm E) (w : World E) (file : File) :
  let w1 := fst (upload_body wasm file w) in
  isDragging (state w1) = isDragging (state w) /\
  lastMousePos (state w1) = lastMousePos (state w) /\
  mouseButton (state w1) = mouseButton (state w) /\
  (forall u, snd (upload_body wasm file w) = Return u ->
             isLoading (state w1) = false /\ dimensions (state w1) <> None).
Proof.
  cbv zeta. focus_on (upload_body wasm file w).
  unfold upload_body, bind, call, lift, emit, setState, set_canvas, throw, ret.
  cbn [viewer state canvasRef animationFrameRef log fst snd].
  destruct (not_tiff_name (file_name file));
    [unfocus; repeat split; intros; congruence|].
  destruct (MAX_FILE_SIZE <? file_size file)%N;
    [unfocus; repeat split; intros; congruence|].
  destruct (animationFrameRef w) as [id|];
    cbn [viewer state canvasRef animationFrameRef log fst snd];
    [destruct (truthy id)|];
    cbn [viewer state canvasRef animationFrameRef log fst snd];
    (destruct (arrayBuffer file) as [bytes|t];
     [|unfocus; repeat split; intros; congruence]);
    (destruct (viewer w) as [eng|];
     [|unfocus; repeat split; intros; congruence]);
    (destruct (load_volume wasm bytes eng) as [eng' [d|t]];
     cbn [viewer state canvasRef animationFrameRef log fst snd];
     [|unfocus; repeat split; intros; congruence]);
    (destruct (invalid_dimensions d) eqn:Hd;
     [unfocus; repeat split; intros; congruence|]);
    destruct (valid_dimensions_triple d Hd) as (a & b & c & ->);
    cbn [as_triple viewer state canvasRef animationFrameRef log fst snd];
    (destruct (canvasRef w) as [canvas|];
     [destruct (parentElement canvas) as [container|];
      [destruct (resize wasm (rect_width container) (rect_height container) eng')
         as [eng2 [[]|t]];
       cbn [viewer state canvasRef animationFrameRef log fst snd];
       [|unfocus; repeat split; intros; congruence]|]|]);
    with_renderFrame; unfocus;
    rewrite Hloading, Hdragging, Hpos, Hbutton, Hdims;
    repeat split; intros; congruence.
Qed.

(** ** Any sequence of events *)

Lemma event_effect_is_no_cancel ev eff :
  event_effect ev eff -> forall id, eff <> CancelAnimationFrame id.
Proof.
  assert (Hr : forall e, render_effect e -> forall id, e <> CancelAnimationFrame id).
  { intros e [-> | [[img ->] | ->]] id; discriminate. }
  destruct ev; cbn [event_effect]; try contradiction.
  - intros [(a & b & ->) | [(a & b & ->) | [-> | H]]] id; try discriminate.
    apply Hr, H.
  - intros [-> | [-> | [-> | H]]] id; try discriminate. apply Hr, H.
  - intros [(a & b & ->) | [-> | H]] id; try discriminate. apply Hr, H.
  - destruct selected as [file|]; [|contradiction].
    intros [(a & ->) | [(a & b & ->) | [-> | [-> | H]]]] id; try discriminate.
    apply Hr, H.
Qed.

(** No event replaces or drops the engine, and none assigns
    [animationFrameRef].  The component creates that ref undefined
    ([useRef<number>()]), so no animation frame is ever cancelled: not by
    an upload, and not by the clean-up when the component goes away. *)
Theorem events_keep_the_engine_and_cancel_no_frame :
  forall (E : Type) (wasm : VolumeViewerWasm E) (evs : list UIEvent) (w : World E),
    let w' := run_events wasm evs w in
    (viewer w' = None <-> viewer w = None) /\
    animationFrameRef w' = animationFrameRef w /\
    (animationFrameRef w = None ->
     (forall id, ~ In (CancelAnimationFrame id) (new_effects w w')) /\
     unmount w' = (w', Return tt)).
Proof.
  intros E wasm evs w w'.
  assert (H1 : (viewer w' = None <-> viewer w = None) /\
               animationFrameRef w' = animationFrameRef w).
  { apply (respects_run_events wasm
             (fun a b => (viewer b = None <-> viewer a = None) /\
                         animationFrameRef b = animationFrameRef a)
             (fun _ => True)); try (intros; cbn; tauto).
    - intros a b c [Hv1 Hr1] [Hv2 Hr2]. split; [tauto | congruence].
    - intros A m args method a _. unfold call.
      destruct (viewer a) eqn:Ha; [destruct (method e)|]; cbn; rewrite ?Ha;
        split; try tauto; split; discriminate. }
  destruct H1 as [Hv Hr]. split; [exact Hv|]. split; [exact Hr|].
  intros Hnone.
  assert (H2 : animationFrameRef w' = animationFrameRef w /\
               (animationFrameRef w = None ->
                exists effs, log w' = log w ++ effs /\
                             forall id, ~ In (CancelAnimationFrame id) effs)).
  { apply (respects_run_events wasm
             (fun a b => animationFrameRef b = animationFrameRef a /\
                         (animationFrameRef a = None ->
                          exists effs, log b = log a ++ effs /\
                                       forall id, ~ In (CancelAnimationFrame id) effs))
             (fun eff => forall id, eff <> CancelAnimationFrame id)).
    - intros a. split; [reflexivity|]. intros _. exists []. rewrite app_nil_r. auto.
    - intros a b c [Hr1 H1] [Hr2 H2]. split; [congruence|]. intros Ha.
      destruct (H1 Ha) as (e1 & Hl1 & Hn1).
      destruct (H2 (eq_trans Hr1 Ha)) as (e2 & Hl2 & Hn2).
      exists (e1 ++ e2). rewrite Hl2, Hl1, <- app_assoc. split; [reflexivity|].
      intros id Hin. apply in_app_or in Hin. destruct Hin; [eapply Hn1 | eapply Hn2]; eauto.
    - intros f a. cbn. split; [reflexivity|]. intros _. exists []. rewrite app_nil_r. auto.
    - intros c a. cbn. split; [reflexivity|]. intros _. exists []. rewrite app_nil_r. auto.
    - intros eff a Hok. cbn. split; [reflexivity|]. intros _. exists [eff].
      split; [reflexivity|]. intros id [Heq|[]]. exact (Hok id Heq).
    - intros A m args method a _. unfold call.
      destruct (viewer a); [destruct (method e)|]; cbn; (split; [reflexivity|]); intros _.
      + exists [Call m args]. split; [reflexivity|]. intros id [Heq|[]]. discriminate.
      + exists []. rewrite app_nil_r. auto.
    - intros id a Ha _. cbn. split; [reflexivity|]. intros Hn. congruence.
    - intros ev eff _ Heff. eapply event_effect_is_no_cancel, Heff. }
  destruct H2 as [_ H2]. destruct (H2 Hnone) as (effs & Hlog & Hno).
  split.
  - rewrite (new_effects_app w w' effs Hlog). exact Hno.
  - unfold unmount. rewrite Hr, Hnone. reflexivity.
Qed.

(** Before the engine exists, events only do the drag bookkeeping: the
    log, the canvas, the dimensions and the loading flag stay as they
    are, and no engine appears. *)
Theorem without_engine_events_only_track_the_drag :
  forall (E : Type) (wasm : VolumeViewerWasm E) (evs : list UIEvent) (w : World E),
    viewer w = None ->
    let w' := run_events wasm evs w in
    viewer w' = None /\ log w' = log w /\ canvasRef w' = canvasRef w /\
    dimensions (state w') = dimensions (state w) /\
    isLoading (state w') = isLoading (state w).
Proof.
  intros E wasm evs. induction evs as [|ev evs IH]; intros w Hv; cbn zeta.
  - cbn. auto.
  - cbn [run_events fold_left]. fold (run_events wasm evs (fst (dispatch wasm ev w))).
    assert (Hstep : viewer (fst (dispatch wasm ev w)) = None /\
                    log (fst (dispatch wasm ev w)) = log w /\
                    canvasRef (fst (dispatch wasm ev w)) = canvasRef w /\
                    dimensions (state (fst (dispatch wasm ev w))) = dimensions (state w) /\
                    isLoading (state (fst (dispatch wasm ev w))) = isLoading (state w)).
    { destruct ev; cbn [dispatch];
        unfold handleMouseDown, handleMouseUp, handleMouseMove, handleWheel,
          handleResize, handleContextMenu, setState, ret;
        rewrite ?handleFileUpload_no_viewer by exact Hv;
        rewrite ?Hv; cbn; auto.
      destruct (negb (isDragging (state w))); cbn; auto. }
    destruct Hstep as (Hv1 & Hl1 & Hc1 & Hd1 & Hi1).
    destruct (IH _ Hv1) as (Hv2 & Hl2 & Hc2 & Hd2 & Hi2).
    repeat split; congruence.
Qed.

(** ** What a handler adds to the log *)

Section Appends.

Context {E : Type} (P : Effect -> Prop).

Lemma appends_refl (w : World E) : appends P w w.
Proof. exists []. rewrite app_nil_r. auto. Qed.

Lemma appends_trans (a b c : World E) : appends P a b -> appends P b c -> appends P a c.
Proof.
  intros (e1 & H1 & F1) (e2 & H2 & F2). exists (e1 ++ e2).
  rewrite H2, H1, <- app_assoc. split; [reflexivity|]. apply Forall_app. auto.
Qed.

Lemma appends_setState f (w : World E) : appends P w (fst (setState f w)).
Proof. exists []. cbn. rewrite app_nil_r. auto. Qed.

Lemma appends_set_canvas c (w : World E) : appends P w (fst (set_canvas c w)).
Proof. exists []. cbn. rewrite app_nil_r. auto. Qed.

Lemma appends_emit ev (w : World E) : P ev -> appends P w (fst (emit ev w)).
Proof. intros H. exists [ev]. cbn. auto. Qed.

Lemma appends_call {A} m args (method : E -> E * Completion A) (w : World E) :
  P (Call m args) -> appends P w (fst (call m args method w)).
Proof.
  intros H. unfold call. destruct (viewer w) as [eng|]; [destruct (method eng)|]; cbn.
  - exists [Call m args]. auto.
  - apply appends_refl.
Qed.

End Appends.

(** A [try] whose [catch] only logs and sets the state returns. *)
Lemma caught_returns {E} (body : Host (E := E) unit) (label : string)
    (f : Thrown -> ViewerState -> ViewerState) (w : World E) :
  snd (try_catch body
         (fun error_ => bind (emit (ConsoleError label))
                             (fun _ => setState (f error_))) w) = Return tt.
Proof. unfold try_catch. destruct (body w) as [w1 [[]|t]]; reflexivity. Qed.

(** No handler lets an exception escape: whatever the engine, the
    canvas or the file do, every event handler returns, and so do
    [initViewer] and the clean-up on unmount. *)
Theorem no_handler_throws :
  forall (E : Type) (wasm : VolumeViewerWasm E) (w : World E),
    (forall ev, snd (dispatch wasm ev w) = Return tt) /\
    (forall imported, snd (initViewer imported w) = Return tt) /\
    snd (unmount w) = Return tt.
Proof.
  intros E wasm w. split; [|split].
  - intros [e|e| | |e| | |selected]; cbn [dispatch]; try reflexivity.
    + unfold handleMouseMove.
      destruct (negb (isDragging (state w))); [reflexivity|].
      destruct (viewer w); [|reflexivity].
      apply (caught_returns _ _
               (fun error_ prev =>
                  {| isLoading := isLoading prev;
                     error := Some (message_or "Mouse interaction failed" error_);
                     isDragging := false;
                     lastMousePos := lastMousePos prev;
                     mouseButton := mouseButton prev;
                     dimensions := dimensions prev |})).
    + unfold handleWheel. destruct (viewer w); [|reflexivity].
      apply (caught_returns _ _
               (fun error_ prev =>
                  {| isLoading := isLoading prev;
                     error := Some (message_or "Zoom failed" error_);
                     isDragging := isDragging prev;
                     lastMousePos := lastMousePos prev;
                     mouseButton := mouseButton prev;
                     dimensions := dimensions prev |})).
    + unfold handleResize. destruct (viewer w); [|reflexivity].
      destruct (canvasRef w) as [canvas|]; [|reflexivity].
      destruct (parentElement canvas) as [container|]; [|reflexivity].
      apply (caught_returns _ _
               (fun error_ prev =>
                  {| isLoading := isLoading prev;
                     error := Some (message_or "Resize failed" error_);
                     isDragging := isDragging prev;
                     lastMousePos := lastMousePos prev;
                     mouseButton := mouseButton prev;
                     dimensions := dimensions prev |})).
    + unfold handleFileUpload. destruct selected as [file|]; [|reflexivity].
      destruct (viewer w); [|reflexivity].
      unfold try_finally.
      pose proof (caught_returns (upload_body wasm file) "Error loading file:"
               (fun error_ prev =>
                  {| isLoading := false;
                     error := Some (message_or "Failed to load image" error_);
                     isDragging := isDragging prev;
                     lastMousePos := lastMousePos prev;
                     mouseButton := mouseButton prev;
                     dimensions := None |}) w) as Hc.
      destruct (try_catch _ _ w) as [w1 r]. cbn [snd] in Hc. subst r. reflexivity.
  - intros imported. unfold initViewer.
    apply (caught_returns _ _
             (fun error_ prev =>
                {| isLoading := false;
                   error := Some (message_or "Failed to initialize viewer" error_);
                   isDragging := isDragging prev;
                   lastMousePos := lastMousePos prev;
                   mouseButton := mouseButton prev;
                   dimensions := dimensions prev |})).
  - unfold unmount. destruct (animationFrameRef w) as [id|]; [|reflexivity].
    destruct (truthy id); reflexivity.
Qed.

Ltac appends_rules P :=
  first [ exact (appends_refl P) | exact (appends_trans P)
        | exact (appends_setState P) | exact (appends_set_canvas P)
        | intros; apply appends_emit; assumption
        | intros; apply appends_call; assumption ].

(** Each handler keeps to its own part of the interface: a pointer
    move calls nothing but [orbit], [pan] and [render]; a wheel event
    nothing but [zoom] (with 0.1 or -0.1) and [render]; a window resize
    nothing but [resize] and [render]; only a file selection calls
    [load_volume]; pressing or releasing a button, leaving the canvas
    and the context menu touch neither the engine nor the log.  The
    one effect outside these lists is the cancelling of a pending
    animation frame by an upload. *)
Theorem each_handler_keeps_to_its_own_calls :
  forall (E : Type) (wasm : VolumeViewerWasm E) (ev : UIEvent) (w : World E),
    appends (fun eff => event_effect ev eff \/
                        exists selected id, ev = FileChange selected /\
                                            eff = CancelAnimationFrame id)
            w (fst (dispatch wasm ev w)).
Proof.
  intros E wasm ev w.
  set (P := fun eff => event_effect ev eff \/
                       exists selected id, ev = FileChange selected /\
                                           eff = CancelAnimationFrame id).
  destruct ev as [e|e| | |e| | |selected]; cbn [dispatch];
    try (apply appends_refl); try (apply appends_setState).
  - apply (respects_handleMouseMove wasm (appends P) P); try appends_rules P.
    intros eff H. left. exact H.
  - apply (respects_handleWheel wasm (appends P) P); try appends_rules P.
    intros eff H. left. exact H.
  - apply (respects_handleResize wasm (appends P) P); try appends_rules P.
    intros eff H. left. exact H.
  - destruct selected as [file|]; [|apply appends_refl].
    apply (respects_handleFileUpload wasm (appends P) P); try appends_rules P.
    + intros id w0 _ _. apply appends_emit. right. eauto.
    + intros eff H. left. exact H.
Qed.

(** However an upload goes, once the engine exists and a file was
    chosen it comes to an end: the loading flag is off again, the file
    input has been cleared, exactly once and as the last thing done, the
    drag is as it was, and the component shows the dimensions or holds an
    error. *)
Theorem upload_always_settles :
  forall (E : Type) (wasm : VolumeViewerWasm E) (w : World E) (eng : E) (file : File),
    viewer w = Some eng ->
    let w' := fst (handleFileUpload wasm (Some file) w) in
    isLoading (state w') = false /\
    (exists effs, new_effects w w' = effs ++ [ClearFileInput] /\
                  ~ In ClearFileInput effs) /\
    isDragging (state w') = isDragging (state w) /\
    lastMousePos (state w') = lastMousePos (state w) /\
    mouseButton (state w') = mouseButton (state w) /\
    (dimensions (state w') = None -> exists msg, error (state w') = Some msg).
Proof.
  intros E wasm w eng file Hv w'.
  set (P := fun eff => eff <> ClearFileInput).
  assert (Hbody : appends P w (fst (upload_body wasm file w))).
  { apply (respects_upload_body wasm (appends P) P); try appends_rules P.
    - intros id w0 _ _. apply appends_emit. discriminate.
    - intros eff _ H. exact H. }
  destruct (upload_body_outcome wasm w file) as (Hdrag & Hpos & Hbutton & Hret).
  cbv zeta in *. subst w'. unfold handleFileUpload. rewrite Hv.
  unfold try_finally, try_catch.
  destruct (upload_body wasm file w) as [w1 [[]|t]];
    cbn [fst snd] in Hbody, Hdrag, Hpos, Hbutton, Hret;
    destruct Hbody as (effs & Hlog & Hall); rewrite Forall_forall in Hall.
  - destruct (Hret tt eq_refl) as [Hl Hd].
    cbn [emit fst state log]. repeat split; auto.
    + exists effs. split.
      * apply new_effects_app. cbn. rewrite Hlog, <- app_assoc. reflexivity.
      * intros Hin. exact (Hall _ Hin eq_refl).
    + intros Hn. contradiction.
  - cbn. repeat split; auto.
    + exists (effs ++ [ConsoleError "Error loading file:"]). split.
      * apply new_effects_app. cbn. rewrite Hlog, <- !app_assoc. reflexivity.
      * intros Hin. apply in_app_or in Hin. destruct Hin as [Hin|[Hin|[]]].
        -- exact (Hall _ Hin eq_refl).
        -- discriminate.
    + intros _. eauto.
Qed.

(** ** Drawing a frame *)



(** ** Engine calls that throw *)

(** When [zoom] throws, the wheel handler reports it and draws
    nothing: the failure goes to the console, its message (or "Zoom
    failed" when what was thrown is no [Error]) becomes the component's
    error, [render] is not called, and the drag is left as it is. *)
Theorem failed_zoom_is_reported_and_not_rendered :
  forall (E : Type) (wasm : VolumeViewerWasm E) (w : World E) (eng eng1 : E)
         (e : WheelEvent) (t : Thrown),
    viewer w = Some eng ->
    zoom wasm (wheel_step e) eng = (eng1, Throws t) ->
    handleWheel wasm e w
    = ({| viewer := Some eng1;
          state := {| isLoading := isLoading (state w);
                      error := Some (message_or "Zoom failed" t);
                      isDragging := isDragging (state w);
                      lastMousePos := lastMousePos (state w);
                      mouseButton := mouseButton (state w);
                      dimensions := dimensions (state w) |};
          canvasRef := canvasRef w;
          animationFrameRef := animationFrameRef w;
          log := log w ++ [Call m_zoom [JNumber (wheel_step e)];
                           ConsoleError "Wheel error:"] |}, Return tt).
Proof.
  intros E wasm w eng eng1 e t Hv Hz.
  unfold handleWheel. rewrite Hv.
  unfold try_catch, bind, call, emit, setState. cbv zeta. rewrite Hv, Hz.
  cbn [viewer state canvasRef animationFrameRef log fst snd].
  rewrite <- app_assoc. reflexivity.
Qed.

(** When [resize] throws, the canvas has already taken the
    container's size: the component is left with a canvas of the new size
    and an engine that refused it, no frame is rendered, and the failure
    is reported. *)
Theorem failed_resize_leaves_the_canvas_resized :
  forall (E : Type) (wasm : VolumeViewerWasm E) (w : World E) (eng eng1 : E)
         (canvas : Canvas) (container : DOMRect) (t : Thrown),
    viewer w = Some eng ->
    canvasRef w = Some canvas ->
    parentElement canvas = Some container ->
    resize wasm (rect_width container) (rect_height container) eng
      = (eng1, Throws t) ->
    handleResize wasm w
    = ({| viewer := Some eng1;
          state := {| isLoading := isLoading (state w);
                      error := Some (message_or "Resize failed" t);
                      isDragging := isDragging (state w);
                      lastMousePos := lastMousePos (state w);
                      mouseButton := mouseButton (state w);
                      dimensions := dimensions (state w) |};
          canvasRef := Some (size_canvas canvas (rect_width container)
                                         (rect_height container));
          animationFrameRef := animationFrameRef w;
          log := log w ++ [Call m_resize [JNumber (rect_width container);
                                          JNumber (rect_height container)];
                           ConsoleError "Resize error:"] |}, Return tt).
Proof.
  intros E wasm w eng eng1 canvas container t Hv Hc Hp Hr.
  unfold handleResize. rewrite Hv, Hc, Hp.
  unfold try_catch, bind, call, emit, setState, set_canvas. cbv zeta.
  cbn [viewer state canvasRef animationFrameRef log fst snd].
  rewrite Hv, Hr.
  cbn [viewer state canvasRef animationFrameRef log fst snd].
  rewrite <- app_assoc. reflexivity.
Qed.


(** ** A whole drag *)









(** ** Uploads *)

(** A file that cannot be read fails the upload before the engine is
    asked anything: the rejection of [file.arrayBuffer()] is caught and
    reported like any other failure. *)
Theorem unreadable_file_never_reaches_the_engine :
  forall (E : Type) (wasm : VolumeViewerWasm E) (w : World E) (eng : E)
         (file : File) (t : Thrown),
    viewer w = Some eng ->
    not_tiff_name (file_name file) = false ->
    (file_size file <= MAX_FILE_SIZE)%N ->
    arrayBuffer file = Throws t ->
    handleFileUpload wasm (Some file) w
    = ({| viewer := Some eng;
          state := {| isLoading := false;
                      error := Some (message_or "Failed to load image" t);
                      isDragging := isDragging (state w);
                      lastMousePos := lastMousePos (state w);
                      mouseButton := mouseButton (state w);
                      dimensions := None |};
          canvasRef := canvasRef w;
          animationFrameRef := animationFrameRef w;
          log := log w ++ cancel_effects w
                   ++ [ConsoleError "Error loading file:"; ClearFileInput] |},
       Return tt).
Proof.
  intros E wasm w eng file t Hv Hname Hsize Hbytes.
  apply N.ltb_ge in Hsize.
  unfold handleFileUpload. rewrite Hv.
  unfold upload_body, try_finally, try_catch, bind, call, lift, emit,
    setState, set_canvas, throw, ret, cancel_effects.
  rewrite Hname, Hsize, Hbytes.
  cbn [viewer state canvasRef animationFrameRef log fst snd].
  destruct (animationFrameRef w) as [id|];
    cbn [viewer state canvasRef animationFrameRef log fst snd];
    [destruct (truthy id)|];
    cbn [viewer state canvasRef animationFrameRef log fst snd app
         isLoading error isDragging lastMousePos mouseButton dimensions];
    rewrite <- ?app_assoc, ?Hv; reflexivity.
Qed.

Section UploadAfterLoad.

Context {E : Type} (wasm : VolumeViewerWasm E).
Variables (w : World E) (file : File) (eng eng1 : E) (bytes : list byte).
Variables (a b c : number) (canvas : Canvas) (container : DOMRect).
Hypothesis Hviewer : viewer w = Some eng.
Hypothesis Hname : not_tiff_name (file_name file) = false.
Hypothesis Hsize : (MAX_FILE_SIZE <? file_size file)%N = false.
Hypothesis Hbytes : arrayBuffer file = Return bytes.
Hypothesis Hload : load_volume wasm bytes eng = (eng1, Return (Some [a; b; c])).
Hypothesis Hcanvas : canvasRef w = Some canvas.
Hypothesis Hparent : parentElement canvas = Some container.

(** The [try] block up to the [resize] call, on a world that has a
    canvas in a container and an engine that accepts the file. *)
Lemma upload_body_up_to_resize :
  upload_body wasm file w
  = bind (call m_resize [JNumber (rect_width container); JNumber (rect_height container)]
               (resize wasm (rect_width container) (rect_height container)))
         (fun _ => renderFrame wasm)
         {| viewer := Some eng1;
            state := {| isLoading := false;
                        error := None;
                        isDragging := isDragging (state w);
                        lastMousePos := lastMousePos (state w);
                        mouseButton := mouseButton (state w);
                        dimensions := Some (a, b, c) |};
            canvasRef := Some (size_canvas canvas (rect_width container)
                                           (rect_height container));
            animationFrameRef := animationFrameRef w;
            log := log w ++ cancel_effects w
                     ++ [Call m_load_volume [JUint8Array bytes]] |}.
Proof.
  unfold upload_body, cancel_effects.
  unfold bind at 1 2 3 4 5 6 7 8. unfold lift, setState, throw, ret.
  rewrite Hname, Hsize, Hbytes.
  cbn [viewer state canvasRef animationFrameRef log fst snd].
  destruct (animationFrameRef w) as [id|];
    cbn [viewer state canvasRef animationFrameRef log fst snd];
    [destruct (truthy id)|];
    unfold emit; unfold call at 1;
    cbn [viewer state canvasRef animationFrameRef log fst snd];
    rewrite Hviewer, Hload;
    cbn [viewer state canvasRef animationFrameRef log fst snd
         invalid_dimensions List.length Nat.eqb negb as_triple];
    rewrite Hcanvas; unfold bind, set_canvas, call;
    cbn [viewer state canvasRef animationFrameRef log fst snd
         isLoading error isDragging lastMousePos mouseButton dimensions];
    rewrite Hparent;
    cbn [viewer state canvasRef animationFrameRef log fst snd app];
    rewrite <- ?app_assoc; reflexivity.
Qed.

End UploadAfterLoad.

(** When the engine accepts the file but then refuses the [resize]
    that follows, the upload counts as failed: the dimensions that
    had just been stored are dropped again and the failure is reported,
    although the engine went through with the load; the canvas has taken
    the container's size, and no frame is rendered. *)
Theorem failed_resize_after_load_fails_the_upload :
  forall (E : Type) (wasm : VolumeViewerWasm E) (w : World E) (file : File)
         (eng eng1 eng2 : E) (bytes : list byte) (a b c : number)
         (canvas : Canvas) (container : DOMRect) (t : Thrown),
    viewer w = Some eng ->
    not_tiff_name (file_name file) = false ->
    (file_size file <= MAX_FILE_SIZE)%N ->
    arrayBuffer file = Return bytes ->
    load_volume wasm bytes eng = (eng1, Return (Some [a; b; c])) ->
    canvasRef w = Some canvas ->
    parentElement canvas = Some container ->
    resize wasm (rect_width container) (rect_height container) eng1
      = (eng2, Throws t) ->
    handleFileUpload wasm (Some file) w
    = ({| viewer := Some eng2;
          state := {| isLoading := false;
                      error := Some (message_or "Failed to load image" t);
                      isDragging := isDragging (state w);
                      lastMousePos := lastMousePos (state w);
                      mouseButton := mouseButton (state w);
                      dimensions := None |};
          canvasRef := Some (size_canvas canvas (rect_width container)
                                         (rect_height container));
          animationFrameRef := animationFrameRef w;
          log := log w ++ cancel_effects w
                   ++ [Call m_load_volume [JUint8Array bytes];
                       Call m_resize [JNumber (rect_width container);
                                      JNumber (rect_height container)];
                       ConsoleError "Error loading file:";
                       ClearFileInput] |},
       Return tt).
Proof.
  intros E wasm w file eng eng1 eng2 bytes a b c canvas container t
         Hv Hname Hsize Hbytes Hload Hc Hp Hresize.
  apply N.ltb_ge in Hsize.
  unfold handleFileUpload. rewrite Hv. unfold try_finally, try_catch.
  rewrite (upload_body_up_to_resize wasm w file eng eng1 bytes a b c canvas container
             Hv Hname Hsize Hbytes Hload Hc Hp).
  unfold bind, call, emit, setState.
  cbn [viewer state canvasRef animationFrameRef log fst snd].
  rewrite Hresize.
  cbn [viewer state canvasRef animationFrameRef log fst snd].
  rewrite <- !app_assoc. reflexivity.
Qed.

(** An accepted upload, start to end: the bytes of the file go to
    [load_volume], the three numbers it returns become the dimensions,
    the canvas and the engine take the container's size, and one frame
    is rendered and drawn before the file input is cleared. *)
Theorem accepted_upload_loads_resizes_and_draws :
  forall (E : Type) (wasm : VolumeViewerWasm E) (w : World E) (file : File)
         (eng eng1 eng2 eng3 : E) (bytes frame : list byte) (a b c : number)
         (canvas : Canvas) (container : DOMRect) (img : ImageData),
    viewer w = Some eng ->
    not_tiff_name (file_name file) = false ->
    (file_size file <= MAX_FILE_SIZE)%N ->
    arrayBuffer file = Return bytes ->
    load_volume wasm bytes eng = (eng1, Return (Some [a; b; c])) ->
    canvasRef w = Some canvas ->
    parentElement canvas = Some container ->
    context2d canvas = true ->
    resize wasm (rect_width container) (rect_height container) eng1
      = (eng2, Return tt) ->
    render wasm eng2 = (eng3, Return frame) ->
    new_ImageData frame (to_unsigned_long (rect_width container))
                  (to_unsigned_long (rect_height container)) = Return img ->
    handleFileUpload wasm (Some file) w
    = ({| viewer := Some eng3;
          state := {| isLoading := false;
                      error := None;
                      isDragging := isDragging (state w);
                      lastMousePos := lastMousePos (state w);
                      mouseButton := mouseButton (state w);
                      dimensions := Some (a, b, c) |};
          canvasRef := Some (size_canvas canvas (rect_width container)
                                         (rect_height container));
          animationFrameRef := animationFrameRef w;
          log := log w ++ cancel_effects w
                   ++ [Call m_load_volume [JUint8Array bytes];
                       Call m_resize [JNumber (rect_width container);
                                      JNumber (rect_height container)];
                       Call m_render [];
                       PutImageData img;
                       ClearFileInput] |},
       Return tt).
Proof.
  intros E wasm w file eng eng1 eng2 eng3 bytes frame a b c canvas container img
         Hv Hname Hsize Hbytes Hload Hc Hp Hctx Hresize Hrender Himg.
  apply N.ltb_ge in Hsize.
  unfold handleFileUpload. rewrite Hv. unfold try_finally, try_catch.
  rewrite (upload_body_up_to_resize wasm w file eng eng1 bytes a b c canvas container
             Hv Hname Hsize Hbytes Hload Hc Hp).
  unfold renderFrame, try_catch, bind, call, lift, emit, setState, throw, ret.
  cbn [viewer state canvasRef animationFrameRef log fst snd].
  rewrite Hresize.
  cbn [viewer state canvasRef animationFrameRef log fst snd
       size_canvas context2d canvas_width canvas_height].
  rewrite Hctx.
  cbn [viewer state canvasRef animationFrameRef log fst snd].
  rewrite Hrender.
  cbn [viewer state canvasRef animationFrameRef log fst snd].
  rewrite Himg.
  cbn [viewer state canvasRef animationFrameRef log fst snd].
  rewrite <- !app_assoc. reflexivity.
Qed.

(** A frame that cannot be rendered does not undo an upload: when
    [render] throws after the load and the resize went through, the
    dimensions stay on display and the loading flag is cleared; the
    failure is reported as a render error, not as a failed upload. *)
Theorem failed_render_after_load_keeps_the_dimensions :
  forall (E : Type) (wasm : VolumeViewerWasm E) (w : World E) (file : File)
         (eng eng1 eng2 eng3 : E) (bytes : list byte) (a b c : number)
         (canvas : Canvas) (container : DOMRect) (t : Thrown),
    viewer w = Some eng ->
    not_tiff_name (file_name file) = false ->
    (file_size file <= MAX_FILE_SIZE)%N ->
    arrayBuffer file = Return bytes ->
    load_volume wasm bytes eng = (eng1, Return (Some [a; b; c])) ->
    canvasRef w = Some canvas ->
    parentElement canvas = Some container ->
    context2d canvas = true ->
    resize wasm (rect_width container) (rect_height container) eng1
      = (eng2, Return tt) ->
    render wasm eng2 = (eng3, Throws t) ->
    handleFileUpload wasm (Some file) w
    = ({| viewer := Some eng3;
          state := {| isLoading := false;
                      error := Some (message_or "Render failed" t);
                      isDragging := isDragging (state w);
                      lastMousePos := lastMousePos (state w);
                      mouseButton := mouseButton (state w);
                      dimensions := Some (a, b, c) |};
          canvasRef := Some (size_canvas canvas (rect_width container)
                                         (rect_height container));
          animationFrameRef := animationFrameRef w;
          log := log w ++ cancel_effects w
                   ++ [Call m_load_volume [JUint8Array bytes];
                       Call m_resize [JNumber (rect_width container);
                                      JNumber (rect_height container)];
                       Call m_render [];
                       ConsoleError "Render error:";
                       ClearFileInput] |},
       Return tt).
Proof.
  intros E wasm w file eng eng1 eng2 eng3 bytes a b c canvas container t
         Hv Hname Hsize Hbytes Hload Hc Hp Hctx Hresize Hrender.
  apply N.ltb_ge in Hsize.
  unfold handleFileUpload. rewrite Hv. unfold try_finally, try_catch.
  rewrite (upload_body_up_to_resize wasm w file eng eng1 bytes a b c canvas container
             Hv Hname Hsize Hbytes Hload Hc Hp).
  unfold renderFrame, try_catch, bind, call, lift, emit, setState, throw, ret.
  cbn [viewer state canvasRef animationFrameRef log fst snd].
  rewrite Hresize.
  cbn [viewer state canvasRef animationFrameRef log fst snd
       size_canvas context2d canvas_width canvas_height].
  rewrite Hctx.
  cbn [viewer state canvasRef animationFrameRef log fst snd].
  rewrite Hrender.
  cbn [viewer state canvasRef animationFrameRef log fst snd].
  rewrite <- !app_assoc. reflexivity.
Qed.

(** ** Start-up *)



(** From mounting to the first frame.  The engine is constructed
    with the size of the canvas element as written in the markup, 800 by
    600; the initial resize that follows gives the canvas and the engine
    the size of the container, and the first frame is rendered and drawn
    at that size. *)
Theorem first_frame_is_drawn_at_the_container_size :
  forall (E : Type) (wasm : VolumeViewerWasm E) (wasmModule : WasmModule E)
         (container : DOMRect) (eng0 eng1 eng2 : E) (frame : list byte)
         (img : ImageData),
    module_default wasmModule = Return tt ->
    module_VolumeViewer wasmModule 800 600 = Return eng0 ->
    resize wasm (rect_width container) (rect_height container) eng0
      = (eng1, Return tt) ->
    render wasm eng1 = (eng2, Return frame) ->
    new_ImageData frame (to_unsigned_long (rect_width container))
                  (to_unsigned_long (rect_height container)) = Return img ->
    let canvas := jsx_canvas true (Some container) in
    bind (initViewer (Return wasmModule)) (fun _ => handleResize wasm)
         (mounted (Some canvas))
    = ({| viewer := Some eng2;
          state := {| isLoading := false; error := None; isDragging := false;
                      lastMousePos := {| x := 0%float; y := 0%float |};
                      mouseButton := None; dimensions := None |};
          canvasRef := Some (size_canvas canvas (rect_width container)
                                         (rect_height container));
          animationFrameRef := None;
          log := [Call m_resize [JNumber (rect_width container);
                                 JNumber (rect_height container)];
                  Call m_render [];
                  PutImageData img] |}, Return tt).
Proof.
  intros E wasm wasmModule container eng0 eng1 eng2 frame img
         Hdefault Hnew Hresize Hrender Himg canvas. subst canvas.
  unfold initViewer, handleResize, renderFrame, mounted, jsx_canvas, initial_state,
    try_catch, bind, call, lift, emit, setState, setViewer, set_canvas, throw, ret.
  rewrite Hdefault.
  cbn [viewer state canvasRef animationFrameRef log fst snd
       canvas_width canvas_height context2d parentElement
       isLoading error isDragging lastMousePos mouseButton dimensions].
  rewrite Hnew.
  cbn [viewer state canvasRef animationFrameRef log fst snd
       canvas_width canvas_height context2d parentElement size_canvas
       isLoading error isDragging lastMousePos mouseButton dimensions].
  rewrite Hresize.
  cbn [viewer state canvasRef animationFrameRef log fst snd
       canvas_width canvas_height context2d parentElement size_canvas
       isLoading error isDragging lastMousePos mouseButton dimensions].
  rewrite Hrender.
  cbn [viewer state canvasRef animationFrameRef log fst snd
       canvas_width canvas_height context2d parentElement size_canvas
       isLoading error isDragging lastMousePos mouseButton dimensions].
  rewrite Himg.
  cbn [viewer state canvasRef animationFrameRef log fst snd app]. reflexivity.
Qed.

(** ** What the user sees *)

(** After a failed upload the overlay is gone, the file input is
    enabled again and no dimensions are shown.  The error banner shows
    the message of what was thrown, or "Failed to load image" when that
    is no [Error]; when it is an [Error] with an empty message the banner
    stays hidden, and the failure leaves no trace on screen. *)
Theorem failed_upload_on_screen :
  forall (E : Type) (wasm : VolumeViewerWasm E) (w w1 : World E) (file : File)
         (t : Thrown),
    viewer w <> None ->
    upload_body wasm file w = (w1, Throws t) ->
    let shown := view (state (fst (handleFileUpload wasm (Some file) w))) in
    input_disabled shown = false /\
    loading_overlay shown = false /\
    dimensions_shown shown = None /\
    (t = ErrorObject "" -> error_banner shown = None) /\
    (t <> ErrorObject "" ->
     error_banner shown = Some (message_or "Failed to load image" t)).
Proof.
  intros E wasm w w1 file t Hv Hbody shown. subst shown.
  destruct (handleFileUpload_caught wasm w w1 file t Hv Hbody)
    as (He & Hd & Hl & _ & _).
  unfold view. cbn [input_disabled loading_overlay dimensions_shown error_banner].
  rewrite He, Hd, Hl. repeat split.
  - intros ->. reflexivity.
  - intros Hne. destruct t as [[|ch msg]|]; cbn; congruence.
Qed.

(** ** What is loaded *)

Lemma handleFileUpload_ends_loading {E} (wasm : VolumeViewerWasm E) (w : World E)
    (file : File) :
  viewer w <> None ->
  isLoading (state (fst (handleFileUpload wasm (Some file) w))) = false.
Proof.
  intros Hv.
  destruct (upload_body_outcome wasm w file) as (_ & _ & _ & Hret). cbv zeta in Hret.
  destruct (upload_body wasm file w) as [w1 [[]|t]] eqn:Hbody; cbn [fst snd] in Hret.
  - destruct (Hret tt eq_refl) as [Hl _].
    unfold handleFileUpload. destruct (viewer w); [|congruence].
    unfold try_finally, try_catch. rewrite Hbody. exact Hl.
  - apply (handleFileUpload_caught wasm w w1 file t Hv Hbody).
Qed.

Lemma dispatch_loaded {E} (wasm : VolumeViewerWasm E) (ev : UIEvent) (w : World E) :
  let w' := fst (dispatch wasm ev w) in
  (isLoading (state w) = false -> isLoading (state w') = false) /\
  ((forall file, ev <> FileChange (Some file)) ->
   isLoading (state w') = isLoading (state w) /\
   dimensions (state w') = dimensions (state w)).
Proof.
  destruct ev as [e|e| | |e| | |selected]; cbn [dispatch]; cbv zeta;
    try (cbn; split; [auto | intros _; auto]; fail).
  - destruct (handleMouseMove_footprint wasm w e) as (Hl & _ & Hd).
    rewrite Hl, Hd. auto.
  - destruct (handleWheel_footprint wasm w e) as (Hl & _ & _ & _ & Hd).
    rewrite Hl, Hd. auto.
  - destruct (handleResize_footprint wasm w) as (Hl & _ & _ & _ & Hd).
    rewrite Hl, Hd. auto.
  - destruct selected as [file|]; [|cbn; auto].
    destruct (viewer w) as [eng|] eqn:Hv.
    + split.
      * intros _. apply handleFileUpload_ends_loading. congruence.
      * intros Hno. exfalso. exact (Hno file eq_refl).
    + rewrite handleFileUpload_no_viewer by exact Hv. cbn. auto.
Qed.

(** Only a file selection changes what is loaded.  Over any run of
    events, each handled to its end before the next: a loading flag that
    is off stays off, so the file input is never left disabled; and as
    long as no file is selected, the loading flag and the dimensions on
    display stay as they are and [load_volume] is not called. *)
Theorem only_an_upload_changes_what_is_loaded :
  forall (E : Type) (wasm : VolumeViewerWasm E) (evs : list UIEvent) (w : World E),
    let w' := run_events wasm evs w in
    (isLoading (state w) = false -> isLoading (state w') = false) /\
    ((forall file, ~ In (FileChange (Some file)) evs) ->
     isLoading (state w') = isLoading (state w) /\
     dimensions (state w') = dimensions (state w) /\
     calls_of m_load_volume (new_effects w w') = []).
Proof.
  intros E wasm evs w w'. subst w'. split.
  - revert w. induction evs as [|ev evs IH]; intros w Hl; [exact Hl|].
    cbn [run_events fold_left]. fold (run_events wasm evs (fst (dispatch wasm ev w))).
    apply IH. apply (dispatch_loaded wasm ev w). exact Hl.
  - intros Hno.
    assert (Hsame : isLoading (state (run_events wasm evs w)) = isLoading (state w) /\
                    dimensions (state (run_events wasm evs w)) = dimensions (state w)).
    { revert w. induction evs as [|ev evs IH]; intros w; [auto|].
      cbn [run_events fold_left]. fold (run_events wasm evs (fst (dispatch wasm ev w))).
      destruct (IH (fun file Hin => Hno file (or_intror Hin)) (fst (dispatch wasm ev w)))
        as [Hl Hd].
      destruct (dispatch_loaded wasm ev w) as [_ Hstep].
      destruct Hstep as [Hl' Hd'].
      { intros file ->. apply (Hno file). left. reflexivity. }
      split; congruence. }
    destruct Hsame as [Hl Hd]. split; [exact Hl|]. split; [exact Hd|].
    set (P := fun eff => calls_of m_load_volume [eff] = []).
    assert (H : appends P w (run_events wasm evs w)).
    { apply (respects_run_events wasm (appends P) P); try appends_rules P.
      - intros id w0 _ _. apply appends_emit. reflexivity.
      - intros ev eff Hin Heff.
        assert (Hrender : forall e, render_effect e -> P e)
          by (intros e0 [-> | [[img ->] | ->]]; reflexivity).
        destruct ev as [e|e| | |e| | |[file|]]; cbn [event_effect] in Heff;
          try contradiction.
        + destruct Heff as [(a & b & ->) | [(a & b & ->) | [-> | Hr]]];
            try reflexivity. apply Hrender, Hr.
        + destruct Heff as [-> | [-> | [-> | Hr]]]; try reflexivity.
          apply Hrender, Hr.
        + destruct Heff as [(a & b & ->) | [-> | Hr]]; try reflexivity.
          apply Hrender, Hr.
        + exfalso. exact (Hno file Hin). }
    destruct H as (effs & Hlog & Hall).
    rewrite (new_effects_app _ _ _ Hlog).
    clear Hlog. induction Hall as [|eff effs Heff _ IH]; [reflexivity|].
    change (eff :: effs) with ([eff] ++ effs). rewrite calls_of_app, Heff, IH.
    reflexivity.
Qed.

(** ** The error on display *)

Lemma renderFrame_keeps_an_error {E} (wasm : VolumeViewerWasm E) (w : World E) :
  error (state w) <> None -> error (state (fst (renderFrame wasm w))) <> None.
Proof.
  intros He. run_host.
  destruct (viewer w) as [eng|] eqn:Hw; [|exact He].
  destruct (canvasRef w) as [canvas|]; [|exact He].
  destruct (context2d canvas); cbn; [|discriminate].
  rewrite Hw. destruct (render wasm eng) as [eng' [buf|t]]; cbn; [|discriminate].
  destruct (new_ImageData buf _ _); cbn; [exact He | discriminate].
Qed.

Lemma handleWheel_keeps_an_error {E} (wasm : VolumeViewerWasm E) (w : World E) e :
  error (state w) <> None -> error (state (fst (handleWheel wasm e w))) <> None.
Proof.
  intros He. unfold handleWheel.
  destruct (viewer w) as [eng|] eqn:Hv; [|exact He].
  unfold try_catch, bind. unfold call at 1. rewrite Hv.
  destruct (zoom wasm _ eng) as [eng1 [[]|t]];
    cbn [viewer state canvasRef animationFrameRef log fst snd].
  - match goal with
    | |- context [renderFrame wasm ?w1] =>
        pose proof (renderFrame_keeps_an_error wasm w1 He) as Hkeep;
        pose proof (renderFrame_returns wasm w1) as Hret;
        destruct (renderFrame wasm w1) as [w2 r]
    end.
    cbn [fst snd] in Hkeep, Hret. subst r. exact Hkeep.
  - cbn. discriminate.
Qed.

Lemma handleResize_keeps_an_error {E} (wasm : VolumeViewerWasm E) (w : World E) :
  error (state w) <> None -> error (state (fst (handleResize wasm w))) <> None.
Proof.
  intros He. unfold handleResize.
  destruct (viewer w) as [eng|] eqn:Hv; [|exact He].
  destruct (canvasRef w) as [canvas|]; [|exact He].
  destruct (parentElement canvas) as [container|]; [|exact He].
  unfold try_catch, bind, set_canvas. unfold call at 1.
  cbn [viewer state canvasRef animationFrameRef log fst snd]. rewrite Hv.
  destruct (resize wasm _ _ eng) as [eng1 [[]|t]];
    cbn [viewer state canvasRef animationFrameRef log fst snd].
  - match goal with
    | |- context [renderFrame wasm ?w1] =>
        pose proof (renderFrame_keeps_an_error wasm w1 He) as Hkeep;
        pose proof (renderFrame_returns wasm w1) as Hret;
        destruct (renderFrame wasm w1) as [w2 r]
    end.
    cbn [fst snd] in Hkeep, Hret. subst r. exact Hkeep.
  - cbn. discriminate.
Qed.

(** An error stays on display until the user presses a button, drags
    or selects a file: wheel events, window resizes, button releases,
    the pointer leaving the canvas and the context menu never clear it,
    not even when the zoom or the resize they ask for goes through and a
    frame is drawn (the message itself may be replaced by a newer one). *)
Theorem zooming_and_resizing_never_clear_the_error :
  forall (E : Type) (wasm : VolumeViewerWasm E) (evs : list UIEvent) (w : World E),
    (forall ev, In ev evs ->
                ev = MouseUp \/ ev = MouseLeave \/ ev = ContextMenu \/
                ev = WindowResize \/ exists e, ev = Wheel e) ->
    error (state w) <> None ->
    error (state (run_events wasm evs w)) <> None.
Proof.
  intros E wasm evs. induction evs as [|ev evs IH]; intros w Hevs He; [exact He|].
  cbn [run_events fold_left]. fold (run_events wasm evs (fst (dispatch wasm ev w))).
  apply IH; [intros ev' Hin; apply Hevs; right; exact Hin|].
  destruct (Hevs ev (or_introl eq_refl)) as [-> | [-> | [-> | [-> | [e ->]]]]];
    cbn [dispatch].
  - exact He.
  - exact He.
  - exact He.
  - apply handleResize_keeps_an_error, He.
  - apply handleWheel_keeps_an_error, He.
Qed.

(** * Properties of the conversion script *)

Lemma string_app_assoc (a b c : string) : ((a ++ b) ++ c = a ++ (b ++ c))%string.
Proof. induction a as [|ch a IH]; cbn [append]; [reflexivity|]. rewrite IH. reflexivity. Qed.

Lemma remove_extension_no_dot (s : string) :
  ConvertScript.has_dot s = false -> ConvertScript.remove_extension s = s.
Proof.
  induction s as [|c s IH]; cbn [ConvertScript.has_dot ConvertScript.remove_extension];
    [reflexivity|].
  intros H. apply orb_false_iff in H. destruct H as [Hc Hs].
  rewrite Hc, (IH Hs). reflexivity.
Qed.

Lemma has_dot_app (a b : string) :
  ConvertScript.has_dot (a ++ b) = ConvertScript.has_dot a || ConvertScript.has_dot b.
Proof.
  induction a as [|c a IH]; cbn [append ConvertScript.has_dot]; [reflexivity|].
  rewrite IH. apply orb_assoc.
Qed.

Lemma remove_extension_last (stem ext : string) :
  ConvertScript.has_dot ext = false ->
  ConvertScript.remove_extension (stem ++ String "." ext) = stem.
Proof.
  intros Hext.
  induction stem as [|c stem IH];
    cbn [append ConvertScript.remove_extension].
  - rewrite Hext. reflexivity.
  - rewrite IH, has_dot_app. cbn [ConvertScript.has_dot].
    rewrite orb_true_r, andb_false_r. reflexivity.
Qed.

(** The output name the script chooses when none is given is the
    input's base name without its last extension (the text from its
    last dot on), followed by [_converted.tiff]; a base name without a
    dot is kept whole.  Whatever the input, the viewer's upload handler
    accepts that name. *)
Theorem default_output_is_a_name_the_viewer_accepts :
  forall (t : ConvertScript.Tools) (input_file : string),
    not_tiff_name (ConvertScript.default_output t input_file) = false /\
    (forall stem ext,
        ConvertScript.basename t input_file = (stem ++ String "." ext)%string ->
        ConvertScript.has_dot ext = false ->
        ConvertScript.default_output t input_file = (stem ++ "_converted.tiff")%string) /\
    (ConvertScript.has_dot (ConvertScript.basename t input_file) = false ->
     ConvertScript.default_output t input_file
     = (ConvertScript.basename t input_file ++ "_converted.tiff")%string).
Proof.
  intros t input_file. unfold ConvertScript.default_output. cbv zeta.
  split; [|split].
  - unfold not_tiff_name.
    assert (H : endsWith
                  (toLowerCase
                     (ConvertScript.remove_extension (ConvertScript.basename t input_file)
                      ++ "_converted.tiff")) ".tiff" = true).
    { apply endsWith_spec.
      exists (toLowerCase
                (ConvertScript.remove_extension (ConvertScript.basename t input_file)
                 ++ "_converted")).
      rewrite !toLowerCase_app, string_app_assoc. reflexivity. }
    rewrite H. apply andb_false_r.
  - intros stem ext -> Hext. rewrite (remove_extension_last stem ext Hext). reflexivity.
  - intros Hno. rewrite (remove_extension_no_dot _ Hno). reflexivity.
Qed.

(** The script reports success whatever the conversion did.  With
    ImageMagick installed and an existing input file, the run does not
    depend on the exit status of the conversion: the test of [$?] that
    follows the channel check sees the exit status of that check, which
    is zero, so "Conversion successful!" is always written, "Error:
    Conversion failed" never is, and the script does not exit with 1
    there; its exit status is that of the final [grep]. *)
Theorem conversion_is_reported_successful_whatever_magick_did :
  forall (t : ConvertScript.Tools) (script_name input_file : string)
         (more : list string),
    ConvertScript.magick_installed t = true ->
    ConvertScript.regular_file t input_file = true ->
    let args := input_file :: more in
    let output_file := ConvertScript.output_name t args in
    let channels := fst (ConvertScript.channels_of t output_file) in
    ConvertScript.script t script_name args ConvertScript.start
    = {| ConvertScript.stdout :=
           [("Converting " ++ input_file ++ " to " ++ output_file ++ "...")%string]
           ++ (if negb (String.eqb channels "1") && negb (String.eqb channels "gray")
               then ["Warning: Conversion may not have produced a proper single-channel image"%string;
                     ("Channels: " ++ channels)%string]
               else [])
           ++ ["Conversion successful!"%string;
               ("Output saved as: " ++ output_file)%string;
               EmptyString;
               "File information:"%string]
           ++ ConvertScript.report_of t output_file;
         ConvertScript.status :=
           match ConvertScript.report_of t output_file with [] => 1%N | _ => 0%N end;
         ConvertScript.exited := false |}.
Proof.
  intros t script_name input_file more Hmagick Hfile args output_file channels.
  unfold ConvertScript.script. fold args. cbv zeta. fold output_file. fold channels.
  rewrite Hmagick. unfold args at 1 2. cbn [List.length Nat.eqb nth].
  rewrite Hfile.
  destruct (negb (String.eqb channels "1") && negb (String.eqb channels "gray"));
    cbv beta iota zeta delta
      [ConvertScript.seq ConvertScript.if_then ConvertScript.test_last_status
       ConvertScript.test ConvertScript.echo ConvertScript.exit
       ConvertScript.command ConvertScript.running ConvertScript.start
       ConvertScript.stdout ConvertScript.status ConvertScript.exited
       N.eqb Pos.eqb app negb];
    reflexivity.
Qed.

(** * The further properties at concrete inputs *)

(** Events before the engine exists leave the log empty. *)
Lemma events_without_engine_at_mount :
  log (run_events still_engine
         [MouseDown (pointer_at 1 1); MouseMove (pointer_at 2 3);
          Wheel {| deltaY := 120%float |}; WindowResize;
          FileChange (Some (tiff_file "scan.tif" 1 [Byte.x01])); MouseUp]
         (mounted (Some small_canvas)))
  = [].
Proof.
  apply (without_engine_events_only_track_the_drag unit still_engine
           [MouseDown (pointer_at 1 1); MouseMove (pointer_at 2 3);
            Wheel {| deltaY := 120%float |}; WindowResize;
            FileChange (Some (tiff_file "scan.tif" 1 [Byte.x01])); MouseUp]
           (mounted (Some small_canvas)) eq_refl).
Defined.

(** An upload the engine rejects still ends with the loading flag off. *)
Lemma upload_settles_at_rejected_load :
  isLoading (state (fst (handleFileUpload table_engine
                           (Some (tiff_file "empty.tif" 0 [])) loaded_world)))
  = false.
Proof.
  apply (upload_always_settles (list byte) table_engine loaded_world [Byte.x01]
           (tiff_file "empty.tif" 0 []) eq_refl).
Defined.


(** A wheel event on the broken engine. *)
Lemma failed_zoom_at_ready_world :
  handleWheel broken_engine {| deltaY := 120%float |} ready_world
  = ({| viewer := Some tt;
        state := {| isLoading := false; error := Some "unreachable"%string;
                    isDragging := false;
                    lastMousePos := {| x := 0%float; y := 0%float |};
                    mouseButton := None; dimensions := None |};
        canvasRef := Some small_canvas;
        animationFrameRef := None;
        log := [Call m_zoom [JNumber 0.1%float]; ConsoleError "Wheel error:"] |},
     Return tt).
Proof.
  exact (failed_zoom_is_reported_and_not_rendered unit broken_engine ready_world
           tt tt {| deltaY := 120%float |} (ErrorObject "unreachable")
           eq_refl eq_refl).
Defined.

(** A window resize on the broken engine. *)
Lemma failed_resize_at_ready_world :
  handleResize broken_engine ready_world
  = ({| viewer := Some tt;
        state := {| isLoading := false; error := Some "unreachable"%string;
                    isDragging := false;
                    lastMousePos := {| x := 0%float; y := 0%float |};
                    mouseButton := None; dimensions := None |};
        canvasRef := Some small_canvas;
        animationFrameRef := None;
        log := [Call m_resize [JNumber 2%float; JNumber 2%float];
                ConsoleError "Resize error:"] |},
     Return tt).
Proof.
  exact (failed_resize_leaves_the_canvas_resized unit broken_engine ready_world
           tt tt small_canvas {| rect_width := 2%float; rect_height := 2%float |}
           (ErrorObject "unreachable") eq_refl eq_refl eq_refl eq_refl).
Defined.



(** An unreadable file on the ready component. *)
Lemma unreadable_file_at_ready_world :
  handleFileUpload still_engine (Some unreadable_file) ready_world
  = ({| viewer := Some tt;
        state := {| isLoading := false; error := Some "NotReadableError"%string;
                    isDragging := false;
                    lastMousePos := {| x := 0%float; y := 0%float |};
                    mouseButton := None; dimensions := None |};
        canvasRef := Some small_canvas;
        animationFrameRef := None;
        log := [ConsoleError "Error loading file:"; ClearFileInput] |},
     Return tt).
Proof.
  apply (unreadable_file_never_reaches_the_engine unit still_engine ready_world tt
           unreadable_file (ErrorObject "NotReadableError")).
  - reflexivity.
  - reflexivity.
  - vm_compute. discriminate.
  - reflexivity.
Defined.

(** An upload on the broken engine: loaded, then refused at the resize. *)
Lemma failed_resize_after_load_at_ready_world :
  handleFileUpload broken_engine (Some (tiff_file "scan.tiff" 10 [Byte.x01]))
    ready_world
  = ({| viewer := Some tt;
        state := {| isLoading := false; error := Some "unreachable"%string;
                    isDragging := false;
                    lastMousePos := {| x := 0%float; y := 0%float |};
                    mouseButton := None; dimensions := None |};
        canvasRef := Some small_canvas;
        animationFrameRef := None;
        log := [Call m_load_volume [JUint8Array [Byte.x01]];
                Call m_resize [JNumber 2%float; JNumber 2%float];
                ConsoleError "Error loading file:";
                ClearFileInput] |},
     Return tt).
Proof.
  apply (failed_resize_after_load_fails_the_upload unit broken_engine ready_world
           (tiff_file "scan.tiff" 10 [Byte.x01]) tt tt tt [Byte.x01]
           3%float 4%float 5%float small_canvas
           {| rect_width := 2%float; rect_height := 2%float |}
           (ErrorObject "unreachable")).
  - reflexivity.
  - reflexivity.
  - vm_compute. discriminate.
  - reflexivity.
  - reflexivity.
  - reflexivity.
  - reflexivity.
  - reflexivity.
Defined.

(** A file of exactly 256 MiB with an upper-case name is accepted. *)
Lemma accepted_upload_at_the_size_limit :
  handleFileUpload still_engine
    (Some (tiff_file "SCAN.TIF" (256 * 1024 * 1024) [Byte.x01])) ready_world
  = ({| viewer := Some tt;
        state := {| isLoading := false; error := None; isDragging := false;
                    lastMousePos := {| x := 0%float; y := 0%float |};
                    mouseButton := None;
                    dimensions := Some (1, 1, 1)%float |};
        canvasRef := Some small_canvas;
        animationFrameRef := None;
        log := [Call m_load_volume [JUint8Array [Byte.x01]];
                Call m_resize [JNumber 2%float; JNumber 2%float];
                Call m_render [];
                PutImageData black_frame;
                ClearFileInput] |},
     Return tt).
Proof.
  apply (accepted_upload_loads_resizes_and_draws unit still_engine ready_world
           (tiff_file "SCAN.TIF" (256 * 1024 * 1024) [Byte.x01]) tt tt tt tt
           [Byte.x01] (repeat Byte.x00 16) 1%float 1%float 1%float small_canvas
           {| rect_width := 2%float; rect_height := 2%float |} black_frame).
  - reflexivity.
  - reflexivity.
  - vm_compute. discriminate.
  - reflexivity.
  - reflexivity.
  - reflexivity.
  - reflexivity.
  - reflexivity.
  - reflexivity.
  - reflexivity.
  - reflexivity.
Defined.

(** An upload on the engine that cannot render. *)
Lemma failed_render_after_load_at_ready_world :
  handleFileUpload blind_engine (Some (tiff_file "scan.tiff" 10 [Byte.x01]))
    ready_world
  = ({| viewer := Some tt;
        state := {| isLoading := false; error := Some "Render failed"%string;
                    isDragging := false;
                    lastMousePos := {| x := 0%float; y := 0%float |};
                    mouseButton := None;
                    dimensions := Some (3, 4, 5)%float |};
        canvasRef := Some small_canvas;
        animationFrameRef := None;
        log := [Call m_load_volume [JUint8Array [Byte.x01]];
                Call m_resize [JNumber 2%float; JNumber 2%float];
                Call m_render [];
                ConsoleError "Render error:";
                ClearFileInput] |},
     Return tt).
Proof.
  apply (failed_render_after_load_keeps_the_dimensions unit blind_engine ready_world
           (tiff_file "scan.tiff" 10 [Byte.x01]) tt tt tt tt [Byte.x01]
           3%float 4%float 5%float small_canvas
           {| rect_width := 2%float; rect_height := 2%float |} OtherValue).
  - reflexivity.
  - reflexivity.
  - vm_compute. discriminate.
  - reflexivity.
  - reflexivity.
  - reflexivity.
  - reflexivity.
  - reflexivity.
  - reflexivity.
  - reflexivity.
Defined.


(** Start-up in a container of 2 by 2 pixels. *)
Lemma first_frame_in_a_small_container :
  bind (initViewer (Return glue_module)) (fun _ => handleResize still_engine)
       (mounted (Some (jsx_canvas true
                         (Some {| rect_width := 2%float; rect_height := 2%float |}))))
  = ({| viewer := Some tt;
        state := {| isLoading := false; error := None; isDragging := false;
                    lastMousePos := {| x := 0%float; y := 0%float |};
                    mouseButton := None; dimensions := None |};
        canvasRef := Some small_canvas;
        animationFrameRef := None;
        log := [Call m_resize [JNumber 2%float; JNumber 2%float];
                Call m_render [];
                PutImageData black_frame] |}, Return tt).
Proof.
  exact (first_frame_is_drawn_at_the_container_size unit still_engine glue_module
           {| rect_width := 2%float; rect_height := 2%float |} tt tt tt
           (repeat Byte.x00 16) black_frame
           eq_refl eq_refl eq_refl eq_refl eq_refl).
Defined.

(** A rejection without message leaves nothing on screen. *)
Lemma silent_failure_at_mute_engine :
  view (state (fst (handleFileUpload mute_engine
                      (Some (tiff_file "scan.tiff" 10 [Byte.x01])) ready_world)))
  = {| input_disabled := false; dimensions_shown := None;
       loading_overlay := false; error_banner := None |}.
Proof.
  assert (Hv : viewer ready_world <> None) by discriminate.
  destruct (failed_upload_on_screen unit mute_engine ready_world
              (fst (upload_body mute_engine (tiff_file "scan.tiff" 10 [Byte.x01])
                      ready_world))
              (tiff_file "scan.tiff" 10 [Byte.x01]) (ErrorObject "") Hv eq_refl)
    as (Hi & Hl & Hd & Hb & _).
  specialize (Hb eq_refl).
  destruct (view _) as [i d l b]. cbn in Hi, Hl, Hd, Hb. subst. reflexivity.
Defined.

(** The error of a failed zoom survives a zoom that succeeds. *)
Lemma error_survives_a_successful_zoom :
  exists msg,
    error (state (run_events still_engine
                    [Wheel {| deltaY := 120%float |}; WindowResize; MouseUp]
                    (fst (handleWheel broken_engine {| deltaY := 120%float |}
                            ready_world))))
    = Some msg.
Proof.
  destruct (error (state (run_events still_engine
                            [Wheel {| deltaY := 120%float |}; WindowResize; MouseUp]
                            (fst (handleWheel broken_engine {| deltaY := 120%float |}
                                    ready_world))))) as [msg|] eqn:He.
  - exists msg. reflexivity.
  - exfalso. revert He.
    apply (zooming_and_resizing_never_clear_the_error unit still_engine
             [Wheel {| deltaY := 120%float |}; WindowResize; MouseUp]
             (fst (handleWheel broken_engine {| deltaY := 120%float |} ready_world))).
    + intros ev [<- | [<- | [<- | []]]]; eauto 6.
    + discriminate.
Defined.

(** A conversion that fails with exit status 1 is reported as a success. *)
Lemma failed_conversion_is_reported_successful :
  ConvertScript.script failing_magick "convert_image.sh" ["photos/cells.v2.png"%string]
    ConvertScript.start
  = {| ConvertScript.stdout :=
         ["Converting photos/cells.v2.png to cells.v2_converted.tiff..."%string;
          "Warning: Conversion may not have produced a proper single-channel image"%string;
          "Channels: srgb"%string;
          "Conversion successful!"%string;
          "Output saved as: cells.v2_converted.tiff"%string;
          EmptyString;
          "File information:"%string;
          "  Format: TIFF"%string];
       ConvertScript.status := 0;
       ConvertScript.exited := false |}.
Proof.
  exact (conversion_is_reported_successful_whatever_magick_did failing_magick
           "convert_image.sh" "photos/cells.v2.png" [] eq_refl eq_refl).
Defined.
